(** * Spatio-temporal discretization: a shallow embedding

    The development follows the two source files of the repository:

    - [delphi/time_discretization_utils.py]: [apply_time_frequency] and
      [calculate_sazonality] (module [TimeDiscretization]);
    - [spated/data_agg.py]: the class [DataAggregator] (module [DataAgg]).

    Python values are modelled as the code manipulates them.  Integers are
    [Z]; a pandas series of floats that only ever holds integral values,
    [inf] or [NaN] is a list of [option Z] ([None] is a non-finite float);
    a timestamp is its pandas representation, the number of nanoseconds
    since 1970-01-01T00:00:00.  Floating point rounding is not modelled:
    quotients of timedeltas are exact rationals. *)

From Stdlib Require Import ZArith QArith Qround List Bool Lia.
From stdpp Require Import base option list strings pretty gmap.

Local Open Scope Z_scope.

(** ** Python exceptions and results *)

Inductive exn : Type :=
| AttributeError (msg : string)
| ValueError (msg : string)
| KeyError (key : string)
| TypeError (msg : string)
| IndexError (msg : string)
| IndexingError (msg : string)
| ZeroDivisionError
| UnboundLocalError (var : string).

Inductive result (A : Type) : Type :=
| Ok (a : A)
| Raise (e : exn).

Arguments Ok {A} a.
Arguments Raise {A} e.

Definition rbind {A B} (r : result A) (k : A -> result B) : result B :=
  match r with
  | Ok a => k a
  | Raise e => Raise e
  end.

Declare Scope result_scope.
Delimit Scope result_scope with result.
Notation "'do' x <- r ; k" := (rbind r (fun x => k))
  (at level 10, x name, r at level 100, k at level 200) : result_scope.

Fixpoint rmapM {A B} (f : A -> result B) (l : list A) : result (list B) :=
  match l with
  | [] => Ok []
  | a :: l' =>
      (do b <- f a; do bs <- rmapM f l'; Ok (b :: bs))%result
  end.

(** The builtin [sum] on integers. *)
Definition sum (l : list Z) : Z := fold_left Z.add l 0.

(** ** [delphi/time_discretization_utils.py] *)

Module TimeDiscretization.

(** A [pandas.Timestamp]: nanoseconds since the epoch. *)
Definition Timestamp := Z.

Definition ns_per_second : Z := 1000000000.
Definition seconds_per_day : Z := 24 * 60 * 60.
Definition ns_per_day : Z := seconds_per_day * ns_per_second.

(** Proleptic Gregorian calendar, as [datetime] and pandas compute it:
    the day number of a civil date and back (day 0 is 1970-01-01). *)
Definition days_from_civil (y m d : Z) : Z :=
  let y' := if m <=? 2 then y - 1 else y in
  let era := y' / 400 in
  let yoe := y' - era * 400 in
  let mp := if m >? 2 then m - 3 else m + 9 in
  let doy := (153 * mp + 2) / 5 + d - 1 in
  let doe := yoe * 365 + yoe / 4 - yoe / 100 + doy in
  era * 146097 + doe - 719468.

Definition civil_from_days (z : Z) : Z * Z * Z :=
  let z' := z + 719468 in
  let era := z' / 146097 in
  let doe := z' - era * 146097 in
  let yoe := (doe - doe / 1460 + doe / 36524 - doe / 146096) / 365 in
  let doy := doe - (365 * yoe + yoe / 4 - yoe / 100) in
  let mp := (5 * doy + 2) / 153 in
  let d := doy - (153 * mp + 2) / 5 + 1 in
  let m := if mp <? 10 then mp + 3 else mp - 9 in
  let y := yoe + era * 400 in
  (if m <=? 2 then y + 1 else y, m, d).

(** [pd.Timestamp(year, month, day, hour, minute, second)]. *)
Definition mk_timestamp (y mo d h mi s : Z) : Timestamp :=
  ((days_from_civil y mo d * 24 + h) * 60 + mi) * 60 * ns_per_second
  + s * ns_per_second.

Definition day_number (t : Timestamp) : Z := t / ns_per_day.

(** [ts.dt.year], [ts.dt.month]. *)
Definition year (t : Timestamp) : Z :=
  let '(y, _, _) := civil_from_days (day_number t) in y.
Definition month (t : Timestamp) : Z :=
  let '(_, m, _) := civil_from_days (day_number t) in m.

(** [t.hour], [t.minute], [t.second] and the part below the second, which
    [replace(hour=.., minute=.., second=..)] leaves in place. *)
Definition second_of_day (t : Timestamp) : Z :=
  (t / ns_per_second) mod seconds_per_day.
Definition hour (t : Timestamp) : Z := second_of_day t / 3600.
Definition minute (t : Timestamp) : Z := (second_of_day t / 60) mod 60.
Definition second (t : Timestamp) : Z := second_of_day t mod 60.

(** [t.replace(hour=0, minute=0, second=0)]. *)
Definition replace_hms0 (t : Timestamp) : Timestamp :=
  t - (hour t * 3600 + minute t * 60 + second t) * ns_per_second.

(** [t.replace(second=0)]. *)
Definition replace_s0 (t : Timestamp) : Timestamp :=
  t - second t * ns_per_second.

(** [t.weekday()]: Monday is 0; 1970-01-01 was a Thursday. *)
Definition weekday (t : Timestamp) : Z := (day_number t + 3) mod 7.

(** [t - timedelta(days=n)]. *)
Definition minus_days (t : Timestamp) (n : Z) : Timestamp := t - n * ns_per_day.

(** [Series.min()] of a series without missing values; the minimum of an
    empty series is undefined ([NaN]/[NaT] in pandas) and stops the model
    with a [ValueError]. *)
Fixpoint series_min (l : list Z) : option Z :=
  match l with
  | [] => None
  | x :: l' =>
      match series_min l' with
      | None => Some x
      | Some m => Some (Z.min x m)
      end
  end.

Definition min_or_raise (l : list Z) : result Z :=
  match series_min l with
  | Some m => Ok m
  | None => Raise (ValueError "minimum of an empty series")
  end.

(** [(ts - origin).dt.total_seconds()], an exact rational. *)
Definition total_seconds (origin t : Timestamp) : Q :=
  Qmake (t - origin) 1000000000.

(** Floor division of a float by a Python integer: by zero it yields a
    non-finite float and no exception. *)
Definition floordiv (x : Q) (d : Z) : option Z :=
  if d =? 0 then None else Some (Qfloor (x / inject_Z d)).

(** The same on an integral-or-non-finite float. *)
Definition floordiv_z (x : option Z) (d : Z) : option Z :=
  match x with
  | Some v => if d =? 0 then None else Some (v / d)
  | None => None
  end.

(** [x % d] on such a float. *)
Definition mod_z (x : option Z) (d : Z) : option Z :=
  match x with
  | Some v => if d =? 0 then None else Some (v mod d)
  | None => None
  end.

(** The week origin of the [W] branch: midnight of the minimum, moved
    back to the Monday of its week. *)
Definition week_origin (tmin : Timestamp) : Timestamp :=
  let min_day := replace_hms0 tmin in
  minus_days min_day (weekday min_day).

(** Seconds elapsed since [origin], floor-divided by [unit_seconds]. *)
Definition elapsed_units (origin : Timestamp) (unit_seconds : Z)
    (ts : list Timestamp) : list Q :=
  map (fun t => inject_Z (Qfloor (total_seconds origin t / inject_Z unit_seconds))) ts.

(** The [if]/[elif] chain of [apply_time_frequency] that binds [w].
    [None]: no branch was taken and [w] stays unbound. *)
Definition window_unit (ts : list Timestamp) (window : string)
    : option (result (list Q)) :=
  if (window =? "Y")%string then
    Some (do min_year <- min_or_raise (map year ts);
          Ok (map (fun t => inject_Z (year t - min_year)) ts))%result
  else if (window =? "M")%string then
    Some (do min_year <- min_or_raise (map year ts);
          Ok (map (fun t => inject_Z (12 * (year t - min_year) + month t - 1)) ts))%result
  else if (window =? "W")%string then
    Some (do tmin <- min_or_raise ts;
          Ok (elapsed_units (week_origin tmin) (7 * 24 * 60 * 60) ts))%result
  else if (window =? "D")%string then
    Some (do tmin <- min_or_raise ts;
          Ok (elapsed_units (replace_hms0 tmin) (24 * 60 * 60) ts))%result
  else if (window =? "H")%string then
    Some (do tmin <- min_or_raise ts;
          Ok (elapsed_units (replace_hms0 tmin) (60 * 60) ts))%result
  else if (window =? "m")%string then
    Some (do tmin <- min_or_raise ts;
          Ok (elapsed_units (replace_hms0 tmin) 60 ts))%result
  else if (window =? "s")%string then
    Some (do tmin <- min_or_raise ts;
          Ok (map (total_seconds (replace_s0 tmin)) ts))%result
  else None.

(** [apply_time_frequency(ts, window, window_size)]. *)
Definition apply_time_frequency (ts : list Timestamp) (window : string)
    (window_size : Z) : result (list (option Z)) :=
  match window_unit ts window with
  | None => Raise (UnboundLocalError "w")
  | Some r => (do w <- r; Ok (map (fun x => floordiv x window_size) w))%result
  end.

(** The [window] argument of [calculate_sazonality]: [type(window) is int]
    selects the first form, anything else is iterated as a list. *)
Inductive window_arg : Type :=
| Uniform (window : Z)
| Variable_ (window : list Z).

(** [np.cumsum(window)]. *)
Fixpoint cumsum_from (acc : Z) (l : list Z) : list Z :=
  match l with
  | [] => []
  | x :: l' => (acc + x) :: cumsum_from (acc + x) l'
  end.
Definition cumsum (l : list Z) : list Z := cumsum_from 0 l.

(** [enumerate]. *)
Fixpoint enumerate_from {A} (i : Z) (l : list A) : list (Z * A) :=
  match l with
  | [] => []
  | x :: l' => (i, x) :: enumerate_from (i + 1) l'
  end.
Definition enumerate {A} (l : list A) : list (Z * A) := enumerate_from 0 l.

(** One pass of the loop body
    [sazon_idx.loc[(sazon_n < w) & sazon_idx.isna()] = i_w]. *)
Definition assign_bucket (sazon_n : list (option Z)) (i_w w : Z)
    (sazon_idx : list (option Z)) : list (option Z) :=
  zip_with
    (fun n idx =>
       match idx with
       | Some _ => idx
       | None =>
           match n with
           | Some v => if v <? w then Some i_w else None
           | None => None
           end
       end)
    sazon_n sazon_idx.

(** [Series.astype(int)]: a non-finite entry is refused. *)
Definition astype_int (s : list (option Z)) : result (list Z) :=
  rmapM (fun x => match x with
                  | Some v => Ok v
                  | None => Raise (ValueError "Cannot convert non-finite values (NA or inf) to integer")
                  end) s.

(** [calculate_sazonality(ts, sazonality_type, window, frequency)]. *)
Definition calculate_sazonality (ts : list Timestamp) (sazonality_type : string)
    (window : window_arg) (frequency : Z) : result (list Z) :=
  (do unitary_sazonality <- apply_time_frequency ts sazonality_type 1;
   match window with
   | Uniform window =>
       let lhs := map (fun x => floordiv_z x window) unitary_sazonality in
       if window =? 0 then Raise ZeroDivisionError
       else
         let sazon_idx := map (fun x => mod_z x (frequency / window)) lhs in
         astype_int sazon_idx
   | Variable_ window =>
       let sazon_n := map (fun x => mod_z x frequency) unitary_sazonality in
       let sazon_idx := map (fun _ => None) sazon_n in
       let sazon_idx :=
         fold_left (fun idx '(i_w, w) => assign_bucket sazon_n i_w w idx)
                   (enumerate (cumsum window)) sazon_idx in
       astype_int sazon_idx
   end)%result.

(** The units [apply_time_frequency] has a branch for. *)
Definition supported_units : list string := ["Y"; "M"; "W"; "D"; "H"; "m"; "s"].

(** The timestamps of the docstring examples. *)
Definition example_ts : list Timestamp :=
  [ mk_timestamp 2022 1 1 0 0 0; mk_timestamp 2022 1 4 0 0 0;
    mk_timestamp 2022 1 10 0 0 0; mk_timestamp 2022 12 31 0 0 0 ].

End TimeDiscretization.

(** ** Tables

    A pandas [DataFrame] or geopandas [GeoDataFrame]: row labels and named
    columns, in column order.  Cells are dynamically typed. *)

Module Frames.

Inductive geometry : Type :=
| Point (x y : Q)
| Polygon (shell : list (Q * Q))
| MultiPolygon (polygons : list (list (Q * Q))).

Inductive value : Type :=
| NA
| VInt (z : Z)
| VNum (q : Q)
| VStr (s : string)
| VTime (t : Z)
| VGeom (g : geometry)
| VList (l : list Z).

Record DataFrame : Type := mkDataFrame {
  df_geo : bool;                 (* a GeoDataFrame rather than a DataFrame *)
  df_crs : option string;
  df_index : list Z;
  df_columns : list (string * list value)
}.

Definition nrows (df : DataFrame) : nat := length (df_index df).

(** [range(n)] and the default [RangeIndex]. *)
Definition range (n : nat) : list Z := seqZ 0 (Z.of_nat n).

Definition column_names (df : DataFrame) : list string := map fst (df_columns df).

Fixpoint lookup_col (c : string) (cols : list (string * list value))
    : option (list value) :=
  match cols with
  | [] => None
  | (c', v) :: cols' => if (c' =? c)%string then Some v else lookup_col c cols'
  end.

(** [df[c] = v] replaces the column where it stands or appends it. *)
Fixpoint assign_col (c : string) (v : list value) (cols : list (string * list value))
    : list (string * list value) :=
  match cols with
  | [] => [(c, v)]
  | (c', v') :: cols' =>
      if (c' =? c)%string then (c, v) :: cols' else (c', v') :: assign_col c v cols'
  end.

Definition remove_col (c : string) (cols : list (string * list value))
    : list (string * list value) :=
  List.filter (fun cv => negb (fst cv =? c)%string) cols.

Definition with_columns (df : DataFrame) (cols : list (string * list value)) : DataFrame :=
  mkDataFrame (df_geo df) (df_crs df) (df_index df) cols.

Definition column (df : DataFrame) (c : string) : option (list value) :=
  lookup_col c (df_columns df).

(** [df[c]]. *)
Definition get_column (df : DataFrame) (c : string) : result (list value) :=
  match column df c with
  | Some v => Ok v
  | None => Raise (KeyError c)
  end.

Definition set_column (df : DataFrame) (c : string) (v : list value) : DataFrame :=
  with_columns df (assign_col c v (df_columns df)).

(** [df.drop(c, axis=1)]. *)
Definition drop_column (df : DataFrame) (c : string) : result DataFrame :=
  match column df c with
  | Some _ => Ok (with_columns df (remove_col c (df_columns df)))
  | None => Raise (KeyError c)
  end.

(** [df.drop(c, axis=1, errors='ignore')]. *)
Definition drop_column_ignore (df : DataFrame) (c : string) : DataFrame :=
  with_columns df (remove_col c (df_columns df)).

(** [df[[c1, c2, ...]]]. *)
Definition select_columns (df : DataFrame) (cs : list string) : result DataFrame :=
  (do cols <- rmapM (fun c => do v <- get_column df c; Ok (c, v)) cs;
   Ok (with_columns df cols))%result.

(** [df.rename({old: new}, axis=1)]; an absent [old] is ignored. *)
Definition rename_column (df : DataFrame) (old new : string) : DataFrame :=
  with_columns df
    (map (fun cv => if (fst cv =? old)%string then (new, snd cv) else cv) (df_columns df)).

(** Rows selected by position, in the order given. *)
Definition take {A} (positions : list nat) (l : list A) : list A :=
  omap (fun i => l !! i) positions.

Definition take_rows (positions : list nat) (df : DataFrame) : DataFrame :=
  mkDataFrame (df_geo df) (df_crs df) (take positions (df_index df))
    (map (fun cv => (fst cv, take positions (snd cv))) (df_columns df)).

(** Rows kept by a boolean mask. *)
Fixpoint keep {A} (mask : list bool) (l : list A) : list A :=
  match mask, l with
  | b :: mask', x :: l' => if b then x :: keep mask' l' else keep mask' l'
  | _, _ => []
  end.

Definition keep_rows (mask : list bool) (df : DataFrame) : DataFrame :=
  mkDataFrame (df_geo df) (df_crs df) (keep mask (df_index df))
    (map (fun cv => (fst cv, keep mask (snd cv))) (df_columns df)).

(** [df.reset_index()]: the labels become the first column, named
    [index]; the rows are relabelled [0..n-1]. *)
Definition reset_index (df : DataFrame) : result DataFrame :=
  match column df "index" with
  | Some _ => Raise (ValueError "cannot insert index, already exists")
  | None =>
      Ok (mkDataFrame (df_geo df) (df_crs df) (range (nrows df))
            (("index", map VInt (df_index df)) :: df_columns df))
  end.

(** [gpd.GeoDataFrame(df)]. *)
Definition GeoDataFrame (df : DataFrame) : DataFrame :=
  mkDataFrame true (df_crs df) (df_index df) (df_columns df).

(** [df.set_crs(crs)]. *)
Definition set_crs (df : DataFrame) (crs : string) : result DataFrame :=
  match df_crs df with
  | None => Ok (mkDataFrame (df_geo df) (Some crs) (df_index df) (df_columns df))
  | Some c =>
      if (c =? crs)%string then Ok df
      else Raise (ValueError "The GeoSeries already has a CRS which is not equal to the passed CRS.")
  end.

(** [df.crs]: only geopandas frames have the attribute. *)
Definition get_crs (df : DataFrame) : result (option string) :=
  if df_geo df then Ok (df_crs df)
  else Raise (AttributeError "'DataFrame' object has no attribute 'crs'").

Definition is_na (v : value) : bool :=
  match v with NA => true | _ => false end.

(** [Series.dtype == 'O']: the column holds Python objects. *)
Definition is_object (v : value) : bool :=
  match v with VStr _ | VGeom _ | VList _ => true | _ => false end.
Definition dtype_is_object (col : list value) : bool := existsb is_object col.

Definition dquote : string := String (Ascii.ascii_of_nat 34) EmptyString.

End Frames.

(** ** [spated/data_agg.py] *)

Module DataAgg.
Import Frames.
Export TimeDiscretization.

(** The instance attributes bound by [DataAggregator.__init__]. *)
Record DataAggregator : Type := mkDataAggregator {
  crs : string;
  time_indexes : list string;
  geo_index : string;
  events_features : list string;
  geo_features : list string;
  max_borders : option DataFrame;
  events_data : option DataFrame;
  geo_discretization : option DataFrame
}.

(** The interpreter state a call can observe or change: the objects the
    caller owns and passes by reference, the console, and the session. *)
Record world : Type := mkWorld {
  objects : gmap positive DataFrame;
  stdout : list string;
  self : DataAggregator
}.

(** A Python computation: it ends with a value or a raised exception, and
    in both cases with the state reached so far. *)
Definition Py (A : Type) : Type := world -> result A * world.

Definition pret {A} (a : A) : Py A := fun w => (Ok a, w).
Definition raise {A} (e : exn) : Py A := fun w => (Raise e, w).
Definition pbind {A B} (m : Py A) (k : A -> Py B) : Py B :=
  fun w =>
    match m w with
    | (Ok a, w1) => k a w1
    | (Raise e, w1) => (Raise e, w1)
    end.
Definition lift {A} (r : result A) : Py A := fun w => (r, w).

Declare Scope py_scope.
Delimit Scope py_scope with py.
Notation "'do' x <- m ; k" := (pbind m (fun x => k))
  (at level 10, x name, m at level 100, k at level 200) : py_scope.
Notation "m ;; k" := (pbind m (fun _ => k))
  (at level 100, k at level 200, right associativity) : py_scope.

Definition get_self : Py DataAggregator := fun w => (Ok (self w), w).
Definition modify_self (f : DataAggregator -> DataAggregator) : Py unit :=
  fun w => (Ok tt, mkWorld (objects w) (stdout w) (f (self w))).
Definition print (msg : string) : Py unit :=
  fun w => (Ok tt, mkWorld (objects w) (stdout w ++ [msg]) (self w)).

(** Reading and updating in place an object passed by reference. *)
Definition deref (l : positive) : Py DataFrame :=
  fun w =>
    match objects w !! l with
    | Some df => (Ok df, w)
    | None => (Raise (TypeError "not a DataFrame"), w)
    end.
Definition store (l : positive) (df : DataFrame) : Py unit :=
  fun w => (Ok tt, mkWorld (<[l := df]> (objects w)) (stdout w) (self w)).

(** Attribute assignment [self.<name> = v]. *)
Definition set_max_borders (v : option DataFrame) : Py unit :=
  modify_self (fun s =>
    mkDataAggregator (crs s) (time_indexes s) (geo_index s) (events_features s)
      (geo_features s) v (events_data s) (geo_discretization s)).
Definition set_events_data (v : option DataFrame) : Py unit :=
  modify_self (fun s =>
    mkDataAggregator (crs s) (time_indexes s) (geo_index s) (events_features s)
      (geo_features s) (max_borders s) v (geo_discretization s)).
Definition set_geo_discretization (v : option DataFrame) : Py unit :=
  modify_self (fun s =>
    mkDataAggregator (crs s) (time_indexes s) (geo_index s) (events_features s)
      (geo_features s) (max_borders s) (events_data s) v).
Definition set_time_indexes (v : list string) : Py unit :=
  modify_self (fun s =>
    mkDataAggregator (crs s) v (geo_index s) (events_features s)
      (geo_features s) (max_borders s) (events_data s) (geo_discretization s)).
Definition set_events_features (v : list string) : Py unit :=
  modify_self (fun s =>
    mkDataAggregator (crs s) (time_indexes s) (geo_index s) v
      (geo_features s) (max_borders s) (events_data s) (geo_discretization s)).
Definition set_geo_features (v : list string) : Py unit :=
  modify_self (fun s =>
    mkDataAggregator (crs s) (time_indexes s) (geo_index s) (events_features s)
      v (max_borders s) (events_data s) (geo_discretization s)).

(** Attribute access or subscript on an attribute that may hold [None]. *)
Definition none_has_no_attribute (attr : string) : exn :=
  AttributeError ("'NoneType' object has no attribute '" +:+ attr +:+ "'").
Definition none_not_subscriptable : exn :=
  TypeError "'NoneType' object is not subscriptable".

Definition unwrap {A} (o : option A) (e : exn) : Py A :=
  match o with
  | Some a => pret a
  | None => raise e
  end.

(** [hasattr(self, name)]: the attributes of an instance are those that
    [__init__] binds; no method deletes one. *)
Definition instance_attributes : list string :=
  [ "crs"; "time_indexes"; "geo_index"; "events_features"; "geo_features";
    "max_borders"; "events_data"; "geo_discretization" ].
Definition hasattr (s : DataAggregator) (name : string) : bool :=
  bool_decide (name ∈ instance_attributes).

(** The argument [seasonality_type] of [add_time_discretization]. *)
Inductive seasonality_arg : Type :=
| SType (unit_ : string)
| SFrame (time_disc_df : DataFrame).

(** How a join pairs rows: for each output row, the position of the left
    row and the [id] found for it on the right ([NA] when none). *)
Definition matches : Type := list (nat * value).

(** *** Collaborators

    Functions of pandas, geopandas, shapely and of the modules of this
    package that [data_agg.py] imports ([squares], [h3_utils],
    [add_regressors], [time_discretization_utils]). *)
Class Collaborators : Type := {
  (* geometry engine *)
  reproject : string -> string -> geometry -> geometry;
  total_bounds : list value -> Q * Q * Q * Q;
  series_std : list (option Q) -> Q;
  convex_hull : geometry -> geometry;
  centroid : geometry -> Q * Q;
  disjoint : value -> value -> bool;
  within : value -> value -> bool;
  is_projected : string -> bool;
  points_from_xy : list value -> list value -> result (list value);
  (* joins *)
  sjoin_within : DataFrame -> DataFrame -> result matches;
  sjoin_nearest : DataFrame -> DataFrame -> result matches;
  overlay_intersection_dissolve : DataFrame -> DataFrame -> result DataFrame;
  merge_on_id : DataFrame -> DataFrame -> bool -> result (nat * list (string * list value));
  (* pandas *)
  to_datetime : list value -> option string -> result (list value);
  argsort : list value -> list nat;
  (* this package *)
  grid_cell : DataFrame -> Z -> Z -> Z -> geometry;
  grid_neighbors : Z -> Z -> Z -> list Z;
  generate_H3_discretization : DataFrame -> option Z -> result DataFrame;
  addRegressorUniformDistribution : DataFrame -> DataFrame -> string -> result DataFrame;
  calculate_seasonality : list value -> string -> window_arg -> Z -> result (list value);
  apply_custom_time_events : list value -> DataFrame -> Z -> result (list value)
}.

Section Aggregator.
Context `{Collaborators}.

Definition reproject_value (src dst : string) (v : value) : value :=
  match v with
  | VGeom g => VGeom (reproject src dst g)
  | _ => v
  end.

(** [df.to_crs(crs)]. *)
Definition to_crs (df : DataFrame) (target : string) : result DataFrame :=
  if negb (df_geo df) then
    Raise (AttributeError "'DataFrame' object has no attribute 'to_crs'")
  else
    match df_crs df with
    | None =>
        Raise (ValueError "Cannot transform naive geometries.  Please set a crs on the object first.")
    | Some src =>
        (do geoms <- get_column df "geometry";
         Ok (mkDataFrame true (Some target) (df_index df)
               (assign_col "geometry" (map (reproject_value src target) geoms)
                  (df_columns df))))%result
    end.

(** [pd.merge(left, right, on='id', how=...)]: the rows come from the
    collaborator, the result carries a fresh [RangeIndex]. *)
Definition pd_merge (left right : DataFrame) (how_right : bool) : result DataFrame :=
  (do nc <- merge_on_id left right how_right;
   Ok (mkDataFrame (df_geo left)
         (if how_right then df_crs right else df_crs left)
         (range (fst nc)) (snd nc)))%result.

(** [DataAggregator(crs)]. *)
Definition init (crs : string) : DataAggregator :=
  mkDataAggregator crs [] "gdiscr" [] [] None None None.

(** [geometry.x], [geometry.y] of one entry: [None] is [NaN]. *)
Definition geom_x (v : value) : result (option Q) :=
  match v with
  | VGeom (Point x _) => Ok (Some x)
  | NA => Ok None
  | _ => Raise (ValueError "x attribute access only provided for Point geometries")
  end.
Definition geom_y (v : value) : result (option Q) :=
  match v with
  | VGeom (Point _ y) => Ok (Some y)
  | NA => Ok None
  | _ => Raise (ValueError "y attribute access only provided for Point geometries")
  end.

(** The frame [gpd.GeoDataFrame()] with one [geometry] entry, in [crs]. *)
Definition single_geometry_frame (g : geometry) (crs : string) : DataFrame :=
  mkDataFrame true (Some crs) [0] [("geometry", [VGeom g])].

(** The small rectangle the [convex] method draws around an event. *)
Definition event_box (x_std y_std : Q) (v : value) : value :=
  match v with
  | VGeom (Point x y) =>
      VGeom (Polygon [ ((x - x_std)%Q, (y - y_std)%Q); ((x - x_std)%Q, (y + y_std)%Q);
                       ((x + x_std)%Q, (y + y_std)%Q); ((x + x_std)%Q, (y - y_std)%Q) ])
  | _ => v
  end.

(** [MultiPolygon(list(d_polys.values))]. *)
Definition multipolygon (vs : list value) : result geometry :=
  (do shells <- rmapM (fun v => match v with
                                | VGeom (Polygon shell) => Ok shell
                                | _ => Raise (TypeError "not a polygon")
                                end) vs;
   Ok (MultiPolygon shells))%result.

Definition msg_inform_events : string :=
  "Please inform events data using `add_events_data` method.".

(** [DataAggregator.add_max_borders(data, method)]. *)
Definition add_max_borders (data : option DataFrame) (method : option string) : Py unit :=
  (do s <- get_self;
   match data with
   | Some data =>
       do data_crs <- lift (get_crs data);
       match data_crs with
       | None =>
           print ("Limit borders data is not set with CRS information. Will assume "
                    +:+ dquote +:+ crs s +:+ dquote +:+ ".") ;;
           set_max_borders (Some data)
       | Some c =>
           if negb (c =? crs s)%string then
             do d <- lift (to_crs data (crs s));
             set_max_borders (Some d)
           else set_max_borders (Some data)
       end
   | None =>
       if bool_decide (method = Some "rectangle") then
         if negb (hasattr s "events_data") then
           raise (AttributeError msg_inform_events)
         else
           do ev <- unwrap (events_data s) (none_has_no_attribute "geometry");
           do geoms <- lift (get_column ev "geometry");
           let '(minx, miny, maxx, maxy) := total_bounds geoms in
           let pol_max_borders :=
             Polygon [ (minx, miny); (minx, maxy); (maxx, maxy); (maxx, miny) ] in
           set_max_borders (Some (single_geometry_frame pol_max_borders (crs s)))
       else if bool_decide (method = Some "convex") then
         if negb (hasattr s "events_data") then
           raise (AttributeError msg_inform_events)
         else
           do ev <- unwrap (events_data s) (none_has_no_attribute "geometry");
           do geoms <- lift (get_column ev "geometry");
           do xs <- lift (rmapM geom_x geoms);
           let x_std := (series_std xs * (1 # 10))%Q in
           do ys <- lift (rmapM geom_y geoms);
           let y_std := (series_std ys * (1 # 10))%Q in
           let na_labels :=
             keep (map (fun x => bool_decide (x = None)) xs) (df_index ev) in
           let kept :=
             keep (map (fun l => negb (bool_decide (l ∈ na_labels))) (df_index ev)) geoms in
           let d_polys := map (event_box x_std y_std) kept in
           do mp <- lift (multipolygon d_polys);
           set_max_borders (Some (single_geometry_frame (convex_hull mp) (crs s)))
       else
         raise (ValueError "Please inform `data` or `method` parameter.")
   end)%py.

(** [DataAggregator.add_events_data(events_data, datetime_col, lat_col,
    lon_col, feature_cols, datetime_format)]; [events_data] is the
    caller's object, passed by reference. *)
Definition add_events_data (events_data_arg : positive) (datetime_col : option string)
    (lat_col lon_col : string) (feature_cols : list string)
    (datetime_format : option string) : Py unit :=
  (do s <- get_self;
   do df <- deref events_data_arg;
   (if negb (df_geo df) then
      do lon <- lift (get_column df lon_col);
      do lat <- lift (get_column df lat_col);
      do pts <- lift (points_from_xy lon lat);
      let df' := set_column df "geometry" pts in
      store events_data_arg df' ;;
      do g <- lift (set_crs (GeoDataFrame df') "epsg:4326");
      do g <- lift (to_crs g (crs s));
      set_events_data (Some g)
    else
      match df_crs df with
      | None => do g <- lift (set_crs df (crs s)); set_events_data (Some g)
      | Some _ => do g <- lift (to_crs df (crs s)); set_events_data (Some g)
      end) ;;
   match datetime_col with
   | Some datetime_col =>
       do s1 <- get_self;
       do ev <- unwrap (events_data s1) none_not_subscriptable;
       do ts <- lift (get_column ev datetime_col);
       (if dtype_is_object ts then
          do parsed <- lift (to_datetime ts datetime_format);
          set_events_data (Some (set_column ev "ts" parsed))
        else set_events_data (Some (set_column ev "ts" ts))) ;;
       do s2 <- get_self;
       do ev <- unwrap (events_data s2) (none_has_no_attribute "sort_values");
       do ts <- lift (get_column ev "ts");
       set_events_data (Some (take_rows (argsort ts) ev))
   | None => pret tt
   end ;;
   do s3 <- get_self;
   set_events_features (events_features s3 ++ feature_cols) ;;
   let special_cols :=
     match datetime_col with Some _ => ["geometry"; "ts"] | None => ["geometry"] end in
   do ev <- unwrap (events_data s3) none_not_subscriptable;
   do sel <- lift (select_columns ev (feature_cols ++ special_cols));
   set_events_data (Some sel))%py.

(** [f'tdiscr_{i_col}']. *)
Definition t_col_name (i : Z) : string := "tdiscr_" +:+ pretty i.

(** The loop that picks the name of the new column: the first of
    [tdiscr_1], [tdiscr_2], ... that is not a column yet.  [fuel] bounds
    the number of names tried; [next_t_col_fresh] below shows that the
    number of columns is enough for the loop to leave through [break]. *)
Fixpoint next_t_col (fuel : nat) (i_col : Z) (columns : list string) : string :=
  let t_col := t_col_name i_col in
  match fuel with
  | O => t_col
  | S fuel' =>
      if bool_decide (t_col ∈ columns) then next_t_col fuel' (i_col + 1) columns
      else t_col
  end.

(** [DataAggregator.add_time_discretization(seasonality_type, window,
    frequency)]. *)
Definition add_time_discretization (seasonality_type : seasonality_arg)
    (window : window_arg) (frequency : Z) : Py unit :=
  (do s <- get_self;
   do ev <- unwrap (events_data s) (AttributeError msg_inform_events);
   let t_col := next_t_col (length (column_names ev)) 1 (column_names ev) in
   match seasonality_type with
   | SFrame time_disc_df =>
       set_time_indexes (time_indexes s ++ [t_col]) ;;
       do ts <- lift (get_column ev "ts");
       do col <- lift (apply_custom_time_events ts time_disc_df 0);
       set_events_data (Some (set_column ev t_col col))
   | SType seasonality_type =>
       match window with
       | Uniform window =>
           if window =? 0 then raise ZeroDivisionError
           else if negb (frequency mod window =? 0) then
             raise (ValueError "Parameter `frequency` must be a multiple of `window`.")
           else pret tt
       | Variable_ _ => pret tt
       end ;;
       match window with
       | Variable_ window =>
           if negb (sum window =? frequency) && negb (frequency =? 0) then
             raise (ValueError "Parameter `frequency` must be equal sum of `window`.")
           else pret tt
       | Uniform _ => pret tt
       end ;;
       set_time_indexes (time_indexes s ++ [t_col]) ;;
       do ts <- lift (get_column ev "ts");
       do col <- lift (calculate_seasonality ts seasonality_type window frequency);
       set_events_data (Some (set_column ev t_col col))
   end)%py.

(** Modelled from the spec: [squares.rectangle_discretization] is not
    among the sources.  Spec 4.2: a regular [nx] by [ny] grid of
    rectangular cells over the bounding box of the border, ids assigned
    row-major, adjacency by the grid connectivity of the generator (the
    cell shapes and the connectivity are left to [grid_cell] and
    [grid_neighbors]). *)
Definition rectangle_discretization (gdf : DataFrame) (nx ny : option Z)
    : result DataFrame :=
  match nx, ny with
  | Some nx, Some ny =>
      let ids := range (Z.to_nat (nx * ny)) in
      Ok (mkDataFrame true (df_crs gdf) ids
            [ ("id", map VInt ids);
              ("geometry", map (fun i => VGeom (grid_cell gdf nx ny i)) ids);
              ("neighbors", map (fun i => VList (grid_neighbors nx ny i)) ids) ])
  | _, _ => Raise (TypeError "unsupported operand type(s): 'NoneType'")
  end.

(** [frame.set_index(keys)[values].to_dict()] for integer keys: a later
    row overrides an earlier one with the same key. *)
Definition to_dict (keys : list value) (vals : list Z) : gmap Z Z :=
  fold_left
    (fun d kv => match fst kv with
                 | VInt k => <[k := snd kv]> d
                 | _ => d
                 end)
    (zip keys vals) ∅.

(** Truth value of [d.get(n)]: [None] and [0] are false. *)
Definition truthy (o : option Z) : bool :=
  match o with
  | Some v => negb (v =? 0)
  | None => false
  end.

(** The inner loop of the hexagonal branch:
    [for n in n_list: if corr_index_dict.get(n): new_list.append(corr_index_dict[n])]. *)
Definition remap_neighbors (corr_index_dict : gmap Z Z) (n_list : list Z) : list Z :=
  flat_map
    (fun n =>
       if truthy (corr_index_dict !! n) then
         match corr_index_dict !! n with
         | Some i => [i]
         | None => []
         end
       else [])
    n_list.

(** Iterating over one entry of the [neighbors] column. *)
Definition as_list (v : value) : result (list Z) :=
  match v with
  | VList l => Ok l
  | _ => Raise (TypeError "object is not iterable")
  end.

Definition remap_all (corr_index_dict : gmap Z Z) (neighbors_list : list value)
    : result (list value) :=
  rmapM (fun v => do n_list <- as_list v;
                  Ok (VList (remap_neighbors corr_index_dict n_list)))%result
        neighbors_list.

(** Lines 331-343: the table after clipping gets its row positions as new
    ids and its neighbor lists rewritten. *)
Definition hex_reindex (gd : DataFrame) : Py unit :=
  (do indexed <- lift (reset_index gd);
   do ids <- lift (get_column indexed "id");
   let corr_index_dict := to_dict ids (df_index gd) in
   do neighbors_list <- lift (get_column gd "neighbors");
   do new_lists <- lift (remap_all corr_index_dict neighbors_list);
   let gd1 := set_column gd "neighbors" new_lists in
   set_geo_discretization (Some gd1) ;;
   do gd2 <- lift (drop_column gd1 "id");
   set_geo_discretization (Some gd2) ;;
   do gd3 <- lift (reset_index gd2);
   set_geo_discretization (Some gd3) ;;
   set_geo_discretization (Some (rename_column gd3 "index" "id")))%py.

(** The integers of a column. *)
Definition int_values (col : list value) : list Z :=
  omap (fun v => match v with VInt z => Some z | _ => None end) col.

(** The neighbors of the custom polygons: for each row, the ids of the
    rows whose geometry is not disjoint from its own, itself excluded. *)
Definition custom_neighbors (geoms ids : list value) : list value :=
  zip_with
    (fun g id =>
       let row_neighbors :=
         int_values (keep (map (fun g' => negb (disjoint g' g)) geoms) ids) in
       VList (List.filter
                (fun n => match id with VInt i => negb (n =? i) | _ => true end)
                row_neighbors))
    geoms ids.

(** The frame a left join returns: the left rows the join pairs, in its
    order and under their labels, with the [id] found on the right
    (the column [index_right] is dropped at once by both callers). *)
Definition joined_frame (left : DataFrame) (m : matches) : DataFrame :=
  set_column (take_rows (map fst m) left) "id" (map snd m).

(** [Series.dropna().unique()] on node ids, in order of first appearance. *)
Fixpoint unique_from (seen : list Z) (l : list Z) : list Z :=
  match l with
  | [] => []
  | x :: l' =>
      if bool_decide (x ∈ seen) then unique_from seen l'
      else x :: unique_from (x :: seen) l'
  end.
Definition unique (l : list Z) : list Z := unique_from [] l.

(** [{v: k for k, v in dict(enumerate(nodes)).items()}]. *)
Definition invert_enumerate (nodes : list Z) : gmap Z Z :=
  fold_left (fun d kv => <[snd kv := fst kv]> d) (enumerate nodes) ∅.

(** [Series.map(node_idx_dict)] on one entry. *)
Definition map_dict (d : gmap Z Z) (v : value) : value :=
  match v with
  | VInt n => match d !! n with Some k => VInt k | None => NA end
  | _ => NA
  end.

(** [drop_duplicates(subset=["index"], keep="first")]: the mask of the
    rows whose label was not met before. *)
Fixpoint first_occurrence (seen : list Z) (labels : list Z) : list bool :=
  match labels with
  | [] => []
  | l :: labels' =>
      negb (bool_decide (l ∈ seen)) :: first_occurrence (l :: seen) labels'
  end.

(** [events.loc[~events["geometry"].within(border), "gdiscr"] = pd.NA]. *)
Definition null_outside (border : value) (geoms gdiscr : list value) : list value :=
  zip_with (fun g d => if negb (within g border) then NA else d) geoms gdiscr.

Definition centroid_x (v : value) : value :=
  match v with VGeom g => VNum (fst (centroid g)) | _ => NA end.
Definition centroid_y (v : value) : value :=
  match v with VGeom g => VNum (snd (centroid g)) | _ => NA end.

(** The block shared by the [C] and [G] branches, which differ in the
    message only: the table is the geometry of [custom_data] with ids
    [range(len(custom_data))], brought to the session's frame. *)
Definition load_custom_data (custom_data : option DataFrame) (msg : string) : Py unit :=
  (match custom_data with
   | None => raise (ValueError msg)
   | Some custom_data =>
       do s <- get_self;
       do gd <- lift (select_columns custom_data ["geometry"]);
       set_geo_discretization (Some gd) ;;
       let gd := set_column gd "id" (map VInt (range (nrows custom_data))) in
       set_geo_discretization (Some gd) ;;
       do gd_crs <- lift (get_crs gd);
       match gd_crs with
       | None =>
           print ("Custom data is not set with CRS information. Will assume "
                    +:+ dquote +:+ crs s +:+ dquote +:+ ".") ;;
           do g <- lift (set_crs gd (crs s));
           set_geo_discretization (Some g)
       | Some c =>
           if negb (c =? crs s)%string then
             do g <- lift (to_crs gd (crs s));
             set_geo_discretization (Some g)
           else pret tt
       end
   end)%py.

(** The nearest-node join of the [G] branch, with its reprojections and
    the renaming of the joined [id] into [node_id]. *)
Definition nearest_join (session_crs : string) (ev gd : DataFrame) : result DataFrame :=
  (do ev_proj <- to_crs ev "epsg:29193";
   do gd_proj <- to_crs gd "epsg:29193";
   do nodes <- select_columns gd_proj ["id"; "geometry"];
   do m <- sjoin_nearest ev_proj nodes;
   do joined <- to_crs (joined_frame ev_proj m) session_crs;
   Ok (rename_column joined "id" "node_id"))%result.

(** The [G] branch from the nearest-node join on (lines 389-417). *)
Definition assign_nearest_node : Py unit :=
  (do s <- get_self;
   do ev <- unwrap (events_data s) (none_has_no_attribute "to_crs");
   do gd <- unwrap (geo_discretization s) (none_has_no_attribute "to_crs");
   do ev1 <- lift (nearest_join (crs s) ev gd);
   set_events_data (Some ev1) ;;
   do node_id <- lift (get_column ev1 "node_id");
   let node_idx_dict := invert_enumerate (unique (int_values node_id)) in
   let ev2 := set_column ev1 "gdiscr" (map (map_dict node_idx_dict) node_id) in
   set_events_data (Some ev2) ;;
   do ev3 <- lift (drop_column ev2 "node_id");
   set_events_data (Some ev3) ;;
   do _ <- lift (reset_index ev3);
   let ev4 := keep_rows (first_occurrence [] (df_index ev3)) ev3 in
   set_events_data (Some ev4) ;;
   do geoms <- lift (get_column ev4 "geometry");
   do borders <- unwrap (max_borders s) none_not_subscriptable;
   do border_geoms <- lift (get_column borders "geometry");
   do border <- unwrap (head border_geoms) (IndexError "index 0 is out of bounds");
   if existsb is_na geoms then
     raise (IndexingError "Unalignable boolean Series provided as indexer")
   else
     do gdiscr <- lift (get_column ev4 "gdiscr");
     set_events_data (Some (set_column ev4 "gdiscr" (null_outside border geoms gdiscr))))%py.

(** The end of [add_geo_discretization], common to [R], [H] and [C]:
    centroids, then the containment join of the events. *)
Definition centroids_and_join : Py unit :=
  (do s <- get_self;
   do gd <- unwrap (geo_discretization s) (none_has_no_attribute "to_crs");
   do proj <- lift (to_crs gd "epsg:4088");
   do geoms <- lift (get_column proj "geometry");
   let gd := set_column gd "center_lat" (map centroid_x geoms) in
   set_geo_discretization (Some gd) ;;
   let gd := set_column gd "center_lon" (map centroid_y geoms) in
   set_geo_discretization (Some gd) ;;
   do ev <- unwrap (events_data s) (none_has_no_attribute "drop");
   do cells <- lift (select_columns gd ["geometry"; "id"]);
   do m <- lift (sjoin_within (drop_column_ignore ev "gdiscr") cells);
   set_events_data
     (Some (rename_column (joined_frame (drop_column_ignore ev "gdiscr") m) "id" "gdiscr")))%py.

(** [DataAggregator.add_geo_discretization(discr_type, hex_discr_param,
    rect_discr_param_x, rect_discr_param_y, custom_data)]. *)
Definition add_geo_discretization (discr_type : string) (hex_discr_param : option Z)
    (rect_discr_param_x rect_discr_param_y : option Z)
    (custom_data : option DataFrame) : Py unit :=
  (do s <- get_self;
   do borders <-
     unwrap (max_borders s)
       (ValueError "Please inform geographical limits using `add_max_borders` method.");
   if (discr_type =? "R")%string then
     do gd <- lift (rectangle_discretization borders rect_discr_param_x rect_discr_param_y);
     set_geo_discretization (Some gd) ;;
     centroids_and_join
   else if (discr_type =? "H")%string then
     (* [full_area]: a hulled copy of the borders, not used afterwards *)
     do border_geoms <- lift (get_column borders "geometry");
     do gd <- lift (generate_H3_discretization borders hex_discr_param);
     set_geo_discretization (Some gd) ;;
     do cells <- lift (select_columns gd ["id"; "geometry"]);
     do area <- lift (select_columns borders ["geometry"]);
     do limited_discretization <- lift (overlay_intersection_dissolve cells area);
     do left <- lift (drop_column gd "geometry");
     do merged <- lift (pd_merge left limited_discretization true);
     set_geo_discretization (Some merged) ;;
     set_geo_discretization (Some (GeoDataFrame merged)) ;;
     hex_reindex (GeoDataFrame merged) ;;
     centroids_and_join
   else if (discr_type =? "C")%string then
     load_custom_data custom_data
       "Please inform `custom_data` to be used as geographical discretization." ;;
     do s1 <- get_self;
     do gd <- unwrap (geo_discretization s1) (none_has_no_attribute "iterrows");
     do geoms <- lift (get_column gd "geometry");
     do ids <- lift (get_column gd "id");
     set_geo_discretization (Some (set_column gd "neighbors" (custom_neighbors geoms ids))) ;;
     centroids_and_join
   else if (discr_type =? "G")%string then
     load_custom_data custom_data
       "Please inform `custom_data` to be used as grpah discretization." ;;
     assign_nearest_node
   else
     raise (ValueError ("Invalid `discr_type` value " +:+ discr_type +:+ ".")))%py.

(** *** Properties of tables, for the statements below *)

(** The ids of a table are [0..N-1], [N] its number of rows. *)
Definition contiguous_ids (gd : DataFrame) : Prop :=
  column gd "id" = Some (map VInt (range (nrows gd))).

(** Row by row: an event whose point is not within the border has no
    cell id. *)
Definition outside_is_null (border : value) (geoms gdiscr : list value) : Prop :=
  forall i g d,
    geoms !! i = Some g -> gdiscr !! i = Some d -> within g border = false -> d = NA.

(** Every cell id given to an event is found in the column itself, and is
    the rank, in order of first appearance, of a node that the nearest-node
    join paired with an event. *)
Definition no_orphan_ids (node_ids gdiscr : list value) : Prop :=
  forall i k,
    gdiscr !! i = Some (VInt k) ->
    VInt k ∈ gdiscr
    /\ 0 <= k
    /\ exists n, VInt n ∈ node_ids
                 /\ unique (int_values node_ids) !! Z.to_nat k = Some n.

(** A computation keeps an observation [f] of the state when the state
    it ends in, returning or raising, shows the same [f]. *)
Definition keeps {A X} (f : world -> X) (m : Py A) : Prop :=
  forall w, f (snd (m w)) = f w.

(** [DataAggregator.add_geo_variable(data)]. *)
Definition add_geo_variable (data : DataFrame) : Py unit :=
  (do s <- get_self;
   do data_crs <- lift (get_crs data);
   do regr_data <-
     match data_crs with
     | None =>
         print ("Regressor data is not set with CRS information. Will assume "
                  +:+ dquote +:+ crs s +:+ dquote +:+ ".") ;;
         lift (set_crs data (crs s))
     | Some _ => lift (to_crs data (crs s))
     end;
   do features <- lift (drop_column data "geometry");
   set_geo_features (geo_features s ++ column_names features) ;;
   do gd <- unwrap (geo_discretization s) none_not_subscriptable;
   do geo_disc <- lift (select_columns gd ["id"; "geometry"]);
   do gd_crs <- unwrap (df_crs gd) (none_has_no_attribute "is_projected");
   do frames <-
     (if negb (is_projected gd_crs) then
        do a <- lift (to_crs geo_disc "epsg:4088");
        do b <- lift (to_crs regr_data "epsg:4088");
        pret (a, b)
      else pret (geo_disc, regr_data));
   do regr_intersection <-
     lift (addRegressorUniformDistribution (fst frames) (snd frames) "id");
   do covariates <- lift (drop_column regr_intersection "geometry");
   do merged <- lift (pd_merge gd covariates false);
   set_geo_discretization (Some merged))%py.

End Aggregator.
(** *** A small instance of the collaborators

    Geometry on bounding boxes, joins by linear search; enough to run the
    methods on concrete tables. *)

Module Sample.

Definition qmin (a b : Q) : Q := if Qle_bool a b then a else b.
Definition qmax (a b : Q) : Q := if Qle_bool a b then b else a.

Definition points_of (g : geometry) : list (Q * Q) :=
  match g with
  | Point x y => [(x, y)]
  | Polygon shell => shell
  | MultiPolygon polygons => concat polygons
  end.

Definition bbox (pts : list (Q * Q)) : option (Q * Q * Q * Q) :=
  match pts with
  | [] => None
  | (x, y) :: rest =>
      Some (fold_left
              (fun '(minx, miny, maxx, maxy) '(x, y) =>
                 (qmin minx x, qmin miny y, qmax maxx x, qmax maxy y))
              rest (x, y, x, y))
  end.

Definition value_points (v : value) : list (Q * Q) :=
  match v with VGeom g => points_of g | _ => [] end.

Definition sample_total_bounds (geoms : list value) : Q * Q * Q * Q :=
  default (0, 0, 0, 0)%Q (bbox (flat_map value_points geoms)).

Definition sample_within (a b : value) : bool :=
  match bbox (value_points a), bbox (value_points b) with
  | Some (ax0, ay0, ax1, ay1), Some (bx0, by0, bx1, by1) =>
      Qle_bool bx0 ax0 && Qle_bool by0 ay0 && Qle_bool ax1 bx1 && Qle_bool ay1 by1
  | _, _ => false
  end.

Definition sample_disjoint (a b : value) : bool :=
  match bbox (value_points a), bbox (value_points b) with
  | Some (ax0, ay0, ax1, ay1), Some (bx0, by0, bx1, by1) =>
      negb (Qle_bool ax0 bx1 && Qle_bool bx0 ax1 && Qle_bool ay0 by1 && Qle_bool by0 ay1)
  | _, _ => true
  end.

Definition sample_centroid (g : geometry) : Q * Q :=
  match bbox (points_of g) with
  | Some (x0, y0, x1, y1) => (((x0 + x1) / 2)%Q, ((y0 + y1) / 2)%Q)
  | None => (0, 0)%Q
  end.

Definition number (v : value) : option Q :=
  match v with
  | VInt z => Some (inject_Z z)
  | VNum q => Some q
  | _ => None
  end.

Definition sample_points_from_xy (xs ys : list value) : result (list value) :=
  rmapM (fun xy => match number (fst xy), number (snd xy) with
                   | Some x, Some y => Ok (VGeom (Point x y))
                   | _, _ => Raise (TypeError "coordinates must be numeric")
                   end)
        (zip xs ys).

(** The first right row that satisfies [test], as the [id] of the match. *)
Definition first_match (test : value -> bool) (right : DataFrame) : value :=
  match column right "geometry", column right "id" with
  | Some geoms, Some ids =>
      default NA (snd <$> List.find (fun gi => test (fst gi)) (zip geoms ids))
  | _, _ => NA
  end.

Definition sample_sjoin_within (left right : DataFrame) : result matches :=
  (do geoms <- get_column left "geometry";
   Ok (imap (fun i g => (i, first_match (fun cell => sample_within g cell) right)) geoms))%result.

Definition sq_distance (a b : value) : option Q :=
  match a, b with
  | VGeom (Point x y), VGeom (Point x' y') =>
      Some ((x - x') * (x - x') + (y - y') * (y - y'))%Q
  | _, _ => None
  end.

(** Each left row once, with the nearest right row. *)
Definition nearest (g : value) (right : DataFrame) : value :=
  match column right "geometry", column right "id" with
  | Some geoms, Some ids =>
      snd (fold_left
             (fun best gi =>
                match sq_distance g (fst gi), fst best with
                | Some d, Some d0 => if Qle_bool d0 d then best else (Some d, snd gi)
                | Some d, None => (Some d, snd gi)
                | None, _ => best
                end)
             (zip geoms ids) (None, NA))
  | _, _ => NA
  end.

Definition sample_sjoin_nearest (left right : DataFrame) : result matches :=
  (do geoms <- get_column left "geometry";
   Ok (imap (fun i g => (i, nearest g right)) geoms))%result.

(** Cells that meet the area are kept whole. *)
Definition sample_overlay (cells area : DataFrame) : result DataFrame :=
  (do geoms <- get_column cells "geometry";
   do area_geoms <- get_column area "geometry";
   let mask :=
     map (fun g => existsb (fun a => negb (sample_disjoint g a)) area_geoms) geoms in
   do kept <- reset_index (keep_rows mask cells);
   drop_column kept "index")%result.

Definition position_of (id : value) (ids : list value) : option nat :=
  match id with
  | VInt z =>
      fst <$> List.find (fun iv => match snd iv with VInt z' => z =? z' | _ => false end)
                        (imap (fun i v => (i, v)) ids)
  | _ => None
  end.

Definition take_or_na (positions : list (option nat)) (col : list value) : list value :=
  map (fun p => default NA (p ≫= fun i => col !! i)) positions.

(** One row per row of the side that is kept, with the columns of the
    other side looked up by [id]. *)
Definition sample_merge (left right : DataFrame) (how_right : bool)
    : result (nat * list (string * list value)) :=
  (do lids <- get_column left "id";
   do rids <- get_column right "id";
   if how_right then
     let positions := map (fun id => position_of id lids) rids in
     Ok (length rids,
         map (fun cv => (fst cv, if (fst cv =? "id")%string then rids
                                 else take_or_na positions (snd cv)))
             (df_columns left)
         ++ remove_col "id" (df_columns right))
   else
     let positions := map (fun id => position_of id rids) lids in
     Ok (length lids,
         df_columns left
         ++ map (fun cv => (fst cv, take_or_na positions (snd cv)))
                (remove_col "id" (df_columns right))))%result.

(** Insertion sort of the positions by timestamp, stable. *)
Definition time_key (v : value) : Z :=
  match v with VTime t => t | VInt z => z | _ => 0 end.
Fixpoint insert_sorted (x : nat * Z) (l : list (nat * Z)) : list (nat * Z) :=
  match l with
  | [] => [x]
  | y :: l' => if snd x <? snd y then x :: l else y :: insert_sorted x l'
  end.
Definition sample_argsort (ts : list value) : list nat :=
  map fst (fold_left (fun acc x => insert_sorted x acc)
                     (imap (fun i v => (i, time_key v)) ts) []).

Definition unit_square (x y : Z) : geometry :=
  Polygon [ (inject_Z x, inject_Z y); (inject_Z x, inject_Z (y + 1));
            (inject_Z (x + 1), inject_Z (y + 1)); (inject_Z (x + 1), inject_Z y) ].

Definition sample_grid_cell (_ : DataFrame) (nx ny i : Z) : geometry :=
  unit_square (i mod nx) (i / nx).

Definition sample_grid_neighbors (nx ny i : Z) : list Z :=
  List.filter (fun j => (0 <=? j) && (j <? nx * ny) && negb (j =? i))
    [i - nx; i - 1; i + 1; i + nx].

(** A row of [n] cells with raw ids [10, 20, ...], each next to the
    previous and the following one. *)
Definition sample_h3 (borders : DataFrame) (resolution : option Z) : result DataFrame :=
  match resolution with
  | Some n =>
      let cells := range (Z.to_nat n) in
      Ok (mkDataFrame true (df_crs borders) cells
            [ ("id", map (fun i => VInt (10 * (i + 1))) cells);
              ("geometry", map (fun i => VGeom (unit_square i 0)) cells);
              ("neighbors", map (fun i => VList [10 * i; 10 * (i + 2)]) cells) ])
  | None => Raise (TypeError "resolution must be an integer")
  end.

Definition sample_regressor (geo_disc regr_data : DataFrame) (discr_id_col : string)
    : result DataFrame :=
  Ok geo_disc.

(** The seasonality index of this package, on a column of timestamps. *)
Definition sample_calculate_seasonality (ts : list value) (seasonality_type : string)
    (window : window_arg) (frequency : Z) : result (list value) :=
  (do stamps <- rmapM (fun v => match v with
                                | VTime t => Ok t
                                | _ => Raise (TypeError "not a timestamp")
                                end) ts;
   do idx <- calculate_sazonality stamps seasonality_type window frequency;
   Ok (map VInt idx))%result.

#[export] Instance sample : Collaborators := {|
  reproject := fun _ _ g => g;
  total_bounds := sample_total_bounds;
  series_std := fun _ => 1%Q;
  convex_hull := fun g => g;
  centroid := sample_centroid;
  disjoint := sample_disjoint;
  within := sample_within;
  is_projected := fun _ => false;
  points_from_xy := sample_points_from_xy;
  sjoin_within := sample_sjoin_within;
  sjoin_nearest := sample_sjoin_nearest;
  overlay_intersection_dissolve := sample_overlay;
  merge_on_id := sample_merge;
  to_datetime := fun ts _ => Ok ts;
  argsort := sample_argsort;
  grid_cell := sample_grid_cell;
  grid_neighbors := sample_grid_neighbors;
  generate_H3_discretization := sample_h3;
  addRegressorUniformDistribution := sample_regressor;
  calculate_seasonality := sample_calculate_seasonality;
  apply_custom_time_events := fun ts _ nan_idx => Ok (map (fun _ => VInt nan_idx) ts)
|}.

(** Concrete tables. *)
Definition square_border : DataFrame :=
  mkDataFrame true (Some "epsg:4326") [0]
    [ ("geometry", [VGeom (Polygon [ (0, 0); (0, 2); (2, 2); (2, 0) ]%Q)]) ].

Definition caller_events : DataFrame :=
  mkDataFrame false None [0; 1; 2]
    [ ("lat", [VNum (1 # 2); VNum (3 # 2); VNum 5]);
      ("lon", [VNum (1 # 2); VNum (3 # 2); VNum 5]);
      ("when", [VTime (mk_timestamp 2022 1 1 0 0 0); VTime (mk_timestamp 2022 1 4 0 0 0);
                VTime (mk_timestamp 2022 1 10 0 0 0)]) ].

Definition two_polygons : DataFrame :=
  mkDataFrame true (Some "epsg:4326") [7; 9]
    [ ("geometry", [VGeom (unit_square 0 0); VGeom (unit_square 1 0)]) ].

Definition two_nodes : DataFrame :=
  mkDataFrame true (Some "epsg:4326") [0; 1]
    [ ("geometry", [VGeom (Point 0 0); VGeom (Point 2 2)]) ].

(** A table as the clipping leaves it: the raw cells 10 and 11 survive,
    each the neighbor of the other. *)
Definition clipped_cells : DataFrame :=
  mkDataFrame true (Some "epsg:4326") [0; 1]
    [ ("id", [VInt 10; VInt 11]);
      ("neighbors", [VList [11]; VList [10]]);
      ("geometry", [VGeom (unit_square 0 0); VGeom (unit_square 1 0)]) ].

Definition fresh_world : world :=
  mkWorld {[ 1%positive := caller_events ]} [] (init "epsg:4326").

(** Running a computation for its final state. *)
Definition exec {A} (m : Py A) (w : world) : world := snd (m w).

Definition with_borders : world :=
  exec (add_max_borders (Some square_border) None) fresh_world.
Definition with_events : world :=
  exec (add_events_data 1%positive (Some "when") "lat" "lon" [] None) with_borders.

(** Events given without a datetime column: the table has no [ts]. *)
Definition with_events_no_ts : world :=
  exec (add_events_data 1%positive None "lat" "lon" [] None) with_borders.

(** A covariate layer. *)
Definition population : DataFrame :=
  mkDataFrame true (Some "epsg:4326") [0]
    [ ("inhabitants", [VInt 1200]); ("geometry", [VGeom (unit_square 0 0)]) ].

End Sample.

End DataAgg.

(** * Properties of [time_discretization_utils.py] *)

Module TimeDiscretizationFacts.
Import TimeDiscretization.

(** The docstring example of [calculate_sazonality], and the calendar on
    the dates it uses. *)
Example calculate_sazonality_docstring :
  calculate_sazonality example_ts "D" (Uniform 1) 7 = Ok [0; 3; 2; 0].
Proof. vm_compute. reflexivity. Qed.

Example calendar_docstring_dates :
  map (fun t => (civil_from_days (day_number t), weekday t)) example_ts
  = [ ((2022, 1, 1), 5); ((2022, 1, 4), 1); ((2022, 1, 10), 0); ((2022, 12, 31), 5) ].
Proof. vm_compute. reflexivity. Qed.

Example variable_window_day_parts :
  calculate_sazonality
    [ mk_timestamp 2022 1 1 3 0 0; mk_timestamp 2022 1 1 12 30 0;
      mk_timestamp 2022 1 2 19 59 59; mk_timestamp 2022 1 2 20 0 0 ]
    "H" (Variable_ [12; 8; 4]) 24
  = Ok [0; 1; 1; 2].
Proof. vm_compute. reflexivity. Qed.

Lemma astype_int_inv s out : astype_int s = Ok out -> s = map Some out.
Proof.
  unfold astype_int. revert out.
  induction s as [|[v|] s IH]; intros out; simpl.
  - intros [= <-]. reflexivity.
  - destruct (rmapM _ s) as [out'|e] eqn:E; simpl; [|discriminate].
    intros [= <-]. simpl. f_equal. auto.
  - discriminate.
Qed.

Lemma astype_int_Forall (P : Z -> Prop) s out :
  Forall (fun o => forall v, o = Some v -> P v) s ->
  astype_int s = Ok out -> Forall P out.
Proof.
  intros Hs Hout. apply astype_int_inv in Hout. subst s.
  induction out as [|v out IH]; constructor.
  - inversion Hs; subst. auto.
  - inversion Hs; subst. auto.
Qed.

Lemma astype_int_all_Some s :
  Forall is_Some s -> exists out, astype_int s = Ok out /\ length out = length s.
Proof.
  unfold astype_int.
  induction 1 as [|o s [v ->] _ [out [IH Hlen]]]; simpl.
  - exists []. auto.
  - rewrite IH. simpl. exists (v :: out). simpl. auto.
Qed.

Lemma mod_z_range x d v : 0 < d -> mod_z x d = Some v -> 0 <= v < d.
Proof.
  intros Hd. destruct x as [u|]; simpl; [|discriminate].
  destruct (d =? 0); [discriminate|]. intros [= <-].
  apply Z.mod_pos_bound. exact Hd.
Qed.

(** The loop over the cumulative thresholds only ever writes the loop
    index. *)
Lemma assign_bucket_Forall (P : option Z -> Prop) sazon_n i_w w sazon_idx :
  P (Some i_w) -> Forall P sazon_idx ->
  Forall P (assign_bucket sazon_n i_w w sazon_idx).
Proof.
  intros Hi Hidx. revert sazon_n.
  induction Hidx as [|o idx Ho _ IH]; intros [|n ns]; simpl; try constructor.
  - destruct o as [v|]; [exact Ho|].
    destruct n as [v|]; [destruct (v <? w); assumption | assumption].
  - apply IH.
Qed.

Lemma enumerate_from_bounds {A} (l : list A) k i x :
  In (i, x) (enumerate_from k l) -> k <= i < k + Z.of_nat (length l).
Proof.
  revert k. induction l as [|y l IH]; intros k; simpl; [tauto|].
  intros [[= <- <-]|Hin]; [lia|]. apply IH in Hin. lia.
Qed.

Lemma length_cumsum_from acc l : length (cumsum_from acc l) = length l.
Proof. revert acc. induction l; intros; simpl; auto. Qed.

Lemma fold_buckets_Forall (P : option Z -> Prop) sazon_n pairs sazon_idx :
  (forall i w, In (i, w) pairs -> P (Some i)) ->
  Forall P sazon_idx ->
  Forall P (fold_left (fun idx '(i_w, w) => assign_bucket sazon_n i_w w idx)
                      pairs sazon_idx).
Proof.
  revert sazon_idx. induction pairs as [|[i w] pairs IH]; intros idx Hp Hidx; simpl.
  - exact Hidx.
  - apply IH.
    + intros j w' Hin. apply (Hp j w'). right. exact Hin.
    + apply assign_bucket_Forall; [|exact Hidx]. apply (Hp i w). left. reflexivity.
Qed.

(** C6 (amended): whenever [calculate_sazonality] returns, the result is a
    sequence of integers such that, in uniform mode with
    [frequency // window > 0], every value lies in
    [[0, frequency // window)], and in variable mode every value lies in
    [[0, len(window))]. *)
Theorem calculate_sazonality_range ts sazonality_type window frequency out :
  calculate_sazonality ts sazonality_type window frequency = Ok out ->
  match window with
  | Uniform window =>
      0 < frequency / window -> Forall (fun v => 0 <= v < frequency / window) out
  | Variable_ window =>
      Forall (fun v => 0 <= v < Z.of_nat (length window)) out
  end.
Proof.
  unfold calculate_sazonality.
  destruct (apply_time_frequency ts sazonality_type 1) as [unitary|e]; simpl;
    [|discriminate].
  destruct window as [w|l].
  - destruct (w =? 0); [discriminate|]. intros Hout Hpos.
    eapply astype_int_Forall; [|exact Hout].
    apply Forall_forall. intros o Ho v ->.
    apply list_elem_of_In, in_map_iff in Ho. destruct Ho as [x [Hx _]].
    eapply mod_z_range; eauto.
  - intros Hout. eapply astype_int_Forall; [|exact Hout].
    apply fold_buckets_Forall.
    + intros i w Hin v [= <-]. apply enumerate_from_bounds in Hin.
      unfold cumsum in Hin. rewrite length_cumsum_from in Hin. lia.
    + apply Forall_forall. intros o Ho v ->.
      apply list_elem_of_In, in_map_iff in Ho. destruct Ho as [x [Hx _]]. discriminate.
Qed.

Lemma calculate_sazonality_range_witness :
  Forall (fun v => 0 <= v < 7 / 1) [0; 3; 2; 0]
  /\ Forall (fun v => 0 <= v < Z.of_nat (length [12; 8; 4])) [0; 0; 0; 0].
Proof.
  split.
  - apply (calculate_sazonality_range example_ts "D" (Uniform 1) 7 [0; 3; 2; 0]).
    + vm_compute. reflexivity.
    + reflexivity.
  - apply (calculate_sazonality_range example_ts "H" (Variable_ [12; 8; 4]) 24 [0; 0; 0; 0]).
    vm_compute. reflexivity.
Defined.

(** C6, the claim as stated fails: with [window = 1] and [frequency = -7]
    the computation accepts the docstring timestamps and returns negative
    values. *)
Lemma calculate_sazonality_negative_frequency :
  calculate_sazonality example_ts "D" (Uniform 1) (-7) = Ok [0; -4; -5; 0]
  /\ ~ Forall (fun v => 0 <= v) [0; -4; -5; 0].
Proof.
  split; [vm_compute; reflexivity|].
  intros Hall. inversion Hall as [|? ? _ Hrest]; subst.
  inversion Hrest as [|? ? Hneg _]; subst. lia.
Qed.

(** The computation does return on the inputs the docstrings describe. *)
Lemma series_min_cons x l : exists m, series_min (x :: l) = Some m.
Proof. simpl. destruct (series_min l); eauto. Qed.

Lemma min_or_raise_cons x l : exists m, min_or_raise (x :: l) = Ok m.
Proof.
  unfold min_or_raise. destruct (series_min_cons x l) as [m ->]. eauto.
Qed.

Lemma floordiv_one w :
  map (fun x => floordiv x 1) w = map Some (map (fun x => Qfloor (x / inject_Z 1)) w).
Proof. rewrite map_map. reflexivity. Qed.

Lemma apply_time_frequency_returns ts window :
  ts <> [] -> window ∈ supported_units ->
  exists u, apply_time_frequency ts window 1 = Ok (map Some u)
            /\ length u = length ts.
Proof.
  intros Hne Hin. destruct ts as [|t ts]; [congruence|].
  unfold apply_time_frequency, Timestamp in *.
  assert (Hw : exists w, window_unit (t :: ts) window = Some (Ok w)
                         /\ length w = length (t :: ts)).
  { unfold supported_units in Hin.
    destruct (min_or_raise_cons t ts) as [m Hm].
    destruct (min_or_raise_cons (year t) (map year ts)) as [my Hmy].
    repeat (apply elem_of_cons in Hin; destruct Hin as [->|Hin]);
      [..|apply elem_of_nil in Hin; tauto];
      unfold window_unit; cbn [String.eqb Ascii.eqb Bool.eqb andb];
      change (map year (t :: ts)) with (year t :: map year ts);
      rewrite ?Hm, ?Hmy; cbn [rbind]; eexists; (split; [reflexivity|]);
      unfold elapsed_units; rewrite ?length_map; reflexivity. }
  destruct Hw as [w [-> Hlen]]. cbn [rbind].
  rewrite floordiv_one. eexists. split; [reflexivity|].
  rewrite length_map. exact Hlen.
Qed.

Lemma assign_bucket_length sazon_n i_w w sazon_idx :
  length sazon_n = length sazon_idx ->
  length (assign_bucket sazon_n i_w w sazon_idx) = length sazon_idx.
Proof. intros Hlen. unfold assign_bucket. rewrite length_zip_with. lia. Qed.

Lemma assign_bucket_fills sazon_n i_w w sazon_idx :
  length sazon_n = length sazon_idx ->
  Forall (fun n => exists v, n = Some v /\ v < w) sazon_n ->
  Forall is_Some (assign_bucket sazon_n i_w w sazon_idx).
Proof.
  intros Hlen Hn. revert sazon_idx Hlen.
  induction Hn as [|n ns [v [-> Hv]] _ IH]; intros [|o idx] Hlen;
    simpl in *; try discriminate; constructor.
  - destruct o as [u|]; [eauto|].
    apply Z.ltb_lt in Hv. rewrite Hv. eauto.
  - apply IH. lia.
Qed.

Lemma fold_buckets_fills sazon_n pairs sazon_idx :
  length sazon_n = length sazon_idx ->
  (exists i w, In (i, w) pairs
               /\ Forall (fun n => exists v, n = Some v /\ v < w) sazon_n) ->
  Forall is_Some (fold_left (fun idx '(i_w, w) => assign_bucket sazon_n i_w w idx)
                            pairs sazon_idx).
Proof.
  revert sazon_idx. induction pairs as [|[j w'] pairs IH]; intros idx Hlen [i [w [Hin Hn]]].
  - destruct Hin.
  - simpl. destruct Hin as [[= -> ->]|Hin].
    + apply fold_buckets_Forall; [eauto|].
      apply assign_bucket_fills; assumption.
    + apply IH; [|eauto]. rewrite assign_bucket_length; auto.
Qed.

Lemma sum_in_cumsum_from acc l :
  l <> [] -> In (fold_left Z.add l acc) (cumsum_from acc l).
Proof.
  revert acc. induction l as [|x l IH]; intros acc Hne; [congruence|].
  simpl. destruct l as [|y l]; [left; reflexivity|].
  right. apply IH. discriminate.
Qed.

Lemma In_enumerate_from {A} (l : list A) k x :
  In x l -> exists i, In (i, x) (enumerate_from k l).
Proof.
  revert k. induction l as [|y l IH]; intros k; simpl; [tauto|].
  intros [->|Hin]; [eauto|]. destruct (IH (k + 1) Hin) as [i Hi]. eauto.
Qed.

(** X9: [calculate_sazonality] returns, with one index per timestamp, for
    a supported unit and a series that is not empty when, in uniform mode,
    [frequency // window] is not 0 and, in variable mode, the window sums
    to a positive [frequency]. *)
Lemma calculate_sazonality_returns ts sazonality_type window frequency :
  ts <> [] -> sazonality_type ∈ supported_units ->
  match window with
  | Uniform window => frequency / window <> 0
  | Variable_ window => sum window = frequency /\ 0 < frequency
  end ->
  exists out, calculate_sazonality ts sazonality_type window frequency = Ok out
              /\ length out = length ts.
Proof.
  intros Hne Hin Hmode. unfold calculate_sazonality.
  destruct (apply_time_frequency_returns ts sazonality_type Hne Hin) as [u [-> Hlen]].
  cbn [rbind]. destruct window as [w|l].
  - assert (Hw : w <> 0) by (intros ->; apply Hmode; apply Z.div_0_r).
    apply Z.eqb_neq in Hw. rewrite Hw.
    destruct (astype_int_all_Some
                (map (fun x => mod_z x (frequency / w))
                   (map (fun x => floordiv_z x w) (map Some u)))) as [out [Hout Hl]].
    + apply Forall_forall. intros o Ho.
      apply list_elem_of_In in Ho. rewrite !map_map in Ho.
      apply in_map_iff in Ho. destruct Ho as [x [<- _]]. simpl. rewrite Hw. simpl.
      apply Z.eqb_neq in Hmode. rewrite Hmode. eauto.
    + exists out. split; [exact Hout|]. rewrite Hl, !length_map. exact Hlen.
  - destruct Hmode as [Hsum Hpos].
    set (sazon_n := map (fun x => mod_z x frequency) (map Some u)).
    destruct (astype_int_all_Some
                (fold_left (fun idx '(i_w, w) => assign_bucket sazon_n i_w w idx)
                   (enumerate (cumsum l)) (map (fun _ => None) sazon_n)))
      as [out [Hout Hl]].
    + apply fold_buckets_fills; [rewrite length_map; reflexivity|].
      assert (Hl : l <> []) by (intros ->; unfold sum in Hsum; simpl in Hsum; lia).
      destruct (In_enumerate_from (cumsum l) 0 _ (sum_in_cumsum_from 0 l Hl)) as [i Hi].
      exists i. exists (fold_left Z.add l 0). split; [exact Hi|].
      apply Forall_forall. intros o Ho. apply list_elem_of_In in Ho.
      unfold sazon_n in Ho. rewrite map_map in Ho.
      apply in_map_iff in Ho. destruct Ho as [x [<- _]]. simpl.
      assert (Hf : (frequency =? 0) = false) by (apply Z.eqb_neq; lia).
      rewrite Hf. eexists. split; [reflexivity|].
      fold (sum l). rewrite Hsum. apply Z.mod_pos_bound. exact Hpos.
    + exists out. split; [exact Hout|].
      rewrite Hl. clear Hout Hl.
      assert (Hgen : forall pairs idx, length sazon_n = length idx ->
                length (fold_left (fun idx '(i_w, w) => assign_bucket sazon_n i_w w idx)
                          pairs idx) = length idx).
      { induction pairs as [|[i w] pairs IH]; intros idx Hidx; simpl; [reflexivity|].
        rewrite IH; rewrite assign_bucket_length; auto. }
      rewrite Hgen by (rewrite length_map; reflexivity).
      unfold sazon_n. rewrite !length_map. exact Hlen.
Qed.

Lemma hms_second_of_day t :
  hour t * 3600 + minute t * 60 + second t = second_of_day t.
Proof.
  unfold hour, minute, second. generalize (second_of_day t). intros s.
  Z.to_euclidean_division_equations. lia.
Qed.

(** X8: the origin of the [W] branch falls on a Monday, at most a week
    before the minimum (its time of day is midnight plus the part of the
    minimum below the second, which [replace] keeps). *)
Lemma week_origin_monday t :
  weekday (week_origin t) = 0
  /\ week_origin t <= t < week_origin t + 7 * ns_per_day.
Proof.
  unfold week_origin, minus_days, replace_hms0. rewrite hms_second_of_day.
  unfold weekday, day_number, second_of_day, ns_per_day, seconds_per_day, ns_per_second.
  Z.to_euclidean_division_equations. lia.
Qed.

(** C7: on the docstring timestamps, with unit [W] and window size 1,
    [apply_time_frequency] returns 0, 1, 2, 52; the weeks are counted from
    2021-12-27T00:00:00, the Monday of the week of the minimum timestamp
    2022-01-01 (a Saturday). *)
Theorem apply_time_frequency_weekly_example :
  apply_time_frequency
    [ mk_timestamp 2022 1 1 0 0 0; mk_timestamp 2022 1 4 0 0 0;
      mk_timestamp 2022 1 10 0 0 0; mk_timestamp 2022 12 31 0 0 0 ] "W" 1
  = Ok [Some 0; Some 1; Some 2; Some 52]
  /\ series_min example_ts = Some (mk_timestamp 2022 1 1 0 0 0)
  /\ weekday (mk_timestamp 2022 1 1 0 0 0) = 5
  /\ week_origin (mk_timestamp 2022 1 1 0 0 0) = mk_timestamp 2021 12 27 0 0 0
  /\ weekday (week_origin (mk_timestamp 2022 1 1 0 0 0)) = 0.
Proof. repeat split; vm_compute; reflexivity. Qed.

(** C10: for a unit outside Y, M, W, D, H, m, s no branch binds [w], and
    [apply_time_frequency] ends in [UnboundLocalError] instead of
    returning an index sequence, whatever the timestamps (non-empty or
    not) and the window size. *)
Theorem apply_time_frequency_unsupported_unit ts window window_size :
  window ∉ supported_units ->
  apply_time_frequency ts window window_size = Raise (UnboundLocalError "w").
Proof.
  intros Hnot. unfold apply_time_frequency.
  assert (Hnone : window_unit ts window = None).
  { unfold window_unit, supported_units in *.
    repeat (apply not_elem_of_cons in Hnot;
            let Hne := fresh "Hne" in
            destruct Hnot as [Hne Hnot];
            apply String.eqb_neq in Hne; rewrite Hne).
    reflexivity. }
  rewrite Hnone. reflexivity.
Qed.

Lemma apply_time_frequency_unsupported_unit_witness :
  ("S" ∉ supported_units)
  /\ apply_time_frequency example_ts "S" 1 = Raise (UnboundLocalError "w").
Proof.
  assert (Hnot : "S" ∉ supported_units).
  { unfold supported_units. intros Hin.
    repeat (apply elem_of_cons in Hin; destruct Hin as [Heq|Hin]; [discriminate|]).
    apply elem_of_nil in Hin. exact Hin. }
  split; [exact Hnot|].
  apply (apply_time_frequency_unsupported_unit example_ts "S" 1 Hnot).
Defined.

(** ** Window indexes in closed form *)

Lemma Qfloor_total_seconds a k :
  0 < k -> Qfloor (Qmake a 1000000000 / inject_Z k) = a / (1000000000 * k).
Proof.
  intros Hk. destruct k as [|p|p]; try lia.
  unfold Qdiv, Qinv, inject_Z, Qmult, Qfloor. simpl.
  rewrite Z.mul_1_r. reflexivity.
Qed.

Lemma Qfloor_inject_div v k : 0 < k -> Qfloor (inject_Z v / inject_Z k) = v / k.
Proof.
  intros Hk. destruct k as [|p|p]; try lia.
  unfold Qdiv, Qinv, inject_Z, Qmult, Qfloor. simpl.
  rewrite Z.mul_1_r. reflexivity.
Qed.

Lemma series_min_spec l m :
  series_min l = Some m -> m ∈ l /\ forall x, x ∈ l -> m <= x.
Proof.
  revert m. induction l as [|y l IH]; intros m; simpl; [discriminate|].
  destruct (series_min l) as [m'|] eqn:E.
  - intros [= <-]. destruct (IH m' eq_refl) as [Hin Hle]. split.
    + destruct (Z.min_spec y m') as [[_ ->]|[_ ->]].
      * apply list_elem_of_here.
      * apply list_elem_of_further. exact Hin.
    + intros x Hx. apply elem_of_cons in Hx. destruct Hx as [->|Hx]; [lia|].
      specialize (Hle x Hx). lia.
  - intros [= <-]. destruct l; [|simpl in E; destruct (series_min l); discriminate].
    split; [apply list_elem_of_here|].
    intros x Hx. apply elem_of_cons in Hx. destruct Hx as [->|Hx]; [lia|].
    apply elem_of_nil in Hx. tauto.
Qed.

Lemma month_range t : 1 <= month t <= 12.
Proof.
  unfold month, civil_from_days. generalize (day_number t). intros z. simpl.
  match goal with |- context [if ?b then _ else _] => destruct b eqn:E end.
  - apply Z.ltb_lt in E. revert E. Z.to_euclidean_division_equations. lia.
  - apply Z.ltb_ge in E. revert E. Z.to_euclidean_division_equations. lia.
Qed.

Lemma min_or_raise_Some l m : series_min l = Some m -> min_or_raise l = Ok m.
Proof. unfold min_or_raise. intros ->. reflexivity. Qed.

(** For the units counted from a timestamp, the index is an integer
    quotient of the nanoseconds elapsed since the origin of the unit. *)
Lemma apply_time_frequency_elapsed ts tmin window window_size origin unit_seconds :
  series_min ts = Some tmin -> 0 < window_size ->
  (window, origin, unit_seconds)
    ∈ [ ("W", week_origin tmin, 604800); ("D", replace_hms0 tmin, 86400);
        ("H", replace_hms0 tmin, 3600); ("m", replace_hms0 tmin, 60);
        ("s", replace_s0 tmin, 1) ] ->
  apply_time_frequency ts window window_size
  = Ok (map (fun t => Some ((t - origin) / (1000000000 * unit_seconds) / window_size)) ts).
Proof.
  intros Hmin Hws Hin. unfold Timestamp in *.
  apply min_or_raise_Some in Hmin.
  assert (Hz : (window_size =? 0) = false) by (apply Z.eqb_neq; lia).
  repeat (apply elem_of_cons in Hin; destruct Hin as [[= -> -> ->]|Hin]);
    [..|apply elem_of_nil in Hin; tauto];
    unfold apply_time_frequency, window_unit;
    cbn [String.eqb Ascii.eqb Bool.eqb andb]; rewrite Hmin; cbn [rbind];
    f_equal; unfold elapsed_units; rewrite ?map_map; apply map_ext; intros t;
    unfold floordiv, total_seconds; rewrite Hz; f_equal.
  - rewrite Qfloor_total_seconds by lia. rewrite Qfloor_inject_div by lia. reflexivity.
  - rewrite Qfloor_total_seconds by lia. rewrite Qfloor_inject_div by lia. reflexivity.
  - rewrite Qfloor_total_seconds by lia. rewrite Qfloor_inject_div by lia. reflexivity.
  - rewrite Qfloor_total_seconds by lia. rewrite Qfloor_inject_div by lia. reflexivity.
  - rewrite Qfloor_total_seconds by lia. rewrite Z.mul_1_r.
    rewrite Z.div_div by lia. reflexivity.
Qed.

Lemma origin_le_min tmin :
  week_origin tmin <= tmin /\ replace_hms0 tmin <= tmin /\ replace_s0 tmin <= tmin.
Proof.
  unfold week_origin, minus_days, replace_hms0, replace_s0.
  rewrite hms_second_of_day.
  unfold weekday, day_number, second, second_of_day, ns_per_day, seconds_per_day,
    ns_per_second.
  Z.to_euclidean_division_equations. lia.
Qed.

Lemma min_or_raise_inv l m : min_or_raise l = Ok m -> series_min l = Some m.
Proof. unfold min_or_raise. destruct (series_min l); [intros [= ->]; reflexivity|discriminate]. Qed.

Lemma series_min_map_year ts m :
  series_min (map year ts) = Some m -> exists tmin, series_min ts = Some tmin.
Proof. destruct ts as [|t ts]; [discriminate|]. intros _. apply series_min_cons. Qed.

(** A result means a supported unit and a series that has a minimum. *)
Lemma apply_time_frequency_Ok_inv ts window window_size r :
  apply_time_frequency ts window window_size = Ok r ->
  window ∈ supported_units /\ exists tmin, series_min ts = Some tmin.
Proof.
  unfold apply_time_frequency, window_unit, supported_units, Timestamp in *.
  repeat match goal with
         | |- context [(window =? ?u)%string] =>
             destruct (String.eqb_spec window u) as [->|?]
         end;
    try discriminate;
    (destruct (min_or_raise _) as [m|] eqn:E; [|discriminate]);
    apply min_or_raise_inv in E; intros _;
    (split; [repeat first [apply list_elem_of_here | apply list_elem_of_further]|]);
    eauto using series_min_map_year.
Qed.

(** X1: with a positive window size, every index [apply_time_frequency]
    returns is a finite, non-negative integer, one per timestamp: the
    origin of the count never lies after the earliest timestamp, for each
    of the seven units. *)
Theorem apply_time_frequency_nonnegative ts window window_size r :
  apply_time_frequency ts window window_size = Ok r ->
  0 < window_size ->
  length r = length ts /\ Forall (fun o => exists v, o = Some v /\ 0 <= v) r.
Proof.
  intros Hrun Hws.
  destruct (apply_time_frequency_Ok_inv _ _ _ _ Hrun) as [Hin [tmin Hmin]].
  destruct (series_min_spec _ _ Hmin) as [_ Hle].
  destruct (origin_le_min tmin) as [Hw [Hd Hs]].
  assert (Hz : (window_size =? 0) = false) by (apply Z.eqb_neq; lia).
  unfold supported_units in Hin.
  apply elem_of_cons in Hin. destruct Hin as [->|Hin].
  { unfold apply_time_frequency, window_unit in Hrun.
    cbn [String.eqb Ascii.eqb Bool.eqb andb] in Hrun.
    destruct (min_or_raise (map year ts)) as [my|] eqn:E; [|discriminate].
    apply min_or_raise_inv, series_min_spec in E. destruct E as [_ Hy].
    cbn [rbind] in Hrun. injection Hrun as <-. rewrite !length_map.
    split; [reflexivity|]. rewrite map_map. apply Forall_forall. intros o Ho.
    apply list_elem_of_fmap in Ho. destruct Ho as [t [-> Ht]].
    unfold floordiv. rewrite Hz, Qfloor_inject_div by lia.
    eexists. split; [reflexivity|]. apply Z.div_pos; [|lia].
    assert (my <= year t) by (apply Hy, list_elem_of_fmap; eauto). lia. }
  apply elem_of_cons in Hin. destruct Hin as [->|Hin].
  { unfold apply_time_frequency, window_unit in Hrun.
    cbn [String.eqb Ascii.eqb Bool.eqb andb] in Hrun.
    destruct (min_or_raise (map year ts)) as [my|] eqn:E; [|discriminate].
    apply min_or_raise_inv, series_min_spec in E. destruct E as [_ Hy].
    cbn [rbind] in Hrun. injection Hrun as <-. rewrite !length_map.
    split; [reflexivity|]. rewrite map_map. apply Forall_forall. intros o Ho.
    apply list_elem_of_fmap in Ho. destruct Ho as [t [-> Ht]].
    unfold floordiv. rewrite Hz, Qfloor_inject_div by lia.
    eexists. split; [reflexivity|]. apply Z.div_pos; [|lia].
    assert (my <= year t) by (apply Hy, list_elem_of_fmap; eauto).
    pose proof (month_range t). lia. }
  assert (Hgen : forall origin unit_seconds,
             origin <= tmin -> 0 < unit_seconds ->
             r = map (fun t => Some ((t - origin) / (1000000000 * unit_seconds)
                                      / window_size)) ts ->
             length r = length ts
             /\ Forall (fun o => exists v, o = Some v /\ 0 <= v) r).
  { intros origin k Ho Hk ->. rewrite length_map. split; [reflexivity|].
    apply Forall_forall. intros o Hin'.
    apply list_elem_of_fmap in Hin'. destruct Hin' as [t [-> Ht]].
    eexists. split; [reflexivity|].
    apply Z.div_pos; [|lia]. apply Z.div_pos; [|lia].
    specialize (Hle t Ht). lia. }
  repeat (apply elem_of_cons in Hin; destruct Hin as [->|Hin]);
    [..|apply elem_of_nil in Hin; tauto];
    (erewrite apply_time_frequency_elapsed in Hrun;
     [|exact Hmin|exact Hws|
      repeat first [apply list_elem_of_here | apply list_elem_of_further]]);
    injection Hrun as Hr; symmetry in Hr; eapply Hgen; try exact Hr; lia.
Qed.

Lemma apply_time_frequency_nonnegative_witness :
  apply_time_frequency example_ts "W" 2 = Ok [Some 0; Some 0; Some 1; Some 26]
  /\ length [Some 0; Some 0; Some 1; Some 26] = length example_ts
  /\ Forall (fun o => exists v, o = Some v /\ 0 <= v) [Some 0; Some 0; Some 1; Some 26].
Proof.
  assert (Hrun : apply_time_frequency example_ts "W" 2
                 = Ok [Some 0; Some 0; Some 1; Some 26]) by (vm_compute; reflexivity).
  split; [exact Hrun|].
  apply (apply_time_frequency_nonnegative example_ts "W" 2 _ Hrun). lia.
Defined.

Lemma lookup_map {A B} (f : A -> B) (l : list A) i : map f l !! i = f <$> l !! i.
Proof. exact (list_lookup_fmap f l i). Qed.

(** X2: for the units counted from a timestamp (W, D, H, m, s) and a
    positive window size, the index never decreases with time: a later
    timestamp gets an index at least as large. *)
Theorem apply_time_frequency_monotone ts window window_size r i j t1 t2 a b :
  window ∈ ["W"; "D"; "H"; "m"; "s"] ->
  0 < window_size ->
  apply_time_frequency ts window window_size = Ok r ->
  ts !! i = Some t1 -> ts !! j = Some t2 -> t1 <= t2 ->
  r !! i = Some a -> r !! j = Some b ->
  exists va vb, a = Some va /\ b = Some vb /\ va <= vb.
Proof.
  intros Hin Hws Hrun Hi Hj Hle Ha Hb. unfold Timestamp in *.
  destruct (apply_time_frequency_Ok_inv _ _ _ _ Hrun) as [_ [tmin Hmin]].
  assert (Hform : exists origin unit_seconds,
             0 < unit_seconds
             /\ r = map (fun t => Some ((t - origin) / (1000000000 * unit_seconds)
                                         / window_size)) ts).
  { repeat (apply elem_of_cons in Hin; destruct Hin as [->|Hin]);
      [..|apply elem_of_nil in Hin; tauto];
      (erewrite apply_time_frequency_elapsed in Hrun;
       [|exact Hmin|exact Hws|
        repeat first [apply list_elem_of_here | apply list_elem_of_further]]);
      injection Hrun as <-; do 2 eexists; (split; [|reflexivity]); lia. }
  destruct Hform as [origin [k [Hk ->]]].
  rewrite lookup_map, Hi in Ha. rewrite lookup_map, Hj in Hb.
  injection Ha as <-. injection Hb as <-.
  do 2 eexists. split; [reflexivity|]. split; [reflexivity|].
  apply Z.div_le_mono; [lia|]. apply Z.div_le_mono; lia.
Qed.

Lemma apply_time_frequency_monotone_witness :
  apply_time_frequency example_ts "D" 7 = Ok [Some 0; Some 0; Some 1; Some 52]
  /\ exists va vb, Some 0 = Some va /\ Some 52 = Some vb /\ va <= vb.
Proof.
  assert (Hrun : apply_time_frequency example_ts "D" 7
                 = Ok [Some 0; Some 0; Some 1; Some 52]) by (vm_compute; reflexivity).
  split; [exact Hrun|].
  apply (apply_time_frequency_monotone example_ts "D" 7
           [Some 0; Some 0; Some 1; Some 52] 1%nat 3%nat
           (mk_timestamp 2022 1 4 0 0 0) (mk_timestamp 2022 12 31 0 0 0)
           (Some 0) (Some 52)).
  - repeat first [apply list_elem_of_here | apply list_elem_of_further].
  - lia.
  - exact Hrun.
  - reflexivity.
  - reflexivity.
  - vm_compute. discriminate.
  - reflexivity.
  - reflexivity.
Defined.

(** X3: the count starts at the origin of the unit, not at the earliest
    timestamp.  The earliest timestamp gets index 0 in weeks and days, but
    in hours it gets its hour of the day, in minutes its minute of the
    day, and in seconds its second of the minute (each divided by the
    window size). *)
Theorem apply_time_frequency_earliest ts tmin window window_size first_index i :
  series_min ts = Some tmin ->
  0 < window_size ->
  (window, first_index)
    ∈ [ ("W", 0); ("D", 0); ("H", hour tmin);
        ("m", hour tmin * 60 + minute tmin); ("s", second tmin) ] ->
  ts !! i = Some tmin ->
  exists r, apply_time_frequency ts window window_size = Ok r
            /\ r !! i = Some (Some (first_index / window_size)).
Proof.
  intros Hmin Hws Hin Hi. unfold Timestamp in *.
  assert (Hform : exists origin unit_seconds,
             apply_time_frequency ts window window_size
             = Ok (map (fun t => Some ((t - origin) / (1000000000 * unit_seconds)
                                        / window_size)) ts)
             /\ (tmin - origin) / (1000000000 * unit_seconds) = first_index).
  { repeat (apply elem_of_cons in Hin; destruct Hin as [[= -> ->]|Hin]);
      [..|apply elem_of_nil in Hin; tauto];
      do 2 eexists;
      (split;
       [apply (apply_time_frequency_elapsed ts tmin _ window_size); 
        [exact Hmin|exact Hws|
         repeat first [apply list_elem_of_here | apply list_elem_of_further]]|]);
      unfold week_origin, minus_days, replace_hms0, replace_s0;
      rewrite ?hms_second_of_day;
      unfold hour, minute, second, weekday, day_number, second_of_day,
        ns_per_day, seconds_per_day, ns_per_second;
      Z.to_euclidean_division_equations; lia. }
  destruct Hform as [origin [k [Hrun Hfirst]]].
  eexists. split; [exact Hrun|].
  rewrite lookup_map, Hi. simpl. rewrite Hfirst. reflexivity.
Qed.

Lemma apply_time_frequency_earliest_witness :
  let ts := [ mk_timestamp 2022 1 1 9 30 15; mk_timestamp 2022 1 1 5 20 40 ] in
  series_min ts = Some (mk_timestamp 2022 1 1 5 20 40)
  /\ hour (mk_timestamp 2022 1 1 5 20 40) = 5
  /\ exists r, apply_time_frequency ts "H" 1 = Ok r
               /\ r !! 1%nat = Some (Some (hour (mk_timestamp 2022 1 1 5 20 40) / 1)).
Proof.
  intros ts. split; [vm_compute; reflexivity|]. split; [vm_compute; reflexivity|].
  apply (apply_time_frequency_earliest ts (mk_timestamp 2022 1 1 5 20 40) "H" 1).
  - vm_compute. reflexivity.
  - lia.
  - repeat first [apply list_elem_of_here | apply list_elem_of_further].
  - reflexivity.
Defined.

(** ** Seasonality indexes *)

Lemma astype_int_map_Some l : astype_int (map Some l) = Ok l.
Proof.
  unfold astype_int. induction l as [|x l IH]; simpl; [reflexivity|].
  rewrite IH. reflexivity.
Qed.

Lemma astype_int_None s : None ∈ s -> 
  astype_int s = Raise (ValueError "Cannot convert non-finite values (NA or inf) to integer").
Proof.
  unfold astype_int. induction s as [|[v|] s IH]; simpl.
  - intros Hin. apply elem_of_nil in Hin. tauto.
  - intros Hin. apply elem_of_cons in Hin. destruct Hin as [?|Hin]; [discriminate|].
    rewrite (IH Hin). reflexivity.
  - reflexivity.
Qed.



(** X5: parameters that make the computation fail, for a supported unit
    and a series that is not empty: a uniform window of 0 ends in
    [ZeroDivisionError]; a uniform window with [frequency // window = 0]
    (a frequency below the window, for instance) and a variable window
    with [frequency = 0] leave not-a-number entries, which the final
    conversion to integers refuses with [ValueError]. *)
Theorem calculate_sazonality_degenerate ts sazonality_type frequency :
  ts <> [] -> sazonality_type ∈ supported_units ->
  calculate_sazonality ts sazonality_type (Uniform 0) frequency = Raise ZeroDivisionError
  /\ (forall window, window <> 0 -> frequency / window = 0 ->
        calculate_sazonality ts sazonality_type (Uniform window) frequency
        = Raise (ValueError "Cannot convert non-finite values (NA or inf) to integer"))
  /\ (forall window,
        calculate_sazonality ts sazonality_type (Variable_ window) 0
        = Raise (ValueError "Cannot convert non-finite values (NA or inf) to integer")).
Proof.
  intros Hne Hin.
  destruct (apply_time_frequency_returns ts sazonality_type Hne Hin) as [u [Happ Hlen]].
  assert (Hu : exists x u', u = x :: u').
  { destruct u as [|x u']; [|eauto]. destruct ts; [congruence|discriminate]. }
  destruct Hu as [x [u' ->]].
  unfold calculate_sazonality. rewrite Happ. cbn [rbind].
  split; [reflexivity|]. split.
  - intros window Hw Hf. apply Z.eqb_neq in Hw. rewrite Hw.
    apply astype_int_None. simpl. rewrite Hw, Hf. simpl. apply list_elem_of_here.
  - intros window. apply astype_int_None.
    assert (Hgen : forall pairs (sazon_n idx : list (option Z)),
               Forall (fun n => n = None) sazon_n -> None ∈ idx ->
               length sazon_n = length idx ->
               None ∈ fold_left (fun idx '(i_w, w) => assign_bucket sazon_n i_w w idx)
                                pairs idx).
    { induction pairs as [|[k w] pairs IH]; intros sn idx Hsn Hidx Hl; simpl; [exact Hidx|].
      apply IH; [exact Hsn| |rewrite assign_bucket_length; auto].
      clear IH. revert idx Hidx Hl. induction Hsn as [|n sn -> _ IHsn];
        intros [|o idx] Hidx Hl; simpl in *; try discriminate.
      - apply elem_of_nil in Hidx. tauto.
      - apply elem_of_cons in Hidx. destruct Hidx as [<-|Hidx].
        + apply list_elem_of_here.
        + apply list_elem_of_further. apply IHsn; [exact Hidx|lia]. }
    apply Hgen.
    + apply Forall_forall. intros o Ho. apply list_elem_of_fmap in Ho.
      destruct Ho as [y [-> _]]. destruct y; reflexivity.
    + simpl. apply list_elem_of_here.
    + rewrite !length_map. reflexivity.
Qed.

Lemma calculate_sazonality_degenerate_witness :
  example_ts <> []
  /\ ("D" ∈ supported_units)
  /\ 3 / 7 = 0
  /\ calculate_sazonality example_ts "D" (Uniform 7) 3
     = Raise (ValueError "Cannot convert non-finite values (NA or inf) to integer").
Proof.
  assert (Hne : example_ts <> []) by discriminate.
  assert (Hin : "D" ∈ supported_units)
    by (repeat first [apply list_elem_of_here | apply list_elem_of_further]).
  split; [exact Hne|]. split; [exact Hin|]. split; [reflexivity|].
  destruct (calculate_sazonality_degenerate example_ts "D" 3 Hne Hin) as [_ [Hu _]].
  apply Hu; [lia|reflexivity].
Defined.

(** One entry of the series through the loop over the thresholds. *)
Lemma assign_bucket_lookup sazon_n i_w w sazon_idx k n o :
  sazon_n !! k = Some n -> sazon_idx !! k = Some o ->
  assign_bucket sazon_n i_w w sazon_idx !! k
  = Some (match o with
          | Some _ => o
          | None => match n with
                    | Some v => if v <? w then Some i_w else None
                    | None => None
                    end
          end).
Proof.
  intros Hn Ho. unfold assign_bucket. rewrite lookup_zip_with, Hn. simpl.
  rewrite Ho. reflexivity.
Qed.

Lemma fold_buckets_lookup sazon_n pairs sazon_idx k n o :
  sazon_n !! k = Some n -> sazon_idx !! k = Some o ->
  fold_left (fun idx '(i_w, w) => assign_bucket sazon_n i_w w idx) pairs sazon_idx !! k
  = Some (fold_left
            (fun o '(i_w, w) =>
               match o with
               | Some _ => o
               | None => match n with
                         | Some v => if v <? w then Some i_w else None
                         | None => None
                         end
               end) pairs o).
Proof.
  intros Hn. revert sazon_idx o.
  induction pairs as [|[i w] pairs IH]; intros idx o Ho; simpl; [exact Ho|].
  apply IH. apply assign_bucket_lookup; assumption.
Qed.

Lemma first_bucket_spec x cs start v :
  fold_left
    (fun o '(i_w, w) =>
       match o with
       | Some _ => o
       | None => if x <? w then Some i_w else None
       end) (enumerate_from start cs) None = Some v ->
  start <= v
  /\ exists c, cs !! Z.to_nat (v - start) = Some c /\ x < c
               /\ forall j c', (j < Z.to_nat (v - start))%nat -> cs !! j = Some c' -> c' <= x.
Proof.
  assert (Hstay : forall pairs (u : Z),
             fold_left
               (fun o '(i_w, w) =>
                  match o with
                  | Some _ => o
                  | None => if x <? w then Some i_w else None
                  end) pairs (Some u) = Some u).
  { induction pairs as [|[i w] pairs IH]; intros u; simpl; auto. }
  revert start. induction cs as [|c cs IH]; intros start; simpl; [discriminate|].
  destruct (x <? c) eqn:E.
  - rewrite Hstay. intros [= <-]. split; [lia|].
    replace (start - start) with 0 by lia. exists c.
    split; [reflexivity|]. split; [apply Z.ltb_lt; exact E|]. intros j c' Hj. lia.
  - intros Hv. apply IH in Hv. destruct Hv as [Hle [c0 [Hc0 [Hx Hbefore]]]].
    split; [lia|]. exists c0.
    replace (Z.to_nat (v - start)) with (S (Z.to_nat (v - (start + 1)))) by lia.
    split; [exact Hc0|]. split; [exact Hx|].
    intros [|j] c' Hj Hc'.
    + injection Hc' as <-. apply Z.ltb_ge in E. exact E.
    + apply (Hbefore j c'); [lia|exact Hc'].
Qed.

(** X6: in variable mode the first bucket wins.  The index of an event is
    the position of the first cumulative threshold of [window] that lies
    above its residual ([unitary % frequency]); every earlier threshold is
    at or below the residual. *)
Theorem calculate_sazonality_first_bucket
    ts sazonality_type window frequency unitary out i x v :
  apply_time_frequency ts sazonality_type 1 = Ok unitary ->
  calculate_sazonality ts sazonality_type (Variable_ window) frequency = Ok out ->
  unitary !! i = Some (Some x) ->
  out !! i = Some v ->
  0 <= v
  /\ exists c, cumsum window !! Z.to_nat v = Some c
               /\ x mod frequency < c
               /\ forall j c', (j < Z.to_nat v)%nat -> cumsum window !! j = Some c' ->
                               c' <= x mod frequency.
Proof.
  intros Happ Hrun Hx Hv. unfold calculate_sazonality in Hrun.
  rewrite Happ in Hrun. cbn [rbind] in Hrun.
  apply astype_int_inv in Hrun.
  assert (Hk : (map Some out) !! i = Some (Some v)) by (rewrite lookup_map, Hv; reflexivity).
  rewrite <- Hrun in Hk.
  erewrite fold_buckets_lookup in Hk;
    [|rewrite lookup_map, Hx; reflexivity
     |rewrite !lookup_map, Hx; reflexivity].
  injection Hk as Hk. unfold mod_z in Hk.
  destruct (frequency =? 0).
  - exfalso. clear -Hk. revert Hk. generalize (enumerate (cumsum window)).
    induction l as [|[k w] l IH]; simpl; [discriminate|exact IH].
  - apply first_bucket_spec in Hk. unfold enumerate in *.
    destruct Hk as [Hle [c Hc]]. rewrite Z.sub_0_r in Hc. eauto.
Qed.

Lemma calculate_sazonality_first_bucket_witness :
  let ts := [ mk_timestamp 2022 1 1 3 0 0; mk_timestamp 2022 1 1 12 30 0;
              mk_timestamp 2022 1 2 19 59 59; mk_timestamp 2022 1 2 20 0 0 ] in
  apply_time_frequency ts "H" 1 = Ok [Some 3; Some 12; Some 43; Some 44]
  /\ calculate_sazonality ts "H" (Variable_ [12; 8; 4]) 24 = Ok [0; 1; 1; 2]
  /\ 0 <= 1
  /\ exists c, cumsum [12; 8; 4] !! Z.to_nat 1 = Some c
               /\ 43 mod 24 < c
               /\ forall j c', (j < Z.to_nat 1)%nat -> cumsum [12; 8; 4] !! j = Some c' ->
                               c' <= 43 mod 24.
Proof.
  intros ts.
  assert (Happ : apply_time_frequency ts "H" 1 = Ok [Some 3; Some 12; Some 43; Some 44])
    by (vm_compute; reflexivity).
  assert (Hrun : calculate_sazonality ts "H" (Variable_ [12; 8; 4]) 24 = Ok [0; 1; 1; 2])
    by (vm_compute; reflexivity).
  split; [exact Happ|]. split; [exact Hrun|].
  apply (calculate_sazonality_first_bucket ts "H" [12; 8; 4] 24 _ _ 2%nat 43 1 Happ Hrun);
    reflexivity.
Defined.

Lemma window_unit_unsupported ts window :
  window ∉ supported_units -> window_unit ts window = None.
Proof.
  intros Hnot. unfold window_unit, supported_units in *.
  repeat (apply not_elem_of_cons in Hnot;
          let Hne := fresh "Hne" in
          destruct Hnot as [Hne Hnot];
          apply String.eqb_neq in Hne; rewrite Hne).
  reflexivity.
Qed.

(** X7: [calculate_sazonality] has no check of its own on the unit: for a
    unit outside Y, M, W, D, H, m, s it ends in the [UnboundLocalError] of
    [apply_time_frequency], whatever the window and the frequency.  The
    unit [S] of its docstring is such a unit, the code reads [s]. *)
Theorem calculate_sazonality_unsupported_unit ts sazonality_type window frequency :
  sazonality_type ∉ supported_units ->
  calculate_sazonality ts sazonality_type window frequency
  = Raise (UnboundLocalError "w").
Proof.
  intros Hnot. unfold calculate_sazonality, apply_time_frequency.
  rewrite (window_unit_unsupported ts _ Hnot). reflexivity.
Qed.

Lemma calculate_sazonality_unsupported_unit_witness :
  ("S" ∉ supported_units)
  /\ calculate_sazonality example_ts "S" (Uniform 1) 60 = Raise (UnboundLocalError "w").
Proof.
  assert (Hnot : "S" ∉ supported_units).
  { unfold supported_units. intros Hin.
    repeat (apply elem_of_cons in Hin; destruct Hin as [Heq|Hin]; [discriminate|]).
    apply elem_of_nil in Hin. exact Hin. }
  split; [exact Hnot|].
  apply (calculate_sazonality_unsupported_unit example_ts "S" (Uniform 1) 60 Hnot).
Defined.

Lemma calculate_sazonality_returns_witness :
  example_ts <> []
  /\ ("D" ∈ supported_units)
  /\ sum [3; 4] = 7
  /\ exists out, calculate_sazonality example_ts "D" (Variable_ [3; 4]) 7 = Ok out
                 /\ length out = length example_ts.
Proof.
  assert (Hne : example_ts <> []) by discriminate.
  assert (Hin : "D" ∈ supported_units)
    by (repeat first [apply list_elem_of_here | apply list_elem_of_further]).
  split; [exact Hne|]. split; [exact Hin|]. split; [reflexivity|].
  apply (calculate_sazonality_returns example_ts "D" (Variable_ [3; 4]) 7 Hne Hin).
  split; [reflexivity|lia].
Defined.

End TimeDiscretizationFacts.

(** * Properties of [data_agg.py] *)

Module DataAggFacts.
Import Frames DataAgg.

(** ** Running a computation backwards *)

Ltac destruct_matches :=
  repeat match goal with
         | |- context [match ?x with _ => _ end] =>
             lazymatch x with
             | context [match _ with _ => _ end] => fail
             | _ => destruct x eqn:?; simpl
             end
         end.

Ltac invert_run H :=
  repeat match type of H with
         | context [match ?x with _ => _ end] =>
             lazymatch x with
             | context [match _ with _ => _ end] => fail
             | _ => destruct x eqn:?; simpl in H; try discriminate H
             end
         end.

Lemma pbind_Ok {A B} (m : Py A) (k : A -> Py B) w b w' :
  pbind m k w = (Ok b, w') ->
  exists a w1, m w = (Ok a, w1) /\ k a w1 = (Ok b, w').
Proof.
  unfold pbind. destruct (m w) as [[a|e] w1]; [eauto|discriminate].
Qed.

Ltac py_step H :=
  let Hstep := fresh "Hstep" in
  apply pbind_Ok in H; destruct H as (? & ? & Hstep & H);
  unfold get_self, lift, pret, raise, print, set_geo_discretization,
    set_events_data, modify_self in Hstep;
  simpl in Hstep.


(** ** Columns of a table *)

Lemma lookup_col_assign_eq c v cols : lookup_col c (assign_col c v cols) = Some v.
Proof.
  induction cols as [|[c' v'] cols IH]; simpl.
  - rewrite String.eqb_refl. reflexivity.
  - destruct (c' =? c)%string eqn:E; simpl.
    + rewrite String.eqb_refl. reflexivity.
    + rewrite E. exact IH.
Qed.

Lemma lookup_col_assign_ne c c' v cols :
  c <> c' -> lookup_col c (assign_col c' v cols) = lookup_col c cols.
Proof.
  intros Hne. induction cols as [|[c0 v0] cols IH]; simpl.
  - apply String.eqb_neq in Hne. rewrite String.eqb_sym, Hne. reflexivity.
  - destruct (c0 =? c')%string eqn:E; simpl.
    + apply String.eqb_eq in E. subst c0.
      assert (Hf : (c' =? c)%string = false) by (apply String.eqb_neq; congruence).
      rewrite Hf. reflexivity.
    + destruct (c0 =? c)%string; [reflexivity|exact IH].
Qed.

Lemma lookup_col_remove_ne c c' cols :
  c <> c' -> lookup_col c (remove_col c' cols) = lookup_col c cols.
Proof.
  intros Hne. unfold remove_col. induction cols as [|[c0 v0] cols IH]; simpl; [reflexivity|].
  destruct (c0 =? c')%string eqn:E; simpl.
  - apply String.eqb_eq in E. subst c0.
    assert (Hf : (c' =? c)%string = false) by (apply String.eqb_neq; congruence).
    rewrite Hf. exact IH.
  - destruct (c0 =? c)%string; [reflexivity|exact IH].
Qed.

Lemma lookup_col_map_values (f : list value -> list value) c cols :
  lookup_col c (map (fun cv => (fst cv, f (snd cv))) cols) = f <$> lookup_col c cols.
Proof.
  induction cols as [|[c0 v0] cols IH]; simpl; [reflexivity|].
  destruct (c0 =? c)%string; [reflexivity|exact IH].
Qed.

Lemma column_set_column_eq df c v : column (set_column df c v) c = Some v.
Proof. apply lookup_col_assign_eq. Qed.

Lemma column_set_column_ne df c c' v :
  c <> c' -> column (set_column df c' v) c = column df c.
Proof. apply lookup_col_assign_ne. Qed.

Lemma column_drop_column_ne df df' c c' :
  drop_column df c' = Ok df' -> c <> c' -> column df' c = column df c.
Proof.
  unfold drop_column. destruct (column df c'); [|discriminate].
  intros [= <-] Hne. apply lookup_col_remove_ne. exact Hne.
Qed.

Lemma column_keep_rows mask df c :
  column (keep_rows mask df) c = keep mask <$> column df c.
Proof. apply lookup_col_map_values. Qed.

Lemma elem_of_keep {A} (mask : list bool) (l : list A) x : x ∈ keep mask l -> x ∈ l.
Proof.
  revert l. induction mask as [|b mask IH]; intros [|y l]; simpl;
    try (intros Hin; apply elem_of_nil in Hin; tauto).
  destruct b.
  - intros Hin. apply elem_of_cons in Hin. destruct Hin as [->|Hin].
    + apply list_elem_of_here.
    + apply list_elem_of_further. auto.
  - intros Hin. apply list_elem_of_further. auto.
Qed.

Lemma length_range n : length (range n) = n.
Proof. unfold range. rewrite length_seqZ. lia. Qed.

(** ** The name of a new time column *)

Lemma next_t_col_taken fuel i columns :
  next_t_col fuel i columns ∈ columns ->
  forall j, i <= j <= i + Z.of_nat fuel -> t_col_name j ∈ columns.
Proof.
  revert i. induction fuel as [|fuel IH]; intros i; simpl.
  - intros Hin j Hj. assert (j = i) as -> by lia. exact Hin.
  - fold (t_col_name i). destruct (bool_decide (t_col_name i ∈ columns)) eqn:E.
    + apply bool_decide_eq_true in E. intros Hin j Hj.
      destruct (Z.eq_dec j i) as [->|Hne]; [exact E|].
      apply (IH (i + 1) Hin). lia.
    + apply bool_decide_eq_false in E. tauto.
Qed.

(** The loop leaves through [break]: the name it ends with is not a
    column of the table. *)
Lemma next_t_col_fresh columns :
  next_t_col (length columns) 1 columns ∉ columns.
Proof.
  intros Hin.
  pose proof (next_t_col_taken _ _ _ Hin) as Hall.
  set (names := t_col_name <$> seqZ 1 (Z.of_nat (S (length columns)))).
  assert (Hnd : NoDup names).
  { apply NoDup_fmap_2; [|apply NoDup_seqZ].
    intros a b Hab. unfold t_col_name in Hab.
    apply String.app_inj in Hab. apply pretty_Z_inj in Hab. exact Hab. }
  assert (Hsub : names ⊆+ columns).
  { apply NoDup_submseteq; [exact Hnd|].
    intros x Hx. apply list_elem_of_fmap in Hx. destruct Hx as [j [-> Hj]].
    apply elem_of_seqZ in Hj. apply Hall. lia. }
  apply submseteq_length in Hsub. unfold names in Hsub.
  rewrite length_fmap, length_seqZ in Hsub. lia.
Qed.

(** It is the first such name, as in the source. *)
Lemma next_t_col_first columns :
  exists n, next_t_col (length columns) 1 columns = t_col_name n
            /\ 1 <= n
            /\ (t_col_name n ∉ columns)
            /\ forall j, 1 <= j < n -> t_col_name j ∈ columns.
Proof.
  assert (Hgen : forall fuel i,
             exists n, next_t_col fuel i columns = t_col_name n
                       /\ i <= n
                       /\ forall j, i <= j < n -> t_col_name j ∈ columns).
  { induction fuel as [|fuel IH]; intros i; simpl.
    - exists i. split; [reflexivity|]. split; [lia|]. intros j Hj. lia.
    - destruct (bool_decide (t_col_name i ∈ columns)) eqn:E.
      + apply bool_decide_eq_true in E.
        destruct (IH (i + 1)) as [n [Hn [Hle Hall]]].
        exists n. split; [exact Hn|]. split; [lia|].
        intros j Hj. destruct (Z.eq_dec j i) as [->|Hne]; [exact E|].
        apply Hall. lia.
      + exists i. split; [reflexivity|]. split; [lia|]. intros j Hj. lia. }
  destruct (Hgen (length columns) 1) as [n [Hn [Hle Hall]]].
  exists n. split; [exact Hn|]. split; [exact Hle|]. split; [|exact Hall].
  rewrite <- Hn. apply next_t_col_fresh.
Qed.

(** ** The neighbor remap of the hexagonal branch *)

Lemma remap_neighbors_elem d n_list x :
  x ∈ remap_neighbors d n_list <-> exists n, n ∈ n_list /\ d !! n = Some x /\ x <> 0.
Proof.
  unfold remap_neighbors. rewrite list_elem_of_In, in_flat_map. split.
  - intros [n [Hn Hx]]. exists n. rewrite list_elem_of_In. split; [exact Hn|].
    destruct (d !! n) as [i|]; simpl in Hx; [|tauto].
    destruct (i =? 0) eqn:E; simpl in Hx; [tauto|].
    destruct Hx as [->|[]]. apply Z.eqb_neq in E. auto.
  - intros [n [Hn [Hd Hx]]]. exists n. rewrite <- list_elem_of_In. split; [exact Hn|].
    rewrite Hd. simpl. apply Z.eqb_neq in Hx. rewrite Hx. simpl. auto.
Qed.

(** What the rewritten lists hold is always a new id, and never the new
    id 0. *)
Lemma to_dict_value keys vals n x : to_dict keys vals !! n = Some x -> x ∈ vals.
Proof.
  unfold to_dict.
  assert (Hgen : forall kvs (d : gmap Z Z),
             fold_left (fun d kv => match fst kv with
                                    | VInt k => <[k := snd kv]> d
                                    | _ => d
                                    end) kvs d !! n = Some x ->
             d !! n = Some x \/ x ∈ kvs.*2).
  { induction kvs as [|[k v] kvs IH]; intros d; simpl; [auto|].
    intros Hl. apply IH in Hl. destruct Hl as [Hl|Hl].
    - destruct k; simpl in Hl; auto.
      destruct (decide (z = n)) as [->|Hne].
      + rewrite lookup_insert_eq in Hl. injection Hl as <-.
        right. apply list_elem_of_here.
      + rewrite lookup_insert_ne in Hl by exact Hne. auto.
    - right. apply list_elem_of_further. exact Hl. }
  intros Hl. apply Hgen in Hl. destruct Hl as [Hl|Hl].
  - rewrite lookup_empty in Hl. discriminate.
  - apply list_elem_of_fmap in Hl. destruct Hl as [[k v] [-> Hin]].
    simpl. apply elem_of_zip_r in Hin. exact Hin.
Qed.

Lemma remap_neighbors_valid keys vals n_list x :
  x ∈ remap_neighbors (to_dict keys vals) n_list -> x ∈ vals /\ x <> 0.
Proof.
  intros Hx. apply remap_neighbors_elem in Hx. destruct Hx as [n [_ [Hd Hx]]].
  split; [eapply to_dict_value; eauto|exact Hx].
Qed.

Lemma lookup_col_rename_ne c old new cols :
  c <> old -> c <> new ->
  lookup_col c (map (fun cv => if (fst cv =? old)%string then (new, snd cv) else cv) cols)
  = lookup_col c cols.
Proof.
  intros Hold Hnew. induction cols as [|[c0 v0] cols IH]; simpl; [reflexivity|].
  destruct (c0 =? old)%string eqn:E; simpl.
  - apply String.eqb_eq in E. subst c0.
    assert (H1 : (new =? c)%string = false) by (apply String.eqb_neq; congruence).
    assert (H2 : (old =? c)%string = false) by (apply String.eqb_neq; congruence).
    rewrite H1, H2. exact IH.
  - destruct (c0 =? c)%string; [reflexivity|exact IH].
Qed.

Lemma remap_all_elem d neighbors_list new_lists v :
  remap_all d neighbors_list = Ok new_lists -> v ∈ new_lists ->
  exists n_list, VList n_list ∈ neighbors_list /\ v = VList (remap_neighbors d n_list).
Proof.
  unfold remap_all. revert new_lists.
  induction neighbors_list as [|x l IH]; intros new_lists; simpl.
  - intros [= <-] Hin. apply elem_of_nil in Hin. tauto.
  - destruct x; simpl; try discriminate.
    destruct (rmapM _ l) as [rest|] eqn:E; simpl; [|discriminate].
    intros [= <-] Hin. apply elem_of_cons in Hin. destruct Hin as [->|Hin].
    + eexists. split; [apply list_elem_of_here|reflexivity].
    + destruct (IH rest eq_refl Hin) as [n_list [Hn Hv]].
      exists n_list. split; [apply list_elem_of_further; exact Hn|exact Hv].
Qed.

(** X27: after the rewrite of mode [H] every neighbor list holds new ids
    of the table only, each the image of a raw neighbor of the same cell
    list; the new id 0 is never among them. *)
Lemma hex_reindex_neighbors_valid gd w u w' :
  hex_reindex gd w = (Ok u, w') ->
  exists gd' neighbors,
    geo_discretization (self w') = Some gd'
    /\ column gd' "id" = Some (map VInt (df_index gd))
    /\ column gd' "neighbors" = Some neighbors
    /\ forall v, v ∈ neighbors ->
         exists new_list, v = VList new_list
           /\ forall x, x ∈ new_list -> x ∈ df_index gd /\ x <> 0.
Proof.
  intros Hrun.
  unfold hex_reindex, pbind, lift, set_geo_discretization, modify_self,
    reset_index, drop_column, get_column in Hrun.
  simpl in Hrun. invert_run Hrun. injection Hrun as _ <-. simpl.
  match goal with
  | Hremap : remap_all _ _ = Ok ?new |- _ =>
      exists (rename_column
                (mkDataFrame (df_geo gd) (df_crs gd) (range (nrows gd))
                   (("index", map VInt (df_index gd))
                      :: remove_col "id" (assign_col "neighbors" new (df_columns gd))))
                "index" "id"), new;
      split; [reflexivity|]; split; [reflexivity|]; split;
      [ unfold column, rename_column; simpl;
        rewrite lookup_col_rename_ne by discriminate;
        rewrite lookup_col_remove_ne by discriminate;
        apply lookup_col_assign_eq
      | intros v Hv;
        destruct (remap_all_elem _ _ _ _ Hremap Hv) as [n_list [_ ->]];
        eexists; split; [reflexivity|];
        intros x Hx; eapply remap_neighbors_valid; exact Hx ]
  end.
Qed.

Section Facts.
Context `{Collaborators}.

(** C4: with no events data, [add_max_borders] with method [rectangle] or
    [convex] does not raise the documented error.  [__init__] binds
    [events_data] to [None], so [hasattr] holds and the guard lets the call
    through; the call then fails on [None.geometry] with Python's own
    [AttributeError].  The session is left as it was. *)
Theorem add_max_borders_without_events c ti gi ef gf mb gd objs out :
  let s := mkDataAggregator c ti gi ef gf mb None gd in
  let w := mkWorld objs out s in
  hasattr s "events_data" = true
  /\ add_max_borders None (Some "rectangle") w
     = (Raise (AttributeError "'NoneType' object has no attribute 'geometry'"), w)
  /\ add_max_borders None (Some "convex") w
     = (Raise (AttributeError "'NoneType' object has no attribute 'geometry'"), w)
  /\ AttributeError "'NoneType' object has no attribute 'geometry'"
     <> AttributeError msg_inform_events.
Proof.
  intros s w. repeat split; try reflexivity. discriminate.
Qed.

(** X26: the guard of the variable mode, where it fires: the sum of the
    window differs from a non-zero [frequency].  The call raises
    [ValueError] and leaves the session as it was. *)
Lemma variable_window_mismatch_raises seasonality_type window frequency w ev :
  events_data (self w) = Some ev ->
  sum window <> frequency -> frequency <> 0 ->
  add_time_discretization (SType seasonality_type) (Variable_ window) frequency w
  = (Raise (ValueError "Parameter `frequency` must be equal sum of `window`."), w).
Proof.
  intros Hev Hsum Hf. unfold add_time_discretization, pbind, get_self, unwrap.
  rewrite Hev. simpl.
  apply Z.eqb_neq in Hsum, Hf. rewrite Hsum, Hf. reflexivity.
Qed.

(** X28: the errors the methods raise themselves all stand before the
    first assignment to the session: such a failure leaves the state as it
    was. *)
Lemma guards_leave_session_unchanged w :
  (forall method, method <> Some "rectangle" -> method <> Some "convex" ->
     add_max_borders None method w
     = (Raise (ValueError "Please inform `data` or `method` parameter."), w))
  /\ (events_data (self w) = None ->
      forall seasonality_type window frequency,
        add_time_discretization seasonality_type window frequency w
        = (Raise (AttributeError msg_inform_events), w))
  /\ (forall ev seasonality_type window frequency,
        events_data (self w) = Some ev -> window <> 0 -> frequency mod window <> 0 ->
        add_time_discretization (SType seasonality_type) (Uniform window) frequency w
        = (Raise (ValueError "Parameter `frequency` must be a multiple of `window`."), w))
  /\ (max_borders (self w) = None ->
      forall discr_type hex rx ry custom_data,
        add_geo_discretization discr_type hex rx ry custom_data w
        = (Raise (ValueError "Please inform geographical limits using `add_max_borders` method."),
           w))
  /\ (forall borders discr_type hex rx ry custom_data,
        max_borders (self w) = Some borders -> discr_type ∉ ["R"; "H"; "C"; "G"] ->
        add_geo_discretization discr_type hex rx ry custom_data w
        = (Raise (ValueError ("Invalid `discr_type` value " +:+ discr_type +:+ ".")), w))
  /\ (forall borders hex rx ry,
        max_borders (self w) = Some borders ->
        add_geo_discretization "C" hex rx ry None w
        = (Raise (ValueError
                    "Please inform `custom_data` to be used as geographical discretization."),
           w)
        /\ add_geo_discretization "G" hex rx ry None w
           = (Raise (ValueError
                       "Please inform `custom_data` to be used as grpah discretization."),
              w)).
Proof.
  split; [|split; [|split; [|split; [|split]]]].
  - intros method Hr Hc. unfold add_max_borders, pbind, get_self. simpl.
    rewrite !bool_decide_eq_false_2 by assumption. reflexivity.
  - intros Hev st window frequency.
    unfold add_time_discretization, pbind, get_self, unwrap. simpl.
    rewrite Hev. reflexivity.
  - intros ev st window frequency Hev Hw Hmod.
    unfold add_time_discretization, pbind, get_self, unwrap. simpl.
    rewrite Hev. simpl. apply Z.eqb_neq in Hw, Hmod. rewrite Hw, Hmod. reflexivity.
  - intros Hb discr_type hex rx ry cd.
    unfold add_geo_discretization, pbind, get_self, unwrap. simpl.
    rewrite Hb. reflexivity.
  - intros borders discr_type hex rx ry cd Hb Hnot.
    unfold add_geo_discretization, pbind, get_self, unwrap. simpl.
    rewrite Hb. simpl.
    repeat (apply not_elem_of_cons in Hnot;
            let Hne := fresh "Hne" in
            destruct Hnot as [Hne Hnot];
            apply String.eqb_neq in Hne; rewrite Hne).
    reflexivity.
  - intros borders hex rx ry Hb.
    unfold add_geo_discretization, pbind, get_self, unwrap. simpl.
    rewrite Hb. split; reflexivity.
Qed.

(** C2: in variable mode with [frequency = 0] the guard
    [sum(window) != frequency != 0] does not fire although the sum of the
    window differs from [frequency]: the call appends the new column name
    to [time_indexes] and goes on to compute the seasonality index. *)
Theorem variable_window_zero_frequency_not_rejected seasonality_type window w ev :
  events_data (self w) = Some ev ->
  sum window <> 0 ->
  let r := add_time_discretization (SType seasonality_type) (Variable_ window) 0 w in
  time_indexes (self (snd r))
  = time_indexes (self w)
      ++ [next_t_col (length (column_names ev)) 1 (column_names ev)]
  /\ fst r
     = (do ts <- get_column ev "ts";
        do col <- calculate_seasonality ts seasonality_type (Variable_ window) 0;
        Ok tt)%result.
Proof.
  intros Hev Hsum. unfold add_time_discretization, pbind, get_self, unwrap, lift.
  rewrite Hev. simpl.
  rewrite andb_false_r. simpl.
  destruct (get_column ev "ts") as [ts|e]; simpl; [|auto].
  destruct (calculate_seasonality ts seasonality_type (Variable_ window) 0); simpl; auto.
Qed.


(** C3: a call that fails can leave the session changed.  With borders
    set and no events, [add_geo_discretization] in mode [C] stores the new
    table, with its neighbors and centroids, and only then fails on
    [None.drop]: no guard checks the events first, as
    [add_time_discretization] does. *)
Theorem add_geo_discretization_partial_mutation :
  let w := Sample.with_borders in
  let r := add_geo_discretization "C" None None None (Some Sample.two_polygons) w in
  events_data (self w) = None
  /\ fst r = Raise (AttributeError "'NoneType' object has no attribute 'drop'")
  /\ geo_discretization (self w) = None
  /\ (exists gd, geo_discretization (self (snd r)) = Some gd
                 /\ column gd "id" = Some [VInt 0; VInt 1])
  /\ self (snd r) <> self w.
Proof.
  intros w r.
  assert (Hgd : exists gd, geo_discretization (self (snd r)) = Some gd
                           /\ column gd "id" = Some [VInt 0; VInt 1]).
  { eexists. split; vm_compute; reflexivity. }
  repeat split; try (vm_compute; reflexivity); [exact Hgd|].
  destruct Hgd as [gd [Hgd _]]. intros Heq. rewrite Heq in Hgd.
  vm_compute in Hgd. discriminate.
Qed.

(** C1: the remap loses references to a cell that survived.  The raw
    cells 10 and 11 both survive the clipping and get the new ids 0 and 1;
    cell 11 lists raw cell 10 as its neighbor, but its rewritten list is
    empty, because the lookup of raw id 10 yields the new id 0, which the
    test [if corr_index_dict.get(n)] takes for a miss. *)
Theorem hex_reindex_drops_reference_to_first_cell :
  let r := hex_reindex Sample.clipped_cells Sample.fresh_world in
  fst r = Ok tt
  /\ exists gd, geo_discretization (self (snd r)) = Some gd
                /\ column Sample.clipped_cells "id" = Some [VInt 10; VInt 11]
                /\ column Sample.clipped_cells "neighbors" = Some [VList [11]; VList [10]]
                /\ column gd "id" = Some [VInt 0; VInt 1]
                /\ column gd "neighbors" = Some [VList [1]; VList []].
Proof.
  intros r. split; [vm_compute; reflexivity|].
  eexists. repeat split; vm_compute; reflexivity.
Qed.

(** ** The caller's table in [add_events_data] *)

(** C9: when [add_events_data] is given a plain pandas [DataFrame], the
    column [geometry], built by [points_from_xy] from the longitude and
    latitude columns, is written into the caller's own object; this holds
    whatever happens later in the call. *)
Theorem add_events_data_mutates_argument
    events_data_arg datetime_col lat_col lon_col feature_cols datetime_format
    w df lon lat pts :
  objects w !! events_data_arg = Some df ->
  df_geo df = false ->
  column df lon_col = Some lon ->
  column df lat_col = Some lat ->
  points_from_xy lon lat = Ok pts ->
  let w' := snd (add_events_data events_data_arg datetime_col lat_col lon_col
                   feature_cols datetime_format w) in
  objects w' !! events_data_arg = Some (set_column df "geometry" pts)
  /\ column (set_column df "geometry" pts) "geometry" = Some pts.
Proof.
  intros Hobj Hgeo Hlon Hlat Hpts w'. split; [|apply column_set_column_eq].
  unfold w', add_events_data, pbind, get_self, deref, lift, store, get_column.
  rewrite Hobj, Hgeo. simpl. rewrite Hlon, Hlat, Hpts. simpl.
  unfold set_events_data, set_events_features, modify_self, unwrap, pret, raise.
  destruct_matches; apply lookup_insert_eq.
Qed.

(** ** The ids of the discretization table *)

Lemma centroids_and_join_ids w u w' gd :
  centroids_and_join w = (Ok u, w') ->
  geo_discretization (self w) = Some gd ->
  exists gd', geo_discretization (self w') = Some gd'
              /\ column gd' "id" = column gd "id" /\ nrows gd' = nrows gd.
Proof.
  intros Hrun Hgd.
  unfold centroids_and_join, pbind, get_self, unwrap, lift, pret, raise,
    set_geo_discretization, set_events_data, modify_self in Hrun.
  rewrite Hgd in Hrun. simpl in Hrun.
  invert_run Hrun. injection Hrun as _ <-. simpl.
  eexists. split; [reflexivity|]. split; [|reflexivity].
  rewrite !column_set_column_ne by discriminate. reflexivity.
Qed.

Lemma hex_reindex_ids gd w u w' :
  hex_reindex gd w = (Ok u, w') ->
  exists gd', geo_discretization (self w') = Some gd'
              /\ column gd' "id" = Some (map VInt (df_index gd))
              /\ nrows gd' = nrows gd.
Proof.
  intros Hrun.
  unfold hex_reindex, pbind, lift, set_geo_discretization, modify_self,
    reset_index, drop_column, get_column in Hrun.
  simpl in Hrun. invert_run Hrun. injection Hrun as _ <-. simpl.
  eexists. split; [reflexivity|]. split.
  - unfold column, rename_column. simpl. reflexivity.
  - unfold nrows. simpl. apply length_range.
Qed.

Lemma load_custom_data_ids custom_data msg w u w' :
  load_custom_data custom_data msg w = (Ok u, w') ->
  exists gd, geo_discretization (self w') = Some gd /\ contiguous_ids gd.
Proof.
  intros Hrun. unfold contiguous_ids.
  unfold load_custom_data in Hrun. destruct custom_data as [cd|]; [|discriminate].
  unfold pbind, get_self, lift, pret, raise, print, set_geo_discretization, modify_self,
    select_columns, get_crs, set_crs, to_crs, get_column in Hrun.
  simpl in Hrun. invert_run Hrun; injection Hrun as _ <-; simpl;
    (eexists; split; [reflexivity|]); unfold column, nrows; simpl;
    rewrite ?String.eqb_refl; try reflexivity.
Qed.

Lemma assign_nearest_node_keeps_table w :
  geo_discretization (self (snd (assign_nearest_node w)))
  = geo_discretization (self w).
Proof.
  unfold assign_nearest_node, pbind, get_self, unwrap, lift, pret, raise,
    set_events_data, modify_self.
  simpl. destruct_matches; simpl; congruence.
Qed.

Lemma rectangle_discretization_ids gdf nx ny gd :
  rectangle_discretization gdf nx ny = Ok gd -> contiguous_ids gd.
Proof.
  unfold rectangle_discretization, contiguous_ids.
  destruct nx as [nx|]; [|discriminate]. destruct ny as [ny|]; [|discriminate].
  intros [= <-]. unfold column, nrows. simpl. rewrite length_range. reflexivity.
Qed.

(** C5: after a call of [add_geo_discretization] that returns, in any of
    the modes [R], [H], [C] and [G], the column [id] of the table is
    exactly [0, 1, ..., N-1] for its [N] rows; in mode [H] it is assigned
    anew after the clipping. *)
Theorem add_geo_discretization_contiguous_ids
    discr_type hex_discr_param rect_discr_param_x rect_discr_param_y custom_data w w' :
  add_geo_discretization discr_type hex_discr_param rect_discr_param_x
    rect_discr_param_y custom_data w = (Ok tt, w') ->
  exists gd, geo_discretization (self w') = Some gd
             /\ column gd "id" = Some (map VInt (range (nrows gd))).
Proof.
  intros Hrun. unfold add_geo_discretization in Hrun.
  py_step Hrun. injection Hstep as <- <-.
  py_step Hrun. destruct (max_borders (self w)) as [borders|] eqn:Hb;
    simpl in Hstep; [|discriminate]. injection Hstep as <- <-.
  destruct (discr_type =? "R")%string.
  { py_step Hrun. injection Hstep as Hgd <-.
    py_step Hrun. injection Hstep as _ <-.
    eapply centroids_and_join_ids in Hrun; [|reflexivity].
    destruct Hrun as [gd' [Hgd' [Hid Hn]]].
    exists gd'. split; [exact Hgd'|].
    rewrite Hid, Hn. eapply rectangle_discretization_ids. exact Hgd. }
  destruct (discr_type =? "H")%string.
  { py_step Hrun. injection Hstep as _ <-.
    py_step Hrun. injection Hstep as _ <-.
    py_step Hrun. injection Hstep as _ <-.
    py_step Hrun. injection Hstep as _ <-.
    py_step Hrun. injection Hstep as _ <-.
    py_step Hrun. injection Hstep as _ <-.
    py_step Hrun. injection Hstep as _ <-.
    py_step Hrun. injection Hstep as Hmerge <-.
    py_step Hrun. injection Hstep as _ <-.
    py_step Hrun. injection Hstep as _ <-.
    py_step Hrun. apply hex_reindex_ids in Hstep.
    destruct Hstep as [gd1 [Hgd1 [Hid1 Hn1]]].
    eapply centroids_and_join_ids in Hrun; [|exact Hgd1].
    destruct Hrun as [gd' [Hgd' [Hid Hn]]].
    exists gd'. split; [exact Hgd'|].
    rewrite Hid, Hn, Hid1, Hn1.
    unfold pd_merge in Hmerge.
    destruct (merge_on_id _ _ true) as [nc|]; [|discriminate].
    injection Hmerge as <-. unfold nrows. simpl. rewrite length_range. reflexivity. }
  destruct (discr_type =? "C")%string.
  { py_step Hrun. apply load_custom_data_ids in Hstep.
    destruct Hstep as [gd1 [Hgd1 Hid1]].
    py_step Hrun. injection Hstep as <- <-.
    py_step Hrun. rewrite Hgd1 in Hstep. injection Hstep as <- <-.
    py_step Hrun. injection Hstep as _ <-.
    py_step Hrun. injection Hstep as _ <-.
    py_step Hrun. injection Hstep as _ <-.
    eapply centroids_and_join_ids in Hrun; [|reflexivity].
    destruct Hrun as [gd' [Hgd' [Hid Hn]]].
    exists gd'. split; [exact Hgd'|].
    rewrite Hid, Hn. rewrite column_set_column_ne by discriminate. exact Hid1. }
  destruct (discr_type =? "G")%string.
  { py_step Hrun. apply load_custom_data_ids in Hstep.
    destruct Hstep as [gd1 [Hgd1 Hid1]].
    exists gd1. split; [|exact Hid1].
    rewrite <- Hgd1.
    replace w' with (snd (assign_nearest_node x0)) by (rewrite Hrun; reflexivity).
    apply assign_nearest_node_keeps_table. }
  discriminate.
Qed.

(** ** Events and graph nodes *)

Lemma invert_enumerate_lookup l n k :
  invert_enumerate l !! n = Some k -> 0 <= k /\ l !! Z.to_nat k = Some n.
Proof.
  unfold invert_enumerate, enumerate.
  assert (Hgen : forall l start (d : gmap Z Z),
             fold_left (fun d kv => <[snd kv := fst kv]> d) (enumerate_from start l) d !! n
             = Some k ->
             d !! n = Some k
             \/ (start <= k /\ l !! Z.to_nat (k - start) = Some n)).
  { clear l. induction l as [|x l IH]; intros start d; simpl; [auto|].
    intros Hl. apply IH in Hl. destruct Hl as [Hl|[Hk Hl]].
    - destruct (decide (x = n)) as [->|Hne].
      + rewrite lookup_insert_eq in Hl. injection Hl as <-.
        right. split; [lia|]. replace (start - start) with 0 by lia. reflexivity.
      + rewrite lookup_insert_ne in Hl by exact Hne. auto.
    - right. split; [lia|].
      replace (Z.to_nat (k - start)) with (S (Z.to_nat (k - (start + 1)))) by lia.
      exact Hl. }
  intros Hl. apply Hgen in Hl. destruct Hl as [Hl|[Hk Hl]].
  - rewrite lookup_empty in Hl. discriminate.
  - rewrite Z.sub_0_r in Hl. auto.
Qed.

Lemma elem_of_unique_from seen l x : x ∈ unique_from seen l -> x ∈ l.
Proof.
  revert seen. induction l as [|y l IH]; intros seen; simpl; [auto|].
  destruct (bool_decide (y ∈ seen)).
  - intros Hin. apply list_elem_of_further. eauto.
  - intros Hin. apply elem_of_cons in Hin. destruct Hin as [->|Hin].
    + apply list_elem_of_here.
    + apply list_elem_of_further. eauto.
Qed.

Lemma elem_of_int_values col n : n ∈ int_values col -> VInt n ∈ col.
Proof.
  unfold int_values. rewrite list_elem_of_omap. intros [v [Hv Hn]].
  destruct v; try discriminate. injection Hn as ->. exact Hv.
Qed.

Lemma map_dict_int d v k : map_dict d v = VInt k -> exists n, v = VInt n /\ d !! n = Some k.
Proof.
  destruct v; simpl; try discriminate.
  destruct (d !! z) as [k'|] eqn:E; [|discriminate].
  intros [= ->]. eauto.
Qed.

Lemma load_custom_data_keeps custom_data msg w :
  let w' := snd (load_custom_data custom_data msg w) in
  events_data (self w') = events_data (self w)
  /\ max_borders (self w') = max_borders (self w)
  /\ crs (self w') = crs (self w).
Proof.
  unfold load_custom_data, pbind, get_self, lift, pret, raise, print,
    set_geo_discretization, modify_self.
  simpl. destruct_matches; auto.
Qed.

(** C8: after the discretization by graph nodes (mode [G]), an event
    whose point is not within the border region has a null cell id,
    whatever node is nearest to it, and every cell id given to an event
    occurs in the column of the assignments and stands for a node that the
    nearest-node join paired with an event. *)
Theorem graph_node_assignment
    hex_discr_param rect_discr_param_x rect_discr_param_y custom_data w w' :
  add_geo_discretization "G" hex_discr_param rect_discr_param_x
    rect_discr_param_y custom_data w = (Ok tt, w') ->
  exists ev0 gd ev1 node_ids borders border_geoms border ev geoms gdiscr,
    events_data (self w) = Some ev0
    /\ nearest_join (crs (self w)) ev0 gd = Ok ev1
    /\ column ev1 "node_id" = Some node_ids
    /\ max_borders (self w) = Some borders
    /\ column borders "geometry" = Some border_geoms
    /\ head border_geoms = Some border
    /\ events_data (self w') = Some ev
    /\ column ev "geometry" = Some geoms
    /\ column ev "gdiscr" = Some gdiscr
    /\ outside_is_null border geoms gdiscr
    /\ no_orphan_ids node_ids gdiscr.
Proof.
  intros Hrun. unfold add_geo_discretization in Hrun.
  py_step Hrun. injection Hstep as <- <-.
  py_step Hrun. destruct (max_borders (self w)) as [borders|] eqn:Hb;
    simpl in Hstep; [|discriminate]. injection Hstep as <- <-.
  simpl in Hrun. py_step Hrun.
  pose proof (load_custom_data_keeps custom_data
                "Please inform `custom_data` to be used as grpah discretization." w)
    as Hkeep.
  rewrite Hstep in Hkeep. simpl in Hkeep. destruct Hkeep as [Hev [Hmb Hcrs]].
  clear Hstep.
  unfold assign_nearest_node, pbind, get_self, unwrap, lift, pret, raise,
    set_events_data, modify_self in Hrun.
  simpl in Hrun. rewrite Hev, Hmb, Hcrs, Hb in Hrun. simpl in Hrun.
  destruct (events_data (self w)) as [ev0|]; simpl in Hrun; [|discriminate].
  destruct (geo_discretization (self x0)) as [gd|]; simpl in Hrun; [|discriminate].
  destruct (nearest_join (crs (self w)) ev0 gd) as [ev1|] eqn:Hjoin;
    simpl in Hrun; [|discriminate].
  unfold get_column in Hrun.
  destruct (column ev1 "node_id") as [node_ids|] eqn:Hnode; simpl in Hrun; [|discriminate].
  set (ev2 := set_column ev1 "gdiscr" _) in Hrun.
  destruct (drop_column ev2 "node_id") as [ev3|] eqn:Hdrop; simpl in Hrun; [|discriminate].
  destruct (reset_index ev3) as [?|]; simpl in Hrun; [|discriminate].
  set (ev4 := keep_rows _ ev3) in Hrun.
  destruct (column ev4 "geometry") as [geoms|] eqn:Hgeoms; simpl in Hrun; [|discriminate].
  destruct (column borders "geometry") as [border_geoms|] eqn:Hbg;
    simpl in Hrun; [|discriminate].
  destruct (head border_geoms) as [border|] eqn:Hhead; simpl in Hrun; [|discriminate].
  destruct (existsb is_na geoms); simpl in Hrun; [discriminate|].
  destruct (column ev4 "gdiscr") as [gdiscr4|] eqn:Hgdiscr; simpl in Hrun; [|discriminate].
  injection Hrun as <-. simpl.
  exists ev0, gd, ev1, node_ids, borders, border_geoms, border.
  eexists. exists geoms. eexists.
  repeat (split; [first [reflexivity | eassumption]|]).
  split; [rewrite column_set_column_ne by discriminate; exact Hgeoms|].
  split; [apply column_set_column_eq|].
  assert (Hfrom : forall v, v ∈ gdiscr4 ->
            v ∈ map (map_dict (invert_enumerate (unique (int_values node_ids)))) node_ids).
  { intros v Hv. unfold ev4 in Hgdiscr. rewrite column_keep_rows in Hgdiscr.
    rewrite (column_drop_column_ne _ _ "gdiscr" _ Hdrop) in Hgdiscr by discriminate.
    unfold ev2 in Hgdiscr. rewrite column_set_column_eq in Hgdiscr.
    simpl in Hgdiscr. injection Hgdiscr as <-. eapply elem_of_keep. exact Hv. }
  split.
  - intros i g d Hg Hd Hout. unfold null_outside in Hd.
    apply lookup_zip_with_Some in Hd. destruct Hd as [g' [d' [-> [Hg' _]]]].
    rewrite Hg in Hg'. injection Hg' as <-. rewrite Hout. reflexivity.
  - intros i k Hk. split; [eapply list_elem_of_lookup_2; exact Hk|].
    unfold null_outside in Hk.
    apply lookup_zip_with_Some in Hk. destruct Hk as [g' [d' [Hval [_ Hd']]]].
    destruct (within g' border); simpl in Hval; [|discriminate]. subst d'.
    apply list_elem_of_lookup_2, Hfrom, list_elem_of_fmap in Hd'.
    destruct Hd' as [v [Hv _]]. symmetry in Hv.
    apply map_dict_int in Hv. destruct Hv as [n [-> Hn]].
    apply invert_enumerate_lookup in Hn. destruct Hn as [Hk0 Hn].
    split; [exact Hk0|]. exists n. split; [|exact Hn].
    apply elem_of_int_values. eapply elem_of_unique_from.
    eapply list_elem_of_lookup_2. exact Hn.
Qed.


(** ** What a method leaves alone *)

Lemma keeps_pbind {A B X} (f : world -> X) (m : Py A) (k : A -> Py B) :
  keeps f m -> (forall a, keeps f (k a)) -> keeps f (pbind m k).
Proof.
  intros Hm Hk w. unfold pbind. specialize (Hm w).
  destruct (m w) as [[a|e] w1]; simpl in *; [rewrite Hk|]; exact Hm.
Qed.

Ltac keeps_step :=
  first
    [ apply keeps_pbind; [|intros ?]
    | solve [intros ?; reflexivity]
    | solve [intros ?; unfold deref; destruct_matches; reflexivity]
    | match goal with
      | |- keeps _ (match ?x with _ => _ end) => destruct x
      end
    | progress unfold unwrap, hex_reindex, load_custom_data, centroids_and_join,
        assign_nearest_node ].

(** X10: [add_max_borders] changes nothing but the borders (and the
    console): the caller's objects, the events, the discretization table
    and the lists of the session are as before, whether the call returns
    or raises. *)
Theorem add_max_borders_frame data method w :
  let w' := snd (add_max_borders data method w) in
  objects w' = objects w
  /\ crs (self w') = crs (self w)
  /\ time_indexes (self w') = time_indexes (self w)
  /\ geo_index (self w') = geo_index (self w)
  /\ events_features (self w') = events_features (self w)
  /\ geo_features (self w') = geo_features (self w)
  /\ events_data (self w') = events_data (self w)
  /\ geo_discretization (self w') = geo_discretization (self w).
Proof.
  assert (Hk : keeps (fun w => (objects w, crs (self w), time_indexes (self w),
                                geo_index (self w), events_features (self w),
                                geo_features (self w), events_data (self w),
                                geo_discretization (self w)))
                 (add_max_borders data method)).
  { unfold add_max_borders. repeat keeps_step. }
  specialize (Hk w). simpl. injection Hk as -> -> -> -> -> -> -> ->.
  repeat split; reflexivity.
Qed.

(** X11: [add_time_discretization] changes nothing but the events table
    and the list of time columns. *)
Theorem add_time_discretization_frame seasonality_type window frequency w :
  let w' := snd (add_time_discretization seasonality_type window frequency w) in
  objects w' = objects w
  /\ stdout w' = stdout w
  /\ crs (self w') = crs (self w)
  /\ geo_index (self w') = geo_index (self w)
  /\ events_features (self w') = events_features (self w)
  /\ geo_features (self w') = geo_features (self w)
  /\ max_borders (self w') = max_borders (self w)
  /\ geo_discretization (self w') = geo_discretization (self w).
Proof.
  assert (Hk : keeps (fun w => (objects w, stdout w, crs (self w),
                                geo_index (self w), events_features (self w),
                                geo_features (self w), max_borders (self w),
                                geo_discretization (self w)))
                 (add_time_discretization seasonality_type window frequency)).
  { unfold add_time_discretization. repeat keeps_step. }
  specialize (Hk w). simpl. injection Hk as -> -> -> -> -> -> -> ->.
  repeat split; reflexivity.
Qed.

(** X12: [add_geo_discretization] changes nothing but the discretization
    table, the events table and the console; in particular the borders
    and the list of time columns are as before. *)
Theorem add_geo_discretization_frame
    discr_type hex_discr_param rect_discr_param_x rect_discr_param_y custom_data w :
  let w' := snd (add_geo_discretization discr_type hex_discr_param rect_discr_param_x
                   rect_discr_param_y custom_data w) in
  objects w' = objects w
  /\ crs (self w') = crs (self w)
  /\ time_indexes (self w') = time_indexes (self w)
  /\ geo_index (self w') = geo_index (self w)
  /\ events_features (self w') = events_features (self w)
  /\ geo_features (self w') = geo_features (self w)
  /\ max_borders (self w') = max_borders (self w).
Proof.
  assert (Hk : keeps (fun w => (objects w, crs (self w), time_indexes (self w),
                                geo_index (self w), events_features (self w),
                                geo_features (self w), max_borders (self w)))
                 (add_geo_discretization discr_type hex_discr_param rect_discr_param_x
                    rect_discr_param_y custom_data)).
  { unfold add_geo_discretization. repeat keeps_step. }
  specialize (Hk w). simpl. injection Hk as -> -> -> -> -> -> ->.
  repeat split; reflexivity.
Qed.

(** X13: [add_geo_variable] changes nothing but the discretization table,
    the list of geo features and the console. *)
Theorem add_geo_variable_frame data w :
  let w' := snd (add_geo_variable data w) in
  objects w' = objects w
  /\ crs (self w') = crs (self w)
  /\ time_indexes (self w') = time_indexes (self w)
  /\ geo_index (self w') = geo_index (self w)
  /\ events_features (self w') = events_features (self w)
  /\ max_borders (self w') = max_borders (self w)
  /\ events_data (self w') = events_data (self w).
Proof.
  assert (Hk : keeps (fun w => (objects w, crs (self w), time_indexes (self w),
                                geo_index (self w), events_features (self w),
                                max_borders (self w), events_data (self w)))
                 (add_geo_variable data)).
  { unfold add_geo_variable. repeat keeps_step. }
  specialize (Hk w). simpl. injection Hk as -> -> -> -> -> -> ->.
  repeat split; reflexivity.
Qed.

(** X14: [add_events_data] touches no object of the caller other than its
    argument, and in the session nothing but the events table and the
    list of event features: the list of time columns and the
    discretization table of an earlier events table stay in place. *)
Theorem add_events_data_frame
    events_data_arg datetime_col lat_col lon_col feature_cols datetime_format w :
  let w' := snd (add_events_data events_data_arg datetime_col lat_col lon_col
                   feature_cols datetime_format w) in
  (forall l, l <> events_data_arg -> objects w' !! l = objects w !! l)
  /\ stdout w' = stdout w
  /\ crs (self w') = crs (self w)
  /\ time_indexes (self w') = time_indexes (self w)
  /\ geo_index (self w') = geo_index (self w)
  /\ geo_features (self w') = geo_features (self w)
  /\ max_borders (self w') = max_borders (self w)
  /\ geo_discretization (self w') = geo_discretization (self w).
Proof.
  intros w'. split.
  - intros l Hl.
    assert (Hk : keeps (fun w => objects w !! l)
                   (add_events_data events_data_arg datetime_col lat_col lon_col
                      feature_cols datetime_format)).
    { unfold add_events_data. repeat keeps_step.
      intros w0. simpl. apply lookup_insert_ne. congruence. }
    apply Hk.
  - assert (Hk : keeps (fun w => (stdout w, crs (self w), time_indexes (self w),
                                  geo_index (self w), geo_features (self w),
                                  max_borders (self w), geo_discretization (self w)))
                   (add_events_data events_data_arg datetime_col lat_col lon_col
                      feature_cols datetime_format)).
    { unfold add_events_data. repeat keeps_step. }
    specialize (Hk w). fold w' in Hk. injection Hk as -> -> -> -> -> -> ->.
    repeat split; reflexivity.
Qed.

(** ** Time columns *)

Lemma names_assign_col_fresh c v cols :
  c ∉ map fst cols -> map fst (assign_col c v cols) = map fst cols ++ [c].
Proof.
  induction cols as [|[c0 v0] cols IH]; simpl; [reflexivity|].
  intros Hnot. apply not_elem_of_cons in Hnot. destruct Hnot as [Hne Hnot].
  assert (Hf : (c0 =? c)%string = false) by (apply String.eqb_neq; congruence).
  rewrite Hf. simpl. f_equal. apply IH. exact Hnot.
Qed.

Lemma names_assign_col_present c v cols :
  is_Some (lookup_col c cols) -> map fst (assign_col c v cols) = map fst cols.
Proof.
  induction cols as [|[c0 v0] cols IH]; simpl.
  - intros [x Hx]. discriminate.
  - destruct (c0 =? c)%string eqn:E; simpl.
    + apply String.eqb_eq in E. subst. reflexivity.
    + intros Hs. f_equal. apply IH. exact Hs.
Qed.

Lemma lookup_col_not_in c cols : c ∉ map fst cols -> lookup_col c cols = None.
Proof.
  induction cols as [|[c0 v0] cols IH]; simpl; [reflexivity|].
  intros Hnot. apply not_elem_of_cons in Hnot. destruct Hnot as [Hne Hnot].
  assert (Hf : (c0 =? c)%string = false) by (apply String.eqb_neq; congruence).
  rewrite Hf. apply IH. exact Hnot.
Qed.

(** X15: a call of [add_time_discretization] that returns adds exactly one
    column to the events table and overwrites none: the new column is
    [tdiscr_n] for the least [n >= 1] whose name is free, it comes last,
    every other column is as before, and its name is appended to
    [time_indexes]. *)
Theorem add_time_discretization_adds_column seasonality_type window frequency w w' :
  add_time_discretization seasonality_type window frequency w = (Ok tt, w') ->
  exists ev n col,
    events_data (self w) = Some ev
    /\ 1 <= n
    /\ (t_col_name n ∉ column_names ev)
    /\ (forall j, 1 <= j < n -> t_col_name j ∈ column_names ev)
    /\ events_data (self w') = Some (set_column ev (t_col_name n) col)
    /\ column_names (set_column ev (t_col_name n) col) = column_names ev ++ [t_col_name n]
    /\ (forall c, c <> t_col_name n ->
          column (set_column ev (t_col_name n) col) c = column ev c)
    /\ time_indexes (self w') = time_indexes (self w) ++ [t_col_name n].
Proof.
  intros Hrun.
  unfold add_time_discretization, pbind, get_self, unwrap, lift, pret, raise,
    set_time_indexes, set_events_data, modify_self in Hrun.
  simpl in Hrun.
  destruct (events_data (self w)) as [ev|] eqn:Hev; simpl in Hrun; [|discriminate].
  destruct (next_t_col_first (column_names ev)) as [n [Hn [Hle [Hfresh Hfirst]]]].
  rewrite Hn in Hrun.
  assert (Hgoal : forall col,
             w' = mkWorld (objects w) (stdout w)
                    (mkDataAggregator (crs (self w)) (time_indexes (self w) ++ [t_col_name n])
                       (geo_index (self w)) (events_features (self w))
                       (geo_features (self w)) (max_borders (self w))
                       (Some (set_column ev (t_col_name n) col))
                       (geo_discretization (self w))) ->
             exists ev0 n0 col0,
               Some ev = Some ev0 /\ 1 <= n0 /\ (t_col_name n0 ∉ column_names ev0)
               /\ (forall j, 1 <= j < n0 -> t_col_name j ∈ column_names ev0)
               /\ events_data (self w') = Some (set_column ev0 (t_col_name n0) col0)
               /\ column_names (set_column ev0 (t_col_name n0) col0)
                  = column_names ev0 ++ [t_col_name n0]
               /\ (forall c, c <> t_col_name n0 ->
                     column (set_column ev0 (t_col_name n0) col0) c = column ev0 c)
               /\ time_indexes (self w') = time_indexes (self w) ++ [t_col_name n0]).
  { intros col ->. exists ev, n, col. simpl.
    repeat (split; [first [reflexivity | assumption]|]).
    split; [apply names_assign_col_fresh; exact Hfresh|].
    split; [|reflexivity].
    intros c Hc. apply column_set_column_ne. exact Hc. }
  invert_run Hrun; injection Hrun as <-; eapply Hgoal; reflexivity.
Qed.

(** X16: [add_time_discretization] appends the new name to [time_indexes]
    before it reads the column [ts].  On an events table without [ts]
    (events given without a datetime column) a call whose parameters pass
    the checks fails with [KeyError] and leaves in [time_indexes] the name
    of a column that does not exist. *)
Theorem add_time_discretization_without_ts seasonality_type window frequency w ev :
  events_data (self w) = Some ev ->
  column ev "ts" = None ->
  match window with
  | Uniform window => window <> 0 /\ frequency mod window = 0
  | Variable_ window => sum window = frequency
  end ->
  let r := add_time_discretization (SType seasonality_type) window frequency w in
  let t_col := next_t_col (length (column_names ev)) 1 (column_names ev) in
  fst r = Raise (KeyError "ts")
  /\ time_indexes (self (snd r)) = time_indexes (self w) ++ [t_col]
  /\ events_data (self (snd r)) = Some ev
  /\ column ev t_col = None.
Proof.
  intros Hev Hts Hwin r t_col.
  assert (Hfree : column ev t_col = None).
  { apply lookup_col_not_in. apply next_t_col_fresh. }
  unfold r, add_time_discretization, pbind, get_self, unwrap, lift, pret, raise,
    set_time_indexes, set_events_data, modify_self, get_column.
  rewrite Hev. simpl. rewrite Hts.
  destruct window as [k|l].
  - destruct Hwin as [Hk Hmod]. apply Z.eqb_neq in Hk. rewrite Hk, Hmod. simpl.
    repeat split; first [reflexivity | assumption].
  - apply Z.eqb_eq in Hwin. rewrite Hwin. simpl.
    repeat split; first [reflexivity | assumption].
Qed.

(** ** The events table *)

Lemma to_crs_Ok df target d :
  to_crs df target = Ok d ->
  df_crs d = Some target /\ df_geo d = true /\ df_index d = df_index df
  /\ column_names d = column_names df
  /\ forall c, c <> "geometry" -> column d c = column df c.
Proof.
  unfold to_crs, get_column.
  destruct (df_geo df); simpl; [|discriminate].
  destruct (df_crs df); [|discriminate].
  destruct (column df "geometry") as [geoms|] eqn:Hg; simpl; [|discriminate].
  intros [= <-]. simpl. repeat split; try reflexivity.
  - unfold column_names. simpl. apply names_assign_col_present.
    unfold column in Hg. rewrite Hg. eauto.
  - intros c Hc. unfold column. simpl. apply lookup_col_assign_ne. exact Hc.
Qed.

Lemma set_crs_Ok df crs d :
  set_crs df crs = Ok d ->
  df_crs d = Some crs /\ df_geo d = df_geo df /\ df_index d = df_index df
  /\ df_columns d = df_columns df.
Proof.
  unfold set_crs. destruct (df_crs df) as [c|] eqn:Hc.
  - destruct (String.eqb_spec c crs) as [->|]; [|discriminate].
    intros [= <-]. auto.
  - intros [= <-]. simpl. auto.
Qed.

Lemma select_columns_Ok df cs d :
  select_columns df cs = Ok d ->
  column_names d = cs /\ df_crs d = df_crs df /\ df_geo d = df_geo df
  /\ df_index d = df_index df.
Proof.
  unfold select_columns.
  destruct (rmapM _ cs) as [cols|] eqn:E; simpl; [|discriminate].
  intros [= <-]. unfold column_names. simpl. repeat split; try reflexivity.
  revert cols E. induction cs as [|c cs IH]; intros cols; simpl.
  - intros [= <-]. reflexivity.
  - destruct (get_column df c); simpl; [|discriminate].
    destruct (rmapM _ cs) as [rest|]; simpl; [|discriminate].
    intros [= <-]. simpl. f_equal. apply IH. reflexivity.
Qed.

(** X17: after a call of [add_events_data] that returns, the session holds
    a geopandas table in its own reference frame whose columns are exactly
    the feature columns followed by [geometry] (and [ts] when a datetime
    column was named), and the feature columns are appended to
    [events_features]. *)
Theorem add_events_data_result
    events_data_arg datetime_col lat_col lon_col feature_cols datetime_format w w' :
  add_events_data events_data_arg datetime_col lat_col lon_col feature_cols
    datetime_format w = (Ok tt, w') ->
  exists ev,
    events_data (self w') = Some ev
    /\ column_names ev
       = feature_cols
           ++ match datetime_col with Some _ => ["geometry"; "ts"] | None => ["geometry"] end
    /\ df_crs ev = Some (crs (self w))
    /\ df_geo ev = true
    /\ events_features (self w') = events_features (self w) ++ feature_cols.
Proof.
  intros Hrun.
  unfold add_events_data, pbind, get_self, deref, store, unwrap, lift, pret, raise,
    set_events_data, set_events_features, modify_self in Hrun.
  simpl in Hrun.
  invert_run Hrun; injection Hrun as <-; simpl;
    (eexists; split; [reflexivity|]);
    repeat match goal with
           | Hs : select_columns _ _ = Ok _ |- _ =>
               apply select_columns_Ok in Hs; destruct Hs as (? & ? & ? & ?)
           | Hs : to_crs _ _ = Ok _ |- _ =>
               apply to_crs_Ok in Hs; destruct Hs as (? & ? & ? & ? & ?)
           | Hs : set_crs _ _ = Ok _ |- _ =>
               apply set_crs_Ok in Hs; destruct Hs as (? & ? & ? & ?)
           | Hs : negb _ = false |- _ => apply negb_false_iff in Hs
           end;
    unfold take_rows, set_column, with_columns in *; simpl in *;
    repeat split; congruence.
Qed.

(** X18: a missing coordinate column stops [add_events_data] on a plain
    [DataFrame] before anything is written: the call raises [KeyError]
    for the longitude column, or else for the latitude column, and the
    caller's table and the session are as before. *)
Theorem add_events_data_missing_coordinates
    events_data_arg datetime_col lat_col lon_col feature_cols datetime_format w df :
  objects w !! events_data_arg = Some df ->
  df_geo df = false ->
  column df lon_col = None \/ column df lat_col = None ->
  add_events_data events_data_arg datetime_col lat_col lon_col feature_cols
    datetime_format w
  = (Raise (KeyError match column df lon_col with
                     | Some _ => lat_col
                     | None => lon_col
                     end), w).
Proof.
  intros Hobj Hgeo Hmiss.
  unfold add_events_data, pbind, get_self, deref, lift, get_column.
  rewrite Hobj, Hgeo. simpl.
  destruct (column df lon_col) as [lon|]; simpl; [|reflexivity].
  destruct Hmiss as [Hm|Hm]; [discriminate|]. rewrite Hm. reflexivity.
Qed.

Lemma rmapM_first_error {A B} (f : A -> result B) pre c rest e :
  Forall (fun a => exists b, f a = Ok b) pre -> f c = Raise e ->
  rmapM f (pre ++ c :: rest) = Raise e.
Proof.
  intros Hpre Hc. induction Hpre as [|a pre [b Hb] _ IH]; simpl.
  - rewrite Hc. reflexivity.
  - rewrite Hb. simpl. rewrite IH. reflexivity.
Qed.

(** X19: a missing feature column is found last.  On a plain [DataFrame]
    with its coordinate columns, [add_events_data] without a datetime
    column first writes [geometry] into the caller's table, stores the
    whole reprojected table in the session and extends [events_features];
    only then the selection of the columns raises [KeyError] (tagged here
    with the first feature column that the table lacks). *)
Theorem add_events_data_missing_feature
    events_data_arg lat_col lon_col present missing rest datetime_format w df lon lat pts :
  objects w !! events_data_arg = Some df ->
  df_geo df = false ->
  df_crs df = None ->
  column df lon_col = Some lon ->
  column df lat_col = Some lat ->
  points_from_xy lon lat = Ok pts ->
  Forall (fun c => c = "geometry" \/ is_Some (column df c)) present ->
  missing <> "geometry" ->
  column df missing = None ->
  let r := add_events_data events_data_arg None lat_col lon_col
             (present ++ missing :: rest) datetime_format w in
  fst r = Raise (KeyError missing)
  /\ objects (snd r) !! events_data_arg = Some (set_column df "geometry" pts)
  /\ (exists ev, events_data (self (snd r)) = Some ev
                 /\ column_names ev = column_names (set_column df "geometry" pts)
                 /\ df_crs ev = Some (crs (self w)))
  /\ events_features (self (snd r))
     = events_features (self w) ++ present ++ missing :: rest.
Proof.
  intros Hobj Hgeo Hcrs Hlon Hlat Hpts Hpresent Hne Hmiss r.
  set (g := mkDataFrame true (Some (crs (self w))) (df_index df)
              (assign_col "geometry"
                 (map (reproject_value "epsg:4326" (crs (self w))) pts)
                 (assign_col "geometry" pts (df_columns df)))).
  assert (Hsel : select_columns g ((present ++ missing :: rest) ++ ["geometry"])
                 = Raise (KeyError missing)).
  { unfold select_columns. rewrite <- app_assoc. simpl.
    rewrite (rmapM_first_error _ present missing (rest ++ ["geometry"]) (KeyError missing)).
    - reflexivity.
    - eapply Forall_impl; [exact Hpresent|]. intros c Hc. simpl in Hc.
      unfold get_column, column, g. simpl.
      destruct (String.eqb_spec c "geometry") as [->|Hcg].
      + rewrite lookup_col_assign_eq. simpl. eauto.
      + destruct Hc as [?|[v Hv]]; [congruence|].
        rewrite !lookup_col_assign_ne by exact Hcg.
        unfold column in Hv. rewrite Hv. simpl. eauto.
    - unfold get_column, column, g. simpl.
      rewrite !lookup_col_assign_ne by exact Hne.
      unfold column in Hmiss. rewrite Hmiss. reflexivity. }
  assert (Hrun : r = (Raise (KeyError missing),
                      mkWorld (<[events_data_arg := set_column df "geometry" pts]> (objects w))
                        (stdout w)
                        (mkDataAggregator (crs (self w)) (time_indexes (self w))
                           (geo_index (self w))
                           (events_features (self w) ++ present ++ missing :: rest)
                           (geo_features (self w)) (max_borders (self w)) (Some g)
                           (geo_discretization (self w))))).
  { unfold r, add_events_data, pbind, get_self, deref, store, lift, get_column.
    rewrite Hobj, Hgeo. simpl. rewrite Hlon, Hlat, Hpts. simpl.
    unfold set_crs, GeoDataFrame. simpl. rewrite Hcrs. simpl.
    unfold to_crs, get_column, column. simpl. rewrite lookup_col_assign_eq. simpl.
    unfold set_events_data, set_events_features, modify_self, unwrap, pret. simpl.
    fold g. rewrite Hsel. reflexivity. }
  rewrite Hrun. simpl.
  split; [reflexivity|]. split; [apply lookup_insert_eq|]. split; [|reflexivity].
  exists g. split; [reflexivity|]. split; [|reflexivity].
  unfold g, column_names. simpl. apply names_assign_col_present.
  rewrite lookup_col_assign_eq. eauto.
Qed.

(** ** Borders and covariates *)

(** X20: borders given as data are stored in the reference frame of the
    session when they carry one of their own (reprojected if it differs),
    and as they are, with one warning on the console, when they carry
    none: in that case the stored borders have no reference frame either.
    The rows are those of the data, and [method] is not looked at. *)
Theorem add_max_borders_data data method w w' :
  add_max_borders (Some data) method w = (Ok tt, w') ->
  exists borders,
    max_borders (self w') = Some borders
    /\ df_index borders = df_index data
    /\ column_names borders = column_names data
    /\ match df_crs data with
       | None => borders = data /\ length (stdout w') = S (length (stdout w))
       | Some _ => df_crs borders = Some (crs (self w)) /\ stdout w' = stdout w
       end.
Proof.
  intros Hrun.
  unfold add_max_borders, pbind, get_self, lift, print, set_max_borders, modify_self,
    get_crs in Hrun.
  simpl in Hrun.
  destruct (df_geo data); simpl in Hrun; [|discriminate].
  destruct (df_crs data) as [c|] eqn:Hc; simpl in Hrun.
  - destruct (String.eqb_spec c (crs (self w))) as [->|Hne]; simpl in Hrun.
    + injection Hrun as <-. simpl. exists data. auto.
    + destruct (to_crs data (crs (self w))) as [d|] eqn:Hto; simpl in Hrun; [|discriminate].
      injection Hrun as <-. simpl. exists d.
      apply to_crs_Ok in Hto. destruct Hto as (Hcrs & _ & Hidx & Hnames & _). auto.
  - injection Hrun as <-. simpl. exists data.
    repeat split; try reflexivity. rewrite length_app. simpl. lia.
Qed.

(** X21: [add_geo_variable] does not check that a discretization exists.
    Called before [add_geo_discretization] with a geopandas layer, it
    first appends the attribute columns of the layer to [geo_features] and
    then fails with [TypeError] on the subscript of [None]. *)
Theorem add_geo_variable_before_discretization data w geoms :
  geo_discretization (self w) = None ->
  df_geo data = true ->
  column data "geometry" = Some geoms ->
  let r := add_geo_variable data w in
  fst r = Raise (TypeError "'NoneType' object is not subscriptable")
  /\ geo_features (self (snd r))
     = geo_features (self w) ++ List.filter (fun c => negb (c =? "geometry")%string)
                                  (column_names data)
  /\ geo_discretization (self (snd r)) = None.
Proof.
  intros Hgd Hgeo Hgeoms r.
  assert (Hdrop : exists d, drop_column data "geometry" = Ok d
                            /\ column_names d
                               = List.filter (fun c => negb (c =? "geometry")%string)
                                   (column_names data)).
  { unfold drop_column. rewrite Hgeoms. eexists. split; [reflexivity|].
    unfold column_names, remove_col. simpl.
    induction (df_columns data) as [|[c v] cols IH]; simpl; [reflexivity|].
    destruct (c =? "geometry")%string; simpl; [exact IH|f_equal; exact IH]. }
  destruct Hdrop as [d [Hdrop Hnames]].
  assert (Hregr : exists regr, match df_crs data with
                               | None => set_crs data (crs (self w))
                               | Some _ => to_crs data (crs (self w))
                               end = Ok regr).
  { destruct (df_crs data) as [c|] eqn:Hc.
    - unfold to_crs, get_column. rewrite Hgeo, Hc, Hgeoms. simpl. eauto.
    - unfold set_crs. rewrite Hc. eauto. }
  destruct Hregr as [regr Hregr].
  unfold r, add_geo_variable, pbind, get_self, lift, pret, raise, print, unwrap,
    set_geo_features, modify_self, get_crs.
  rewrite Hgeo. simpl.
  destruct (df_crs data) as [c|]; simpl; rewrite Hregr, Hdrop; simpl;
    rewrite Hgd; simpl; rewrite Hnames; repeat split; try reflexivity; exact Hgd.
Qed.

(** ** Custom polygons and graph nodes *)

Lemma centroids_and_join_table w u w' gd :
  centroids_and_join w = (Ok u, w') ->
  geo_discretization (self w) = Some gd ->
  exists lat lon,
    geo_discretization (self w')
    = Some (set_column (set_column gd "center_lat" lat) "center_lon" lon).
Proof.
  intros Hrun Hgd.
  unfold centroids_and_join, pbind, get_self, unwrap, lift, pret, raise,
    set_geo_discretization, set_events_data, modify_self in Hrun.
  rewrite Hgd in Hrun. simpl in Hrun.
  invert_run Hrun. injection Hrun as _ <-. simpl. eauto.
Qed.

Lemma load_custom_data_table custom_data msg w u w' :
  load_custom_data custom_data msg w = (Ok u, w') ->
  exists cd geoms gd geoms',
    custom_data = Some cd
    /\ column cd "geometry" = Some geoms
    /\ geo_discretization (self w') = Some gd
    /\ df_columns gd = [("geometry", geoms'); ("id", map VInt (range (nrows cd)))]
    /\ length geoms' = length geoms
    /\ df_index gd = df_index cd
    /\ df_crs gd = Some (crs (self w)).
Proof.
  intros Hrun.
  unfold load_custom_data in Hrun. destruct custom_data as [cd|]; [|discriminate].
  unfold pbind, get_self, lift, pret, raise, print, set_geo_discretization, modify_self,
    select_columns, get_crs, set_crs, to_crs, get_column in Hrun.
  simpl in Hrun.
  destruct (column cd "geometry") as [geoms|] eqn:Hg; simpl in Hrun; [|discriminate].
  exists cd, geoms.
  invert_run Hrun; injection Hrun as _ <-; simpl;
    repeat match goal with
           | Hb : negb (_ =? _)%string = false |- _ =>
               apply negb_false_iff, String.eqb_eq in Hb
           | Hb : (_ =? _)%string = true |- _ => apply String.eqb_eq in Hb
           end;
    (eexists; eexists; split; [reflexivity|]; split; [exact Hg|];
     split; [reflexivity|]; split; [reflexivity|]);
    simpl; rewrite ?length_map; repeat split; congruence.
Qed.

(** X22: in mode [C] every neighbor list holds ids of cells of the table,
    and never the id of the cell itself. *)
Theorem custom_polygons_neighbors
    hex_discr_param rect_discr_param_x rect_discr_param_y custom_data w w' :
  add_geo_discretization "C" hex_discr_param rect_discr_param_x rect_discr_param_y
    custom_data w = (Ok tt, w') ->
  exists gd neighbors,
    geo_discretization (self w') = Some gd
    /\ column gd "neighbors" = Some neighbors
    /\ forall i v, neighbors !! i = Some v ->
         exists row_neighbors, v = VList row_neighbors
           /\ forall n, n ∈ row_neighbors ->
                0 <= n < Z.of_nat (nrows gd) /\ n <> Z.of_nat i.
Proof.
  intros Hrun. unfold add_geo_discretization in Hrun.
  py_step Hrun. injection Hstep as <- <-.
  py_step Hrun. destruct (max_borders (self w)) as [borders|] eqn:Hb;
    simpl in Hstep; [|discriminate]. injection Hstep as <- <-.
  simpl in Hrun.
  py_step Hrun. apply load_custom_data_table in Hstep.
  destruct Hstep as (cd & geoms & gd1 & geoms' & -> & Hg & Hgd1 & Hcols & Hlen & Hidx & Hcrs).
  py_step Hrun. injection Hstep as <- <-.
  py_step Hrun. rewrite Hgd1 in Hstep. injection Hstep as <- <-.
  unfold get_column, column in Hrun. rewrite Hcols in Hrun. simpl in Hrun.
  py_step Hrun. injection Hstep as <- <-.
  py_step Hrun. injection Hstep as <- <-.
  py_step Hrun. injection Hstep as _ <-.
  eapply centroids_and_join_table in Hrun; [|reflexivity].
  destruct Hrun as [lat [lon Hgd']].
  eexists. eexists. split; [exact Hgd'|]. split.
  { rewrite !column_set_column_ne by discriminate. apply column_set_column_eq. }
  intros i v Hv. unfold custom_neighbors in Hv.
  apply lookup_zip_with_Some in Hv. destruct Hv as (g & id & -> & Hgi & Hid).
  rewrite TimeDiscretizationFacts.lookup_map in Hid.
  destruct (range (nrows cd) !! i) as [z|] eqn:Hz; [|discriminate].
  injection Hid as <-. unfold range in Hz. apply lookup_seqZ in Hz.
  destruct Hz as [-> Hlt]. eexists. split; [reflexivity|].
  intros n Hn. apply list_elem_of_In, filter_In in Hn. destruct Hn as [Hn Hneq].
  apply list_elem_of_In, elem_of_int_values, elem_of_keep in Hn.
  apply list_elem_of_fmap in Hn. destruct Hn as [z [[= ->] Hz]].
  unfold range in Hz. apply elem_of_seqZ in Hz.
  split.
  - unfold nrows. simpl. unfold set_column, with_columns. simpl.
    unfold nrows in Hz. rewrite Hidx. lia.
  - apply negb_true_iff, Z.eqb_neq in Hneq. lia.
Qed.

(** X23: what the table holds after a call that returns, in the two modes
    that take custom data.  In mode [C] its columns are [geometry], [id],
    [neighbors], [center_lat] and [center_lon]; in mode [G] they are
    [geometry] and [id] only: no adjacency and no centroid is computed
    for graph nodes.  In both the table is in the reference frame of the
    session and has the rows of the custom data. *)
Theorem custom_data_table_columns
    discr_type hex_discr_param rect_discr_param_x rect_discr_param_y custom_data w w' :
  discr_type = "C" \/ discr_type = "G" ->
  add_geo_discretization discr_type hex_discr_param rect_discr_param_x
    rect_discr_param_y custom_data w = (Ok tt, w') ->
  exists cd gd,
    custom_data = Some cd
    /\ geo_discretization (self w') = Some gd
    /\ column_names gd
       = (if (discr_type =? "C")%string
          then ["geometry"; "id"; "neighbors"; "center_lat"; "center_lon"]
          else ["geometry"; "id"])
    /\ df_index gd = df_index cd
    /\ df_crs gd = Some (crs (self w)).
Proof.
  intros Hmode Hrun. unfold add_geo_discretization in Hrun.
  py_step Hrun. injection Hstep as <- <-.
  py_step Hrun. destruct (max_borders (self w)) as [borders|] eqn:Hb;
    simpl in Hstep; [|discriminate]. injection Hstep as <- <-.
  destruct Hmode as [-> | ->]; simpl in Hrun.
  - py_step Hrun. apply load_custom_data_table in Hstep.
    destruct Hstep as (cd & geoms & gd1 & geoms' & -> & Hg & Hgd1 & Hcols & Hlen & Hidx & Hcrs).
    py_step Hrun. injection Hstep as <- <-.
    py_step Hrun. rewrite Hgd1 in Hstep. injection Hstep as <- <-.
    unfold get_column, column in Hrun. rewrite Hcols in Hrun. simpl in Hrun.
    py_step Hrun. injection Hstep as <- <-.
    py_step Hrun. injection Hstep as <- <-.
    py_step Hrun. injection Hstep as _ <-.
    eapply centroids_and_join_table in Hrun; [|reflexivity].
    destruct Hrun as [lat [lon Hgd']].
    exists cd. eexists. split; [reflexivity|]. split; [exact Hgd'|].
    unfold column_names, set_column, with_columns. simpl. rewrite Hcols. simpl.
    repeat split; assumption.
  - py_step Hrun.
    pose proof (assign_nearest_node_keeps_table x0) as Hkeep.
    rewrite Hrun in Hkeep. simpl in Hkeep.
    apply load_custom_data_table in Hstep.
    destruct Hstep as (cd & geoms & gd1 & geoms' & -> & Hg & Hgd1 & Hcols & Hlen & Hidx & Hcrs).
    exists cd, gd1. split; [reflexivity|]. split; [congruence|].
    unfold column_names. rewrite Hcols. simpl. repeat split; assumption.
Qed.

Lemma elem_of_keep_iff {A} (mask : list bool) (l : list A) x :
  x ∈ keep mask l <-> exists k, mask !! k = Some true /\ l !! k = Some x.
Proof.
  revert l. induction mask as [|b mask IH]; intros [|y l]; simpl.
  - split; [intros Hin; apply elem_of_nil in Hin; tauto|intros [k [Hk _]]; discriminate].
  - split; [intros Hin; apply elem_of_nil in Hin; tauto|intros [k [Hk _]]; discriminate].
  - split; [intros Hin; apply elem_of_nil in Hin; tauto|].
    intros [k [_ Hk]]. destruct k; discriminate.
  - destruct b.
    + rewrite elem_of_cons, IH. split.
      * intros [->|[k [Hm Hl]]]; [exists 0%nat; auto|exists (S k); auto].
      * intros [[|k] [Hm Hl]]; simpl in *; [left; congruence|right; eauto].
    + rewrite IH. split.
      * intros [k [Hm Hl]]. exists (S k). auto.
      * intros [[|k] [Hm Hl]]; simpl in *; [discriminate|eauto].
Qed.

Lemma custom_neighbors_elem geoms N i row_neighbors n :
  custom_neighbors geoms (map VInt (range N)) !! i = Some (VList row_neighbors) ->
  n ∈ row_neighbors
  <-> exists k g g',
        n = Z.of_nat k /\ (k < N)%nat /\ k <> i
        /\ geoms !! k = Some g' /\ geoms !! i = Some g /\ disjoint g' g = false.
Proof.
  intros Hrow. unfold custom_neighbors in Hrow.
  apply lookup_zip_with_Some in Hrow. destruct Hrow as (g & id & Heq & Hgi & Hid).
  injection Heq as ->.
  rewrite TimeDiscretizationFacts.lookup_map in Hid.
  destruct (range N !! i) as [z|] eqn:Hz; [|discriminate].
  injection Hid as <-. unfold range in Hz. apply lookup_seqZ in Hz.
  destruct Hz as [-> Hlt].
  rewrite list_elem_of_In, filter_In, <- list_elem_of_In.
  unfold int_values. rewrite list_elem_of_omap. split.
  - intros [[v [Hv Hn]] Hneq]. destruct v; try discriminate. injection Hn as ->.
    apply elem_of_keep_iff in Hv. destruct Hv as [k [Hm Hk]].
    rewrite TimeDiscretizationFacts.lookup_map in Hm.
    rewrite TimeDiscretizationFacts.lookup_map in Hk.
    destruct (geoms !! k) as [g'|] eqn:Hg'; [|discriminate].
    destruct (range N !! k) as [z|] eqn:Hzk; [|discriminate].
    injection Hk as ->. unfold range in Hzk. apply lookup_seqZ in Hzk.
    destruct Hzk as [-> Hklt]. injection Hm as Hm. apply negb_true_iff in Hm.
    apply negb_true_iff, Z.eqb_neq in Hneq.
    exists k, g, g'. repeat split; try assumption; lia.
  - intros (k & g0 & g' & -> & Hk & Hne & Hg' & Hg0 & Hdis).
    rewrite Hgi in Hg0. injection Hg0 as <-. split.
    + exists (VInt (Z.of_nat k)). split; [|reflexivity].
      apply elem_of_keep_iff. exists k.
      rewrite !TimeDiscretizationFacts.lookup_map, Hg'. simpl. rewrite Hdis. simpl.
      split; [reflexivity|].
      unfold range. rewrite lookup_seqZ_lt by lia. reflexivity.
    + apply negb_true_iff, Z.eqb_neq. lia.
Qed.

(** X24: the adjacency of the custom polygons is symmetric whenever the
    test of disjointness is symmetric on the polygons of the table: cell
    [j] is in the list of cell [i] exactly when cell [i] is in the list of
    cell [j]. *)
Theorem custom_neighbors_symmetric geoms N i j neighbors_i neighbors_j :
  (forall a b, a ∈ geoms -> b ∈ geoms -> disjoint a b = disjoint b a) ->
  custom_neighbors geoms (map VInt (range N)) !! i = Some (VList neighbors_i) ->
  custom_neighbors geoms (map VInt (range N)) !! j = Some (VList neighbors_j) ->
  Z.of_nat j ∈ neighbors_i <-> Z.of_nat i ∈ neighbors_j.
Proof.
  intros Hsym Hi Hj.
  rewrite (custom_neighbors_elem geoms N i neighbors_i _ Hi).
  rewrite (custom_neighbors_elem geoms N j neighbors_j _ Hj).
  assert (Hilt : (i < N)%nat /\ (j < N)%nat).
  { unfold custom_neighbors in Hi, Hj.
    apply lookup_zip_with_Some in Hi, Hj.
    destruct Hi as (? & ? & _ & _ & Hi). destruct Hj as (? & ? & _ & _ & Hj).
    apply lookup_lt_Some in Hi, Hj. rewrite length_map, length_range in Hi, Hj. lia. }
  split; intros (k & g & g' & Hk & Hlt & Hne & Hg' & Hg & Hdis);
    apply Nat2Z.inj in Hk; subst k.
  - exists i, g', g.
    rewrite Hsym by (eapply list_elem_of_lookup_2; eassumption).
    repeat split; first [assumption | lia | auto].
  - exists j, g', g.
    rewrite Hsym by (eapply list_elem_of_lookup_2; eassumption).
    repeat split; first [assumption | lia | auto].
Qed.

(** ** The ranks of the matched nodes *)

Lemma unique_from_spec seen l :
  NoDup (unique_from seen l)
  /\ forall x, x ∈ unique_from seen l <-> x ∈ l /\ x ∉ seen.
Proof.
  revert seen. induction l as [|y l IH]; intros seen; simpl.
  - split; [constructor|]. intros x. split.
    + intros Hin. apply elem_of_nil in Hin. tauto.
    + intros [Hin _]. exact Hin.
  - destruct (bool_decide (y ∈ seen)) eqn:E.
    + apply bool_decide_eq_true in E. destruct (IH seen) as [Hnd Hel].
      split; [exact Hnd|]. intros x. rewrite Hel, elem_of_cons. split.
      * intros [Hx Hs]. auto.
      * intros [[->|Hx] Hs]; [tauto|auto].
    + apply bool_decide_eq_false in E. destruct (IH (y :: seen)) as [Hnd Hel].
      split.
      * constructor; [|exact Hnd]. intros Hin. apply Hel in Hin.
        destruct Hin as [_ Hin]. apply Hin. apply list_elem_of_here.
      * intros x. rewrite !elem_of_cons, Hel. rewrite not_elem_of_cons. split.
        -- intros [->|[Hx [Hne Hs]]]; auto.
        -- intros [[->|Hx] Hs]; [auto|].
           destruct (decide (x = y)) as [->|Hne]; auto.
Qed.

Lemma invert_enumerate_lookup_2 l i n :
  NoDup l -> l !! i = Some n -> invert_enumerate l !! n = Some (Z.of_nat i).
Proof.
  unfold invert_enumerate, enumerate.
  assert (Hskip : forall l start (d : gmap Z Z),
             n ∉ l ->
             fold_left (fun d kv => <[snd kv := fst kv]> d) (enumerate_from start l) d !! n
             = d !! n).
  { clear. induction l as [|x l IH]; intros start d Hn; simpl; [reflexivity|].
    apply not_elem_of_cons in Hn. destruct Hn as [Hne Hn].
    rewrite IH by exact Hn. apply lookup_insert_ne. congruence. }
  assert (Hgen : forall l i start (d : gmap Z Z),
             NoDup l -> l !! i = Some n ->
             fold_left (fun d kv => <[snd kv := fst kv]> d) (enumerate_from start l) d !! n
             = Some (start + Z.of_nat i)).
  { clear l i. induction l as [|x l IH]; intros i start d Hnd Hi; [discriminate|].
    apply NoDup_cons in Hnd. destruct Hnd as [Hx Hnd]. simpl.
    destruct i as [|i]; simpl in Hi.
    - injection Hi as ->. rewrite Hskip by exact Hx.
      rewrite lookup_insert_eq. f_equal. lia.
    - rewrite (IH i (start + 1) _ Hnd Hi). f_equal. lia. }
  intros Hnd Hi. rewrite (Hgen l i 0 ∅ Hnd Hi). reflexivity.
Qed.

(** X25: the ranks given to the matched nodes in mode [G].  For the
    column [node_id] of the join, the column [gdiscr] computed from it
    gives to every event with a node a rank between 0 and the number of
    distinct nodes, the same rank to two events exactly when their nodes
    are the same, uses every rank of that range, and leaves an event
    without a node without a rank. *)
Theorem node_ranks node_id :
  let nodes := unique (int_values node_id) in
  let gdiscr := map (map_dict (invert_enumerate nodes)) node_id in
  length gdiscr = length node_id
  /\ (forall i n, node_id !! i = Some (VInt n) ->
        exists k, gdiscr !! i = Some (VInt k)
                  /\ 0 <= k < Z.of_nat (length nodes)
                  /\ nodes !! Z.to_nat k = Some n)
  /\ (forall i j n m k,
        node_id !! i = Some (VInt n) -> node_id !! j = Some (VInt m) ->
        gdiscr !! i = Some (VInt k) -> gdiscr !! j = Some (VInt k) -> n = m)
  /\ (forall k, 0 <= k < Z.of_nat (length nodes) ->
        exists i, gdiscr !! i = Some (VInt k))
  /\ (forall i, node_id !! i = Some NA -> gdiscr !! i = Some NA).
Proof.
  intros nodes gdiscr.
  destruct (unique_from_spec [] (int_values node_id)) as [Hnd Hel].
  fold (unique (int_values node_id)) in Hnd, Hel. fold nodes in Hnd, Hel.
  assert (Hrank : forall n, VInt n ∈ node_id ->
            exists idx, nodes !! idx = Some n
                        /\ invert_enumerate nodes !! n = Some (Z.of_nat idx)).
  { intros n Hn.
    assert (Hin : n ∈ nodes).
    { apply Hel. split; [|apply not_elem_of_nil].
      unfold int_values. apply list_elem_of_omap. exists (VInt n). auto. }
    apply list_elem_of_lookup in Hin. destruct Hin as [idx Hidx].
    exists idx. split; [exact Hidx|]. apply invert_enumerate_lookup_2; assumption. }
  split; [apply length_map|]. split; [|split; [|split]].
  - intros i n Hi.
    destruct (Hrank n) as [idx [Hidx Hd]]; [eapply list_elem_of_lookup_2; exact Hi|].
    exists (Z.of_nat idx). unfold gdiscr.
    rewrite TimeDiscretizationFacts.lookup_map, Hi. simpl. rewrite Hd.
    split; [reflexivity|]. apply lookup_lt_Some in Hidx as Hlt.
    split; [lia|]. rewrite Nat2Z.id. exact Hidx.
  - intros i j n m k Hi Hj Hgi Hgj. unfold gdiscr in Hgi, Hgj.
    rewrite TimeDiscretizationFacts.lookup_map, Hi in Hgi.
    rewrite TimeDiscretizationFacts.lookup_map, Hj in Hgj.
    simpl in Hgi, Hgj.
    destruct (invert_enumerate nodes !! n) as [kn|] eqn:Hn; [|discriminate].
    destruct (invert_enumerate nodes !! m) as [km|] eqn:Hm; [|discriminate].
    injection Hgi as ->. injection Hgj as ->.
    apply invert_enumerate_lookup in Hn, Hm.
    destruct Hn as [_ Hn]. destruct Hm as [_ Hm]. congruence.
  - intros k Hk.
    destruct (lookup_lt_is_Some_2 nodes (Z.to_nat k)) as [n Hn]; [lia|].
    assert (Hin : VInt n ∈ node_id).
    { apply elem_of_int_values. apply Hel. eapply list_elem_of_lookup_2. exact Hn. }
    apply list_elem_of_lookup in Hin. destruct Hin as [i Hi].
    exists i. unfold gdiscr. rewrite TimeDiscretizationFacts.lookup_map, Hi. simpl.
    rewrite (invert_enumerate_lookup_2 nodes _ n Hnd Hn).
    f_equal. f_equal. lia.
  - intros i Hi. unfold gdiscr.
    rewrite TimeDiscretizationFacts.lookup_map, Hi. reflexivity.
Qed.


(** X29: borders estimated from the events.  A call of [add_max_borders]
    without data returns only for the methods [rectangle] and [convex] and
    only on a session with events; the borders it stores are one row with
    the single column [geometry], in the reference frame of the session,
    and nothing is printed. *)
Theorem add_max_borders_estimated method w w' :
  add_max_borders None method w = (Ok tt, w') ->
  (method = Some "rectangle" \/ method = Some "convex")
  /\ exists ev geoms g,
       events_data (self w) = Some ev
       /\ column ev "geometry" = Some geoms
       /\ max_borders (self w') = Some (single_geometry_frame g (crs (self w)))
       /\ (method = Some "rectangle" ->
           forall minx miny maxx maxy,
             total_bounds geoms = (minx, miny, maxx, maxy) ->
             g = Polygon [ (minx, miny); (minx, maxy); (maxx, maxy); (maxx, miny) ])
       /\ stdout w' = stdout w.
Proof.
  intros Hrun.
  unfold add_max_borders, pbind, get_self, lift, raise, unwrap, set_max_borders,
    modify_self, get_column in Hrun.
  simpl in Hrun.
  destruct (bool_decide (method = Some "rectangle")) eqn:Er.
  - apply bool_decide_eq_true in Er. split; [left; exact Er|].
    simpl in Hrun.
    destruct (events_data (self w)) as [ev|] eqn:Hev; simpl in Hrun; [|discriminate].
    destruct (column ev "geometry") as [geoms|] eqn:Hg; simpl in Hrun; [|discriminate].
    destruct (total_bounds geoms) as [[[minx miny] maxx] maxy] eqn:Hb.
    injection Hrun as <-. simpl.
    exists ev, geoms. eexists.
    split; [reflexivity|]. split; [assumption|]. split; [reflexivity|].
    split; [|reflexivity].
    intros _ minx' miny' maxx' maxy' Hb'. congruence.
  - apply bool_decide_eq_false in Er.
    destruct (bool_decide (method = Some "convex")) eqn:Ec; [|discriminate].
    apply bool_decide_eq_true in Ec. split; [right; exact Ec|].
    simpl in Hrun.
    destruct (events_data (self w)) as [ev|] eqn:Hev; simpl in Hrun; [|discriminate].
    destruct (column ev "geometry") as [geoms|] eqn:Hg; simpl in Hrun; [|discriminate].
    invert_run Hrun. injection Hrun as <-. simpl.
    exists ev, geoms. eexists.
    split; [reflexivity|]. split; [assumption|]. split; [reflexivity|].
    split; [|reflexivity].
    intros Hm. congruence.
Qed.

(** X30: what a call of [add_geo_variable] that returns leaves.  The table
    is replaced by the merge of the old table with the covariates: it is
    in the reference frame of the old one and carries a fresh
    [RangeIndex].  Every column of the layer but [geometry] is appended to
    [geo_features], and a warning is printed exactly when the layer has no
    reference frame. *)
Theorem add_geo_variable_result data w w' :
  add_geo_variable data w = (Ok tt, w') ->
  exists gd merged n,
    geo_discretization (self w) = Some gd
    /\ geo_discretization (self w') = Some merged
    /\ df_crs merged = df_crs gd
    /\ df_geo merged = df_geo gd
    /\ df_index merged = range n
    /\ geo_features (self w')
       = geo_features (self w)
           ++ List.filter (fun c => negb (c =? "geometry")%string) (column_names data)
    /\ length (stdout w')
       = (length (stdout w) + match df_crs data with None => 1 | Some _ => 0 end)%nat.
Proof.
  intros Hrun.
  assert (Hnames : forall layer d, drop_column layer "geometry" = Ok d ->
            column_names d
            = List.filter (fun c => negb (c =? "geometry")%string) (column_names layer)).
  { intros layer d. unfold drop_column.
    destruct (column layer "geometry"); [|discriminate].
    intros [= <-]. unfold column_names, remove_col. simpl.
    induction (df_columns layer) as [|[c v] cols IH]; simpl; [reflexivity|].
    destruct (c =? "geometry")%string; simpl; [exact IH|f_equal; exact IH]. }
  unfold add_geo_variable, pbind, get_self, lift, pret, raise, print, unwrap,
    set_geo_features, set_geo_discretization, modify_self, get_crs, pd_merge, rbind in Hrun.
  simpl in Hrun.
  invert_run Hrun; injection Hrun as <-; simpl;
    repeat match goal with
           | Hd : drop_column data "geometry" = Ok _ |- _ => apply Hnames in Hd
           end;
    do 3 eexists; repeat split;
    first [ reflexivity | eassumption | symmetry; eassumption
          | f_equal; assumption | rewrite ?length_app; simpl; lia ].
Qed.

End Facts.

(** ** The theorems at concrete tables *)

Import DataAgg.Sample.

Lemma variable_window_zero_frequency_not_rejected_witness :
  let r := add_time_discretization (SType "D") (Variable_ [1; 2]) 0 Sample.with_events in
  sum [1; 2] <> 0
  /\ time_indexes (self (snd r)) = ["tdiscr_1"]
  /\ fst r = Raise (ValueError "Cannot convert non-finite values (NA or inf) to integer").
Proof.
  intros r.
  destruct (variable_window_zero_frequency_not_rejected
              "D" [1; 2] Sample.with_events
              (mkDataFrame true (Some "epsg:4326") [0; 1; 2]
                 [ ("geometry", [VGeom (Point (1 # 2) (1 # 2));
                                 VGeom (Point (3 # 2) (3 # 2)); VGeom (Point 5 5)]);
                   ("ts", [VTime 1640995200000000000; VTime 1641254400000000000;
                           VTime 1641772800000000000]) ])) as [Hidx Hres].
  - vm_compute. reflexivity.
  - vm_compute. discriminate.
  - split; [vm_compute; discriminate|]. split.
    + fold r in Hidx. rewrite Hidx. vm_compute. reflexivity.
    + fold r in Hres. rewrite Hres. vm_compute. reflexivity.
Defined.

Lemma add_geo_discretization_contiguous_ids_witness :
  let ids_of (m : Py unit) :=
    exists gd, geo_discretization (self (exec m with_events)) = Some gd
               /\ column gd "id" = Some (map VInt (range (nrows gd))) in
  ids_of (add_geo_discretization "R" None (Some 2) (Some 2) None)
  /\ ids_of (add_geo_discretization "H" (Some 3) None None None)
  /\ ids_of (add_geo_discretization "C" None None None (Some two_polygons))
  /\ ids_of (add_geo_discretization "G" None None None (Some two_nodes)).
Proof.
  cbv zeta. repeat split.
  - apply (add_geo_discretization_contiguous_ids "R" None (Some 2) (Some 2) None with_events).
    vm_compute. reflexivity.
  - apply (add_geo_discretization_contiguous_ids "H" (Some 3) None None None with_events).
    vm_compute. reflexivity.
  - apply (add_geo_discretization_contiguous_ids "C" None None None (Some two_polygons)
             with_events).
    vm_compute. reflexivity.
  - apply (add_geo_discretization_contiguous_ids "G" None None None (Some two_nodes)
             with_events).
    vm_compute. reflexivity.
Defined.

Lemma graph_node_assignment_witness :
  exists ev0 gd ev1 node_ids borders border_geoms border ev geoms gdiscr,
    events_data (self with_events) = Some ev0
    /\ nearest_join (crs (self with_events)) ev0 gd = Ok ev1
    /\ column ev1 "node_id" = Some node_ids
    /\ max_borders (self with_events) = Some borders
    /\ column borders "geometry" = Some border_geoms
    /\ head border_geoms = Some border
    /\ events_data
         (self (exec (add_geo_discretization "G" None None None (Some two_nodes))
                  with_events)) = Some ev
    /\ column ev "geometry" = Some geoms
    /\ column ev "gdiscr" = Some gdiscr
    /\ outside_is_null border geoms gdiscr
    /\ no_orphan_ids node_ids gdiscr.
Proof.
  apply (graph_node_assignment None None None (Some two_nodes) with_events).
  vm_compute. reflexivity.
Defined.

(** The run behind the witness: the third event lies outside the border
    and ends without a cell, the other two get the ranks of their nodes. *)
Example graph_node_assignment_run :
  let w' := exec (add_geo_discretization "G" None None None (Some two_nodes)) with_events in
  exists ev, events_data (self w') = Some ev
             /\ column ev "gdiscr" = Some [VInt 0; VInt 1; NA].
Proof. eexists. split; vm_compute; reflexivity. Qed.

Lemma add_events_data_mutates_argument_witness :
  let pts := [ VGeom (Point (1 # 2) (1 # 2)); VGeom (Point (3 # 2) (3 # 2));
               VGeom (Point 5 5) ] in
  let w' := snd (add_events_data 1%positive (Some "when") "lat" "lon" [] None
                   with_borders) in
  column caller_events "geometry" = None
  /\ objects w' !! 1%positive = Some (set_column caller_events "geometry" pts)
  /\ column (set_column caller_events "geometry" pts) "geometry" = Some pts.
Proof.
  intros pts w'. split; [reflexivity|].
  apply (add_events_data_mutates_argument 1%positive (Some "when") "lat" "lon" [] None
           with_borders caller_events
           [VNum (1 # 2); VNum (3 # 2); VNum 5] [VNum (1 # 2); VNum (3 # 2); VNum 5] pts).
  - vm_compute. reflexivity.
  - reflexivity.
  - reflexivity.
  - reflexivity.
  - vm_compute. reflexivity.
Defined.

Lemma add_time_discretization_adds_column_witness :
  let w' := exec (add_time_discretization (SType "D") (Uniform 1) 7) with_events in
  exists ev n col,
    events_data (self with_events) = Some ev
    /\ 1 <= n
    /\ (t_col_name n ∉ column_names ev)
    /\ (forall j, 1 <= j < n -> t_col_name j ∈ column_names ev)
    /\ events_data (self w') = Some (set_column ev (t_col_name n) col)
    /\ column_names (set_column ev (t_col_name n) col) = column_names ev ++ [t_col_name n]
    /\ (forall c, c <> t_col_name n ->
          column (set_column ev (t_col_name n) col) c = column ev c)
    /\ time_indexes (self w') = time_indexes (self with_events) ++ [t_col_name n].
Proof.
  intros w'.
  apply (add_time_discretization_adds_column (SType "D") (Uniform 1) 7 with_events).
  vm_compute. reflexivity.
Defined.

(** The run behind the witness: the index of the day of the week, counted
    from the first event, in a column [tdiscr_1]. *)
Example add_time_discretization_run :
  let w' := exec (add_time_discretization (SType "D") (Uniform 1) 7) with_events in
  exists ev, events_data (self w') = Some ev
             /\ column_names ev = ["geometry"; "ts"; "tdiscr_1"]
             /\ column ev "tdiscr_1" = Some [VInt 0; VInt 3; VInt 2]
             /\ time_indexes (self w') = ["tdiscr_1"].
Proof. eexists. repeat split; vm_compute; reflexivity. Qed.

Lemma add_time_discretization_without_ts_witness :
  exists ev,
    events_data (self with_events_no_ts) = Some ev
    /\ column ev "ts" = None
    /\ (1 <> 0 /\ 7 mod 1 = 0)
    /\ let r := add_time_discretization (SType "D") (Uniform 1) 7 with_events_no_ts in
       let t_col := next_t_col (length (column_names ev)) 1 (column_names ev) in
       fst r = Raise (KeyError "ts")
       /\ time_indexes (self (snd r)) = time_indexes (self with_events_no_ts) ++ [t_col]
       /\ events_data (self (snd r)) = Some ev
       /\ column ev t_col = None.
Proof.
  eexists. split; [vm_compute; reflexivity|].
  split; [vm_compute; reflexivity|]. split; [split; [lia|reflexivity]|].
  apply (add_time_discretization_without_ts "D" (Uniform 1) 7 with_events_no_ts).
  - vm_compute. reflexivity.
  - vm_compute. reflexivity.
  - split; [lia|reflexivity].
Defined.

Lemma add_events_data_result_witness :
  let w' := exec (add_events_data 1%positive (Some "when") "lat" "lon" ["lat"] None)
              with_borders in
  exists ev,
    events_data (self w') = Some ev
    /\ column_names ev = ["lat"] ++ ["geometry"; "ts"]
    /\ df_crs ev = Some (crs (self with_borders))
    /\ df_geo ev = true
    /\ events_features (self w') = events_features (self with_borders) ++ ["lat"].
Proof.
  intros w'.
  apply (add_events_data_result 1%positive (Some "when") "lat" "lon" ["lat"] None
           with_borders).
  vm_compute. reflexivity.
Defined.

Lemma add_events_data_missing_coordinates_witness :
  column caller_events "longitude" = None
  /\ add_events_data 1%positive None "lat" "longitude" [] None fresh_world
     = (Raise (KeyError "longitude"), fresh_world).
Proof.
  split; [reflexivity|].
  apply (add_events_data_missing_coordinates 1%positive None "lat" "longitude" [] None
           fresh_world caller_events).
  - vm_compute. reflexivity.
  - reflexivity.
  - left. reflexivity.
Defined.

Lemma add_events_data_missing_feature_witness :
  let pts := [ VGeom (Point (1 # 2) (1 # 2)); VGeom (Point (3 # 2) (3 # 2));
               VGeom (Point 5 5) ] in
  let r := add_events_data 1%positive None "lat" "lon" (["lat"] ++ "speed" :: ["lon"]) None
             with_borders in
  column caller_events "speed" = None
  /\ fst r = Raise (KeyError "speed")
  /\ objects (snd r) !! 1%positive = Some (set_column caller_events "geometry" pts)
  /\ (exists ev, events_data (self (snd r)) = Some ev
                 /\ column_names ev = column_names (set_column caller_events "geometry" pts)
                 /\ df_crs ev = Some (crs (self with_borders)))
  /\ events_features (self (snd r))
     = events_features (self with_borders) ++ ["lat"] ++ "speed" :: ["lon"].
Proof.
  intros pts r. split; [reflexivity|].
  apply (add_events_data_missing_feature 1%positive "lat" "lon" ["lat"] "speed" ["lon"] None
           with_borders caller_events
           [VNum (1 # 2); VNum (3 # 2); VNum 5] [VNum (1 # 2); VNum (3 # 2); VNum 5] pts).
  - vm_compute. reflexivity.
  - reflexivity.
  - reflexivity.
  - reflexivity.
  - reflexivity.
  - vm_compute. reflexivity.
  - constructor; [right; eexists; reflexivity|constructor].
  - discriminate.
  - reflexivity.
Defined.

Lemma add_max_borders_data_witness :
  let w' := exec (add_max_borders (Some square_border) (Some "no such method")) fresh_world in
  exists borders,
    max_borders (self w') = Some borders
    /\ df_index borders = df_index square_border
    /\ column_names borders = column_names square_border
    /\ match df_crs square_border with
       | None => borders = square_border
                 /\ length (stdout w') = S (length (stdout fresh_world))
       | Some _ => df_crs borders = Some (crs (self fresh_world))
                   /\ stdout w' = stdout fresh_world
       end.
Proof.
  intros w'.
  apply (add_max_borders_data square_border (Some "no such method") fresh_world).
  vm_compute. reflexivity.
Defined.

Lemma add_geo_variable_before_discretization_witness :
  let r := add_geo_variable population with_events in
  geo_discretization (self with_events) = None
  /\ fst r = Raise (TypeError "'NoneType' object is not subscriptable")
  /\ geo_features (self (snd r))
     = geo_features (self with_events)
         ++ List.filter (fun c => negb (c =? "geometry")%string) (column_names population)
  /\ geo_discretization (self (snd r)) = None.
Proof.
  intros r. split; [vm_compute; reflexivity|].
  apply (add_geo_variable_before_discretization population with_events
           [VGeom (unit_square 0 0)]).
  - vm_compute. reflexivity.
  - reflexivity.
  - reflexivity.
Defined.

Lemma custom_polygons_neighbors_witness :
  let w' := exec (add_geo_discretization "C" None None None (Some two_polygons))
              with_events in
  exists gd neighbors,
    geo_discretization (self w') = Some gd
    /\ column gd "neighbors" = Some neighbors
    /\ forall i v, neighbors !! i = Some v ->
         exists row_neighbors, v = VList row_neighbors
           /\ forall n, n ∈ row_neighbors ->
                0 <= n < Z.of_nat (nrows gd) /\ n <> Z.of_nat i.
Proof.
  intros w'.
  apply (custom_polygons_neighbors None None None (Some two_polygons) with_events).
  vm_compute. reflexivity.
Defined.

(** The run behind the witness: two squares that share a side. *)
Example custom_polygons_run :
  let w' := exec (add_geo_discretization "C" None None None (Some two_polygons))
              with_events in
  exists gd, geo_discretization (self w') = Some gd
             /\ column gd "id" = Some [VInt 0; VInt 1]
             /\ column gd "neighbors" = Some [VList [1]; VList [0]].
Proof. eexists. repeat split; vm_compute; reflexivity. Qed.

Lemma custom_data_table_columns_witness :
  let w' := exec (add_geo_discretization "G" None None None (Some two_nodes))
              with_events in
  exists cd gd,
    Some two_nodes = Some cd
    /\ geo_discretization (self w') = Some gd
    /\ column_names gd
       = (if ("G" =? "C")%string
          then ["geometry"; "id"; "neighbors"; "center_lat"; "center_lon"]
          else ["geometry"; "id"])
    /\ df_index gd = df_index cd
    /\ df_crs gd = Some (crs (self with_events)).
Proof.
  intros w'.
  apply (custom_data_table_columns "G" None None None (Some two_nodes) with_events).
  - right. reflexivity.
  - vm_compute. reflexivity.
Defined.

Lemma custom_neighbors_symmetric_witness :
  let geoms := [ VGeom (unit_square 0 0); VGeom (unit_square 1 0);
                 VGeom (unit_square 3 0) ] in
  custom_neighbors geoms (map VInt (range 3)) = [VList [1]; VList [0]; VList []]
  /\ (Z.of_nat 1 ∈ [1] <-> Z.of_nat 0 ∈ [0]).
Proof.
  intros geoms. split; [vm_compute; reflexivity|].
  apply (custom_neighbors_symmetric geoms 3 0 1 [1] [0]).
  - intros a b Ha Hb. apply list_elem_of_In in Ha, Hb. simpl in Ha, Hb.
    destruct Ha as [<-|[<-|[<-|[]]]], Hb as [<-|[<-|[<-|[]]]]; vm_compute; reflexivity.
  - vm_compute. reflexivity.
  - vm_compute. reflexivity.
Defined.

Lemma variable_window_mismatch_raises_witness :
  sum [1; 2] <> 7
  /\ add_time_discretization (SType "D") (Variable_ [1; 2]) 7 with_events
     = (Raise (ValueError "Parameter `frequency` must be equal sum of `window`."),
        with_events).
Proof.
  split; [vm_compute; discriminate|].
  eapply (variable_window_mismatch_raises "D" [1; 2] 7 with_events).
  - vm_compute. reflexivity.
  - vm_compute. discriminate.
  - lia.
Defined.

Lemma hex_reindex_neighbors_valid_witness :
  let w' := exec (hex_reindex clipped_cells) with_borders in
  exists gd' neighbors,
    geo_discretization (self w') = Some gd'
    /\ column gd' "id" = Some (map VInt (df_index clipped_cells))
    /\ column gd' "neighbors" = Some neighbors
    /\ forall v, v ∈ neighbors ->
         exists new_list, v = VList new_list
           /\ forall x, x ∈ new_list -> x ∈ df_index clipped_cells /\ x <> 0.
Proof.
  intros w'.
  apply (hex_reindex_neighbors_valid clipped_cells with_borders tt).
  vm_compute. reflexivity.
Defined.

Lemma guards_leave_session_unchanged_witness :
  add_max_borders None None fresh_world
  = (Raise (ValueError "Please inform `data` or `method` parameter."), fresh_world)
  /\ add_time_discretization (SType "D") (Uniform 1) 7 fresh_world
     = (Raise (AttributeError msg_inform_events), fresh_world)
  /\ add_time_discretization (SType "D") (Uniform 2) 7 with_events
     = (Raise (ValueError "Parameter `frequency` must be a multiple of `window`."),
        with_events)
  /\ add_geo_discretization "unknown" None None None None fresh_world
     = (Raise (ValueError "Please inform geographical limits using `add_max_borders` method."),
        fresh_world)
  /\ add_geo_discretization "unknown" None None None None with_events
     = (Raise (ValueError ("Invalid `discr_type` value " +:+ "unknown" +:+ ".")),
        with_events)
  /\ add_geo_discretization "C" None None None None with_events
     = (Raise (ValueError
                 "Please inform `custom_data` to be used as geographical discretization."),
        with_events).
Proof.
  destruct (guards_leave_session_unchanged fresh_world) as (Hm & Ht & _ & Hb & _).
  destruct (guards_leave_session_unchanged with_events) as (_ & _ & Hw & _ & Hd & Hc).
  split; [apply Hm; discriminate|].
  split; [apply Ht; vm_compute; reflexivity|].
  split; [eapply Hw; [vm_compute; reflexivity|lia|vm_compute; discriminate]|].
  split; [apply Hb; vm_compute; reflexivity|].
  split.
  - eapply Hd; [vm_compute; reflexivity|].
    intros Hin. apply list_elem_of_In in Hin. simpl in Hin.
    destruct Hin as [Hin|[Hin|[Hin|[Hin|[]]]]]; discriminate.
  - eapply Hc. vm_compute. reflexivity.
Defined.

Lemma add_max_borders_estimated_witness :
  let w' := exec (add_max_borders None (Some "rectangle")) with_events in
  (Some "rectangle" = Some "rectangle" \/ Some "rectangle" = Some "convex")
  /\ exists ev geoms g,
       events_data (self with_events) = Some ev
       /\ column ev "geometry" = Some geoms
       /\ max_borders (self w') = Some (single_geometry_frame g (crs (self with_events)))
       /\ (Some "rectangle" = Some "rectangle" ->
           forall minx miny maxx maxy,
             total_bounds geoms = (minx, miny, maxx, maxy) ->
             g = Polygon [ (minx, miny); (minx, maxy); (maxx, maxy); (maxx, miny) ])
       /\ stdout w' = stdout with_events.
Proof.
  intros w'.
  apply (add_max_borders_estimated (Some "rectangle") with_events).
  vm_compute. reflexivity.
Defined.

(** The run behind the witness: the box of the three events. *)
Example add_max_borders_rectangle_run :
  max_borders (self (exec (add_max_borders None (Some "rectangle")) with_events))
  = Some (single_geometry_frame
            (Polygon [ (1 # 2, 1 # 2); (1 # 2, 5); (5, 5); (5, 1 # 2) ]%Q) "epsg:4326").
Proof. vm_compute. reflexivity. Qed.

Lemma add_geo_variable_result_witness :
  let w := exec (add_geo_discretization "C" None None None (Some two_polygons))
             with_events in
  let w' := exec (add_geo_variable population) w in
  exists gd merged n,
    geo_discretization (self w) = Some gd
    /\ geo_discretization (self w') = Some merged
    /\ df_crs merged = df_crs gd
    /\ df_geo merged = df_geo gd
    /\ df_index merged = range n
    /\ geo_features (self w')
       = geo_features (self w)
           ++ List.filter (fun c => negb (c =? "geometry")%string) (column_names population)
    /\ length (stdout w')
       = (length (stdout w)
          + match df_crs population with None => 1 | Some _ => 0 end)%nat.
Proof.
  intros w w'.
  apply (add_geo_variable_result population w).
  vm_compute. reflexivity.
Defined.

End DataAggFacts.
